(** * rejktbot: schedule store, execution engine and create command

    A shallow embedding of the schedule lifecycle of the bot:

    - [ScheduleManager]   (src/utils/schedule-manager.ts)  the persisted store,
    - [SchedulerService]  (src/services/scheduler.ts)      the live timers,
    - [TelegramCommands]  (src/telegram/commands/schedule.ts) the create command,
    - [DiscordCommands]   (the Discord [/schedule] command)    its create subcommand,

    followed by the properties of the specification that concern them.

    Conventions.  JavaScript strings are [string]; a character is one code
    unit in the range 0..255.  Numbers that hold timestamps and counters are
    integers ([Z]).  An optional field [f?: T] is [option T].  The clock
    ([Date.now()]) and the random generator ([Math.random()]) are inputs of
    the operations that read them, one argument per read. *)

From Stdlib Require Import Ascii.
From stdpp Require Import gmap strings list fin_maps pretty.

Local Open Scope Z_scope.

(** ** JavaScript values *)

Module JS.

(** [!!s] for a string: every string but the empty one is truthy. *)
Definition truthy (s : string) : bool := negb (bool_decide (s = "")).

(** [!!x] for an optional string: [undefined] is falsy. *)
Definition truthy_opt (o : option string) : bool :=
  match o with
  | Some s => truthy s
  | None => false
  end.

(** [!!n] for an integer number. *)
Definition truthy_num (n : Z) : bool := negb (n =? 0).

(** [a === b] on strings. *)
Definition str_eq (a b : string) : bool := bool_decide (a = b).

(** [a === b] on optional strings ([undefined === undefined] holds). *)
Definition opt_str_eq (a b : option string) : bool := bool_decide (a = b).

(** [a || b] on optional strings: the first truthy operand, else [b]. *)
Definition or_else (a : option string) (b : string) : string :=
  match a with
  | Some s => if truthy s then s else b
  | None => b
  end.

(** The result of calling into foreign code: it returns or it throws. *)
Inductive Completion (A : Type) : Type :=
| Returned (a : A)
| Thrown.
Arguments Returned {A} a.
Arguments Thrown {A}.

End JS.

(** ** src/types/index.ts *)

Inductive Platform : Set := Discord | Telegram.

Inductive FetchType : Set := Artist | Nft.

#[global] Instance Platform_eq_dec : EqDecision Platform.
Proof. solve_decision. Defined.

#[global] Instance FetchType_eq_dec : EqDecision FetchType.
Proof. solve_decision. Defined.

Record CreatedBy : Set := mkCreatedBy {
  platform : Platform;
  userId : string;
  username : option string
}.

Record DiscordTarget : Set := mkDiscordTarget {
  channelId : string;
  guildId : option string
}.

Record TelegramTarget : Set := mkTelegramTarget {
  chatId : string
}.

Record ScheduleConfig : Set := mkScheduleConfig {
  id : string;
  name : string;
  cronExpression : string;
  enabled : bool;
  fetchType : FetchType;
  createdAt : Z;
  createdBy : option CreatedBy;
  discord : option DiscordTarget;
  telegram : option TelegramTarget
}.

Record ScheduleStore : Set := mkScheduleStore {
  store_schedules : list ScheduleConfig;
  version : Z
}.

#[global] Instance CreatedBy_eq_dec : EqDecision CreatedBy.
Proof. solve_decision. Defined.

#[global] Instance DiscordTarget_eq_dec : EqDecision DiscordTarget.
Proof. solve_decision. Defined.

#[global] Instance TelegramTarget_eq_dec : EqDecision TelegramTarget.
Proof. solve_decision. Defined.

#[global] Instance ScheduleConfig_eq_dec : EqDecision ScheduleConfig.
Proof. solve_decision. Defined.

(** [`${platform}`] *)
Definition platform_string (p : Platform) : string :=
  match p with
  | Discord => "discord"
  | Telegram => "telegram"
  end.

(** [schedule.discord?.channelId] *)
Definition discord_channelId (s : ScheduleConfig) : option string :=
  channelId <$> discord s.

(** [schedule.discord?.guildId] *)
Definition discord_guildId (s : ScheduleConfig) : option string :=
  discord s ≫= guildId.

(** [schedule.telegram?.chatId] *)
Definition telegram_chatId (s : ScheduleConfig) : option string :=
  chatId <$> telegram s.

(** Field assignments [schedule.f = v] as functional updates. *)
Definition set_id (v : string) (s : ScheduleConfig) : ScheduleConfig :=
  mkScheduleConfig v (name s) (cronExpression s) (enabled s) (fetchType s)
    (createdAt s) (createdBy s) (discord s) (telegram s).

Definition set_createdAt (v : Z) (s : ScheduleConfig) : ScheduleConfig :=
  mkScheduleConfig (id s) (name s) (cronExpression s) (enabled s) (fetchType s)
    v (createdBy s) (discord s) (telegram s).

Definition set_createdBy (v : option CreatedBy) (s : ScheduleConfig) : ScheduleConfig :=
  mkScheduleConfig (id s) (name s) (cronExpression s) (enabled s) (fetchType s)
    (createdAt s) v (discord s) (telegram s).

Definition set_discord (v : option DiscordTarget) (s : ScheduleConfig) : ScheduleConfig :=
  mkScheduleConfig (id s) (name s) (cronExpression s) (enabled s) (fetchType s)
    (createdAt s) (createdBy s) v (telegram s).

Definition set_telegram (v : option TelegramTarget) (s : ScheduleConfig) : ScheduleConfig :=
  mkScheduleConfig (id s) (name s) (cronExpression s) (enabled s) (fetchType s)
    (createdAt s) (createdBy s) (discord s) v.

(** ** src/utils/schedule-manager.ts *)

Module ScheduleManager.

(** The object's state: the in-memory list and the document last written
    to [schedules.json] ([None] while nothing has been written).  A write
    that fails is only logged by the source; writes are taken to succeed. *)
Record t : Set := mk {
  schedules : list ScheduleConfig;
  file : option ScheduleStore
}.

Definition new : t := mk [] None.

(** [saveSchedules(schedules?)] *)
Definition saveSchedules (arg : option (list ScheduleConfig)) (m : t) : t :=
  let l := match arg with
           | Some l => l
           | None => schedules m
           end in
  mk l (Some (mkScheduleStore l 1)).

(** [getSchedule(id)]: [Array.prototype.find], the first match. *)
Definition getSchedule (i : string) (m : t) : option ScheduleConfig :=
  snd <$> list_find (λ s, id s = i) (schedules m).

(** The predicate of the filter in [getDiscordChannelSchedules]. *)
Definition discordMatches (channel : string) (guild : option string)
    (schedule : ScheduleConfig) : bool :=
  let channelIdStr := channel in
  let guildIdStr := if JS.truthy_opt guild then guild else None in
  let scheduleChannelId :=
    if JS.truthy_opt (discord_channelId schedule)
    then default "" (discord_channelId schedule) else "" in
  let scheduleGuildId :=
    if JS.truthy_opt (discord_guildId schedule)
    then discord_guildId schedule else None in
  JS.str_eq scheduleChannelId channelIdStr
  && (negb (JS.truthy_opt guildIdStr)
      || JS.opt_str_eq scheduleGuildId guildIdStr
      || negb (JS.truthy_opt scheduleGuildId)).

(** [getDiscordChannelSchedules(channelId, guildId?)] *)
Definition getDiscordChannelSchedules (channel : string) (guild : option string)
    (m : t) : list ScheduleConfig :=
  List.filter (discordMatches channel guild) (schedules m).

(** [getTelegramChatSchedules(chatId)] *)
Definition getTelegramChatSchedules (chat : string) (m : t) : list ScheduleConfig :=
  List.filter (λ s, bool_decide (telegram_chatId s = Some chat)) (schedules m).

(** [addSchedule(schedule)].  [tId] and [tAt] are the two clock reads. *)
Definition addSchedule (tId tAt : Z) (schedule : ScheduleConfig) (m : t)
    : ScheduleConfig * t :=
  let s1 := if JS.truthy (id schedule) then schedule
            else set_id (pretty tId) schedule in
  let s2 := if JS.truthy_num (createdAt s1) then s1
            else set_createdAt tAt s1 in
  (s2, saveSchedules None (mk (schedules m ++ [s2]) (file m))).

(** [updateSchedule(updatedSchedule)]; [None] is the source's [null].
    The source writes the two fields into the payload object and stores
    that object; records are values here, so the stored record is the
    payload with the two fields replaced. *)
Definition updateSchedule (updatedSchedule : ScheduleConfig) (m : t)
    : option ScheduleConfig * t :=
  match list_find (λ s, id s = id updatedSchedule) (schedules m) with
  | None => (None, m)
  | Some (index, existing) =>
      let u := set_createdBy (createdBy existing)
                 (set_createdAt (createdAt existing) updatedSchedule) in
      (Some u, saveSchedules None (mk (<[index := u]> (schedules m)) (file m)))
  end.

(** [deleteSchedule(id)] *)
Definition deleteSchedule (i : string) (m : t) : bool * t :=
  let initialLength := length (schedules m) in
  let kept := List.filter (λ s, negb (JS.str_eq (id s) i)) (schedules m) in
  if negb (Nat.eqb (length kept) initialLength)
  then (true, saveSchedules None (mk kept (file m)))
  else (false, mk kept (file m)).

(** [canUserManageSchedule(scheduleId, platform, userId, isAdmin)] *)
Definition canUserManageSchedule (scheduleId : string) (p : Platform)
    (user : string) (isAdmin : bool) (m : t) : bool :=
  match getSchedule scheduleId m with
  | None => false
  | Some schedule =>
      if isAdmin then true
      else bool_decide (platform <$> createdBy schedule = Some p)
           && bool_decide (userId <$> createdBy schedule = Some user)
  end.

(** [getAllSchedules()] *)
Definition getAllSchedules (m : t) : list ScheduleConfig := schedules m.


(** The argument object of [createUserSchedule]. *)
Record Request : Set := mkRequest {
  req_name : string;
  req_fetchType : FetchType;
  req_cronExpression : string;
  req_platform : Platform;
  req_channelId : option string;
  req_guildId : option string;
  req_chatId : option string;
  req_userId : string;
  req_username : option string
}.

(** The record that [createUserSchedule] builds before it calls
    [addSchedule].  [tId] and [tAt] are the clock reads for the id and for
    [createdAt]; [rnd] is [Math.floor(Math.random() * 1000)]. *)
Definition newSchedule (tId rnd tAt : Z) (r : Request) : ScheduleConfig :=
  let base :=
    mkScheduleConfig
      (platform_string (req_platform r) +:+ "-" +:+ pretty tId +:+ "-" +:+ pretty rnd)
      (req_name r) (req_cronExpression r) true (req_fetchType r) tAt
      (Some (mkCreatedBy (req_platform r) (req_userId r) (req_username r)))
      None None in
  if bool_decide (req_platform r = Discord) && JS.truthy_opt (req_channelId r)
  then set_discord
         (Some (mkDiscordTarget (default "" (req_channelId r)) (req_guildId r))) base
  else if bool_decide (req_platform r = Telegram) && JS.truthy_opt (req_chatId r)
  then set_telegram (Some (mkTelegramTarget (default "" (req_chatId r)))) base
  else base.

(** [createUserSchedule({...})].  [tAdd1] and [tAdd2] are the clock reads
    that [addSchedule] makes when it finds the id or [createdAt] falsy. *)
Definition createUserSchedule (tId rnd tAt tAdd1 tAdd2 : Z) (r : Request) (m : t)
    : ScheduleConfig * t :=
  addSchedule tAdd1 tAdd2 (newSchedule tId rnd tAt r) m.

End ScheduleManager.

(** ** node-cron

    The timer library is a dependency of the repository, not part of it.
    What the repository uses of it is taken from the library's interface:
    [validate(expression): boolean], [schedule(expression, func)], which
    returns a started task and throws on an expression that does not
    validate, and [task.stop()].  Which expressions validate is left open:
    it is the parameter [pattern_ok]. *)

Class NodeCronLib : Type := pattern_ok : string → bool.

Module NodeCron.

(** A task created by [schedule]: its expression, the schedule its
    callback closes over, and whether it is started. *)
Record ScheduledTask : Set := mkTask {
  expression : string;
  job : ScheduleConfig;
  running : bool
}.

(** All tasks ever created; a task object is its index. *)
Abbreviation Tasks := (list ScheduledTask).

Section Lib.
Context `{NodeCronLib}.

Definition validate (e : string) : JS.Completion bool :=
  JS.Returned (pattern_ok e).

Definition schedule (e : string) (s : ScheduleConfig) (ts : Tasks)
    : JS.Completion (nat * Tasks) :=
  if pattern_ok e
  then JS.Returned (length ts, (ts ++ [mkTask e s true])%list)
  else JS.Thrown.
End Lib.

Definition stopped (t : ScheduledTask) : ScheduledTask :=
  mkTask (expression t) (job t) false.

(** [task.stop()] *)
Definition stop (h : nat) (ts : Tasks) : Tasks := alter stopped h ts.

End NodeCron.

(** ** src/services/scheduler.ts *)

Module SchedulerService.

(** A registered sender is a reference to a platform adapter. *)
Definition MessageSender : Set := nat.

(** The object's state.  [timers] is the state of the timer library:
    the tasks that [scheduledTasks] refers to, and any other. *)
Record t : Set := mk {
  scheduledTasks : gmap string nat;
  discordSender : option MessageSender;
  telegramSender : option MessageSender;
  timers : NodeCron.Tasks
}.

Definition new : t := mk ∅ None None [].

(** [setDiscordSender(sender)] *)
Definition setDiscordSender (sender : MessageSender) (e : t) : t :=
  mk (scheduledTasks e) (Some sender) (telegramSender e) (timers e).

(** [setTelegramSender(sender)] *)
Definition setTelegramSender (sender : MessageSender) (e : t) : t :=
  mk (scheduledTasks e) (discordSender e) (Some sender) (timers e).

(** The test that guards the "no valid targets" return of [addSchedule]. *)
Definition noTargets (schedule : ScheduleConfig) : bool :=
  (negb (JS.truthy_opt (discord_channelId schedule))
   || JS.opt_str_eq (discord_channelId schedule) (Some ""))
  && (negb (JS.truthy_opt (telegram_chatId schedule))
      || JS.opt_str_eq (telegram_chatId schedule) (Some "")).

Section Engine.
Context `{NodeCronLib}.

(** [addSchedule(schedule)] *)
Definition addSchedule (schedule : ScheduleConfig) (e : t) : t :=
  if bool_decide (is_Some (scheduledTasks e !! id schedule)) then e
  else if negb (bool_decide (is_Some (discordSender e)))
          && negb (bool_decide (is_Some (telegramSender e))) then e
  else if noTargets schedule then e
  else
    match NodeCron.schedule (cronExpression schedule) schedule (timers e) with
    | JS.Returned (task, ts) =>
        mk (<[id schedule := task]> (scheduledTasks e))
           (discordSender e) (telegramSender e) ts
    | JS.Thrown => e
    end.

(** [addScheduledTasks(schedules)] *)
Definition addScheduledTasks (l : list ScheduleConfig) (e : t) : t :=
  let enabledSchedules := List.filter enabled l in
  foldl (λ e schedule, addSchedule schedule e) e enabledSchedules.

(** [removeSchedule(scheduleId)] *)
Definition removeSchedule (scheduleId : string) (e : t) : bool * t :=
  match scheduledTasks e !! scheduleId with
  | Some task =>
      (true, mk (delete scheduleId (scheduledTasks e))
                (discordSender e) (telegramSender e)
                (NodeCron.stop task (timers e)))
  | None => (false, e)
  end.

(** [updateSchedule(schedule)] *)
Definition updateSchedule (schedule : ScheduleConfig) (e : t) : t :=
  let e1 := snd (removeSchedule (id schedule) e) in
  if enabled schedule then addSchedule schedule e1 else e1.

(** [stopAllTasks()] *)
Definition stopAllTasks (e : t) : t :=
  mk ∅ (discordSender e) (telegramSender e)
     (foldr (λ entry ts, NodeCron.stop entry.2 ts) (timers e)
            (map_to_list (scheduledTasks e))).

(** The public operations, as values, and a run of them. *)
Inductive Op : Set :=
| SetDiscordSender (sender : MessageSender)
| SetTelegramSender (sender : MessageSender)
| AddScheduledTasks (l : list ScheduleConfig)
| AddSchedule (schedule : ScheduleConfig)
| UpdateSchedule (schedule : ScheduleConfig)
| RemoveSchedule (scheduleId : string)
| StopAllTasks.

Definition exec (o : Op) (e : t) : t :=
  match o with
  | SetDiscordSender s => setDiscordSender s e
  | SetTelegramSender s => setTelegramSender s e
  | AddScheduledTasks l => addScheduledTasks l e
  | AddSchedule s => addSchedule s e
  | UpdateSchedule s => updateSchedule s e
  | RemoveSchedule i => snd (removeSchedule i e)
  | StopAllTasks => stopAllTasks e
  end.

Definition run (ops : list Op) (e : t) : t :=
  foldl (λ e o, exec o e) e ops.

End Engine.

(** The handles of the started tasks whose callback serves schedule [i]. *)
Definition isLive (i : string) (ts : NodeCron.Tasks) (h : nat) : bool :=
  match ts !! h with
  | Some task => NodeCron.running task && JS.str_eq (id (NodeCron.job task)) i
  | None => false
  end.

Definition liveTimers (i : string) (e : t) : list nat :=
  List.filter (isLive i (timers e)) (seq 0 (length (timers e))).

(** The started tasks, whatever schedule they serve. *)
Definition startedTasks (e : t) : list NodeCron.ScheduledTask :=
  List.filter NodeCron.running (timers e).

End SchedulerService.

(** ** The commands

    The clock and random reads of one create command, in the order
    [createUserSchedule] and [addSchedule] make them. *)
Record Reads : Set := mkReads {
  now_id : Z;
  random_suffix : Z;
  now_createdAt : Z;
  now_add_id : Z;
  now_add_createdAt : Z
}.

(** ** src/telegram/commands/schedule.ts *)

Module TelegramCommands.

(** *** Characters and the regular expressions of the command *)

Definition code (c : ascii) : N := N_of_ascii c.

(** The class [\s], on 8-bit code units. *)
Definition isSpace (c : ascii) : bool :=
  ((9 <=? code c) && (code c <=? 13) || (code c =? 32) || (code c =? 160))%N.

(** The class [\d]. *)
Definition isDigit (c : ascii) : bool :=
  ((48 <=? code c) && (code c <=? 57))%N.

Definition quote : ascii := ascii_of_N 34.

Definition isQuote (c : ascii) : bool := (code c =? 34)%N.

(** [String.prototype.toLowerCase], on 8-bit code units. *)
Definition lowerChar (c : ascii) : ascii :=
  if ((65 <=? code c) && (code c <=? 90)
      || (192 <=? code c) && (code c <=? 222) && negb (code c =? 215))%N
  then ascii_of_N (code c + 32)
  else c.

Fixpoint toLowerCase (s : string) : string :=
  match s with
  | EmptyString => EmptyString
  | String c r => String (lowerChar c) (toLowerCase r)
  end.

(** The longest prefix of [s] in the class [p], and what follows it: how a
    greedy [p+] or [p*] reads when the next item cannot start in [p]. *)
Fixpoint span (p : ascii → bool) (s : string) : string * string :=
  match s with
  | EmptyString => (EmptyString, EmptyString)
  | String c r =>
      if p c then let '(a, b) := span p r in (String c a, b)
      else (EmptyString, s)
  end.

(** The first alternative of the argument pattern, after its opening
    quote: one or more characters that are no quote, then a quote. *)
Definition matchQuoted (s : string) : option (string * string) :=
  let '(tok, rest) := span (λ c, negb (isQuote c)) s in
  match rest with
  | String c rest' =>
      if isQuote c && JS.truthy tok then Some (tok, rest') else None
  | EmptyString => None
  end.

(** The second alternative: one or more characters that are no space. *)
Definition matchWord (s : string) : option (string * string) :=
  let '(tok, rest) := span (λ c, negb (isSpace c)) s in
  if JS.truthy tok then Some (tok, rest) else None.

(** The loop of [parseCommandArguments]: at each position the quoted
    alternative is tried first, then the word; where neither matches the
    search moves on by one character.  [fuel] bounds the iterations. *)
Fixpoint tokens (fuel : nat) (s : string) : list string :=
  match fuel with
  | O => []
  | S fuel' =>
      match s with
      | EmptyString => []
      | String c r =>
          let word :=
            match matchWord s with
            | Some (tok, rest) => tok :: tokens fuel' rest
            | None => tokens fuel' r
            end in
          if isQuote c then
            match matchQuoted r with
            | Some (tok, rest) => tok :: tokens fuel' rest
            | None => word
            end
          else word
      end
  end.

(** [parseCommandArguments(text)] *)
Definition parseCommandArguments (text : string) : list string :=
  tokens (String.length text) text.

(** [s.startsWith(p)], returning the remainder. *)
Fixpoint stripPrefix (p s : string) : option string :=
  match p, s with
  | EmptyString, _ => Some s
  | String a p', String b s' => if bool_decide (a = b) then stripPrefix p' s' else None
  | String _ _, EmptyString => None
  end.

(** The patterns [^every\s+(\d+)\s+minutes?$] and [^every\s+(\d+)\s+hours?$]:
    [unit] is the word without its optional final s; the result is the
    group of digits. *)
Definition matchEvery (unit : string) (s : string) : option string :=
  match stripPrefix "every" s with
  | None => None
  | Some r0 =>
      let '(ws1, r1) := span isSpace r0 in
      let '(digits, r2) := span isDigit r1 in
      let '(ws2, r3) := span isSpace r2 in
      if JS.truthy ws1 && JS.truthy digits && JS.truthy ws2
         && (JS.str_eq r3 unit || JS.str_eq r3 (unit +:+ "s"))
      then Some digits else None
  end.

(** [parseInt(digits, 10)] on a string of decimal digits. *)
Definition parseInt (digits : string) : Z :=
  fold_left (λ acc c, 10 * acc + (Z.of_N (code c) - 48))
            (String.list_ascii_of_string digits) 0.

(** The mapping of friendly names and phrases to cron expressions. *)
Definition resolveFrequency (cronExpression : string) : string :=
  let freqLower := toLowerCase cronExpression in
  if JS.str_eq freqLower "hourly" || JS.str_eq freqLower "every hour"
  then "0 * * * *"
  else if JS.str_eq freqLower "daily" || JS.str_eq freqLower "every day"
  then "0 12 * * *"
  else if JS.str_eq freqLower "weekly" || JS.str_eq freqLower "every week"
  then "0 12 * * 1"
  else
    match matchEvery "minute" freqLower with
    | Some d =>
        let minutes := parseInt d in
        if (1 <=? minutes) && (minutes <=? 59)
        then "*/" +:+ pretty minutes +:+ " * * * *"
        else cronExpression
    | None =>
        match matchEvery "hour" freqLower with
        | Some d =>
            let hours := parseInt d in
            if (1 <=? hours) && (hours <=? 23)
            then "0 */" +:+ pretty hours +:+ " * * *"
            else cronExpression
        | None => cronExpression
        end
    end.

(** The display form of the well-known expressions. *)
Definition cronDescription (cronExpression : string) : string :=
  if JS.str_eq cronExpression "0 * * * *" then "Every hour"
  else if JS.str_eq cronExpression "0 */6 * * *" then "Every 6 hours"
  else if JS.str_eq cronExpression "0 */12 * * *" then "Every 12 hours"
  else if JS.str_eq cronExpression "0 0 * * *" then "Daily at midnight"
  else if JS.str_eq cronExpression "0 12 * * *" then "Daily at noon"
  else if JS.str_eq cronExpression "0 12 * * 1" then "Weekly on Monday at noon"
  else cronExpression.

(** *** The update a command receives *)

Record User : Set := mkUser {
  user_id : Z;
  user_username : option string;
  first_name : string
}.

Inductive ChatType : Set := Private | Group | Supergroup | Channel.

Record Chat : Set := mkChat {
  chat_id : Z;
  chat_type : ChatType
}.

Record Context : Set := mkContext {
  message_text : option string;
  chat : option Chat;
  from : option User
}.

(** What the command answers; the texts are constants of the source. *)
Inductive Reply : Set :=
| Usage
| InvalidType
| InvalidScheduleFormat
| NoChatId
| NoUserId
| Created (schedule : ScheduleConfig) (description : string)
| CreateError.

(** The [try { validate(...) } catch { isValidCron = false }] block:
    the flag is cleared by an exception, and by nothing else. *)
Definition isValidCron (validation : JS.Completion bool) : bool :=
  match validation with
  | JS.Returned _ => true
  | JS.Thrown => false
  end.

Section Commands.
Context `{NodeCronLib}.

(** [handleCreateSchedule(ctx, schedulerService)] *)
Definition handleCreateSchedule (rd : Reads) (ctx : Context)
    (st : ScheduleManager.t * SchedulerService.t)
    : Reply * (ScheduleManager.t * SchedulerService.t) :=
  let message := default "" (message_text ctx) in
  let args := tail (parseCommandArguments message) in
  match args with
  | [] => (Usage, st)
  | arg0 :: _ =>
      let type := toLowerCase arg0 in
      if negb (JS.str_eq type "artist") && negb (JS.str_eq type "nft")
      then (InvalidType, st)
      else
        let cronExpression := default "daily" (args !! 1%nat) in
        let name :=
          default (if JS.str_eq type "artist" then "Random Artist" else "Random NFT")
                  (args !! 2%nat) in
        let cronExpression := resolveFrequency cronExpression in
        if negb (isValidCron (NodeCron.validate cronExpression))
        then (InvalidScheduleFormat, st)
        else
          let chatId := (λ c, pretty (chat_id c)) <$> chat ctx in
          if negb (JS.truthy_opt chatId) then (NoChatId, st)
          else
            let userId := (λ u, pretty (user_id u)) <$> from ctx in
            let username :=
              JS.or_else (from ctx ≫= user_username)
                (JS.or_else (first_name <$> from ctx) "Anonymous") in
            if negb (JS.truthy_opt userId) then (NoUserId, st)
            else
              let '(schedule, m) :=
                ScheduleManager.createUserSchedule
                  (now_id rd) (random_suffix rd) (now_createdAt rd)
                  (now_add_id rd) (now_add_createdAt rd)
                  (ScheduleManager.mkRequest name
                     (if JS.str_eq type "artist" then Artist else Nft)
                     cronExpression Telegram None None chatId
                     (default "" userId) (Some username))
                  st.1 in
              let e := SchedulerService.addSchedule schedule st.2 in
              (Created schedule (cronDescription cronExpression), (m, e))
  end.

End Commands.

End TelegramCommands.

(** ** The create subcommand of the Discord [/schedule] command
    (src/unnamed/part_001) *)

Module DiscordCommands.

(** The options of [/schedule create]; [type] is required and one of the
    two choices. *)
Record Options : Set := mkOptions {
  opt_type : FetchType;
  opt_frequency : option string;
  opt_cron : option string;
  opt_name : option string
}.

Record TextChannel : Set := mkTextChannel {
  channel_id : string;
  channel_guildId : string;
  channel_name : string
}.

Record User : Set := mkUser {
  user_id : string;
  user_username : string
}.

Record Interaction : Set := mkInteraction {
  options : Options;
  user : User
}.

(** [prettyPrintCron(cron)] *)
Definition prettyPrintCron (cron : string) : string :=
  if JS.str_eq cron "0 * * * *" then "Every hour"
  else if JS.str_eq cron "0 */6 * * *" then "Every 6 hours"
  else if JS.str_eq cron "0 */12 * * *" then "Every 12 hours"
  else if JS.str_eq cron "0 0 * * *" then "Daily at midnight"
  else if JS.str_eq cron "0 12 * * *" then "Daily at noon"
  else if JS.str_eq cron "0 12 * * 1" then "Weekly on Monday at noon"
  else "Custom schedule (" +:+ cron +:+ ")".

(** What the subcommand answers. *)
Inductive Reply : Set :=
| InvalidCron
| Created (schedule : ScheduleConfig) (frequency : string)
| CreateError.

(** The same [try]/[catch] block as in the Telegram command. *)
Definition isValidCron (validation : JS.Completion bool) : bool :=
  match validation with
  | JS.Returned _ => true
  | JS.Thrown => false
  end.

Section Commands.
Context `{NodeCronLib}.

(** [handleCreateSchedule(interaction, channel, schedulerService)] *)
Definition handleCreateSchedule (rd : Reads) (interaction : Interaction)
    (channel : TextChannel) (st : ScheduleManager.t * SchedulerService.t)
    : Reply * (ScheduleManager.t * SchedulerService.t) :=
  let fetchType := opt_type (options interaction) in
  let presetFrequency := opt_frequency (options interaction) in
  let customCron := opt_cron (options interaction) in
  let customName := opt_name (options interaction) in
  let cronExpression :=
    JS.or_else customCron (JS.or_else presetFrequency "0 12 * * *") in
  if negb (isValidCron (NodeCron.validate cronExpression))
  then (InvalidCron, st)
  else
    let defaultName :=
      match fetchType with
      | Artist => "Random Artist"
      | Nft => "Random NFT"
      end in
    let name :=
      JS.or_else customName
        (defaultName +:+ " (" +:+ channel_name channel +:+ ")") in
    let '(schedule, m) :=
      ScheduleManager.createUserSchedule
        (now_id rd) (random_suffix rd) (now_createdAt rd)
        (now_add_id rd) (now_add_createdAt rd)
        (ScheduleManager.mkRequest name fetchType cronExpression Discord
           (Some (channel_id channel)) (Some (channel_guildId channel)) None
           (user_id (user interaction))
           (Some (user_username (user interaction))))
        st.1 in
    let e := SchedulerService.addSchedule schedule st.2 in
    (Created schedule (prettyPrintCron cronExpression), (m, e)).

End Commands.

End DiscordCommands.

(** ** src/utils/schedule-manager.ts: reading the file *)

Module ScheduleManagerIO.
Import ScheduleManager.

(** What [loadSchedules] finds at the path: no file, a text that
    [JSON.parse] refuses, or a parsed document with or without a
    [schedules] member.  What [JSON.stringify] wrote, [JSON.parse]
    returns. *)
Inductive FileContent : Set :=
| Missing
| Unparsable
| Parsed (doc_schedules : option (list ScheduleConfig)).

(** The file a manager leaves behind, when there was none before it. *)
Definition onDisk (m : ScheduleManager.t) : FileContent :=
  match file m with
  | None => Missing
  | Some doc => Parsed (Some (store_schedules doc))
  end.

(** [loadSchedules()], with the content of the file as an input.  On a
    missing file it first writes the empty store, then reads it back. *)
Definition loadSchedules (disk : FileContent) (m : ScheduleManager.t)
    : list ScheduleConfig * ScheduleManager.t :=
  match disk with
  | Missing =>
      let m1 := saveSchedules (Some []) m in
      let l := default [] (store_schedules <$> file m1) in
      (l, mk l (file m1))
  | Unparsable => ([], mk [] (file m))
  | Parsed o =>
      let l := default [] o in
      (l, mk l (file m))
  end.

End ScheduleManagerIO.

(** ** src/telegram/commands/schedule.ts: delete, pause and resume *)

Module TelegramManage.
Import TelegramCommands.

(** The assignment [schedule.enabled = v]. *)
Definition set_enabled (v : bool) (s : ScheduleConfig) : ScheduleConfig :=
  mkScheduleConfig (id s) (name s) (cronExpression s) v (fetchType s)
    (createdAt s) (createdBy s) (discord s) (telegram s).

(** What the three commands answer; the texts are constants of the
    source, up to the name of the schedule. *)
Inductive Reply : Set :=
| SpecifyId
| UnknownChat
| NotFound
| UnknownUser
| Denied
| AlreadyPaused (name : string)
| AlreadyActive (name : string)
| Deleted (name : string)
| Paused (name : string)
| Resumed (name : string)
| Failed.

(** [ctx.chat?.type === "private" || false] *)
Definition isAdmin (ctx : Context) : bool :=
  match chat ctx with
  | Some c =>
      match chat_type c with
      | Private => true
      | _ => false
      end
  | None => false
  end.

(** The opening the three handlers share, line for line: the id argument,
    the chat, the lookup restricted to this chat, the user and the
    permission.  It answers a rejection or the id and the record. *)
Definition authorize (ctx : Context) (m : ScheduleManager.t)
    : Reply + (string * ScheduleConfig) :=
  let message := default "" (message_text ctx) in
  let args := tail (parseCommandArguments message) in
  match args with
  | [] => inl SpecifyId
  | scheduleId :: _ =>
      let chatId := (λ c, pretty (chat_id c)) <$> chat ctx in
      if negb (JS.truthy_opt chatId) then inl UnknownChat
      else
        match ScheduleManager.getSchedule scheduleId m with
        | None => inl NotFound
        | Some schedule =>
            if negb (bool_decide (telegram_chatId schedule = chatId))
            then inl NotFound
            else
              let userId := (λ u, pretty (user_id u)) <$> from ctx in
              if negb (JS.truthy_opt userId) then inl UnknownUser
              else
                let canManage :=
                  ScheduleManager.canUserManageSchedule scheduleId Telegram
                    (default "" userId) (isAdmin ctx) m in
                if negb canManage then inl Denied
                else inr (scheduleId, schedule)
        end
  end.

Section Commands.
Context `{NodeCronLib}.

(** [handleDeleteSchedule(ctx, schedulerService)] *)
Definition handleDeleteSchedule (ctx : Context)
    (st : ScheduleManager.t * SchedulerService.t)
    : Reply * (ScheduleManager.t * SchedulerService.t) :=
  match authorize ctx st.1 with
  | inl r => (r, st)
  | inr (scheduleId, schedule) =>
      let e := (SchedulerService.removeSchedule scheduleId st.2).2 in
      let m := (ScheduleManager.deleteSchedule scheduleId st.1).2 in
      (Deleted (name schedule), (m, e))
  end.

(** [handlePauseSchedule(ctx, schedulerService)] *)
Definition handlePauseSchedule (ctx : Context)
    (st : ScheduleManager.t * SchedulerService.t)
    : Reply * (ScheduleManager.t * SchedulerService.t) :=
  match authorize ctx st.1 with
  | inl r => (r, st)
  | inr (scheduleId, schedule) =>
      if negb (enabled schedule) then (AlreadyPaused (name schedule), st)
      else
        let schedule := set_enabled false schedule in
        let m := (ScheduleManager.updateSchedule schedule st.1).2 in
        let e := (SchedulerService.removeSchedule scheduleId st.2).2 in
        (Paused (name schedule), (m, e))
  end.

(** [handleResumeSchedule(ctx, schedulerService)] *)
Definition handleResumeSchedule (ctx : Context)
    (st : ScheduleManager.t * SchedulerService.t)
    : Reply * (ScheduleManager.t * SchedulerService.t) :=
  match authorize ctx st.1 with
  | inl r => (r, st)
  | inr (scheduleId, schedule) =>
      if enabled schedule then (AlreadyActive (name schedule), st)
      else
        let schedule := set_enabled true schedule in
        let m := (ScheduleManager.updateSchedule schedule st.1).2 in
        let e := SchedulerService.addSchedule schedule st.2 in
        (Resumed (name schedule), (m, e))
  end.

(** The commands of a chat, as values, and a run of them. *)
Inductive Command : Set :=
| Create (rd : Reads) (ctx : Context)
| Delete (ctx : Context)
| Pause (ctx : Context)
| Resume (ctx : Context).

Definition exec (c : Command) (st : ScheduleManager.t * SchedulerService.t)
    : ScheduleManager.t * SchedulerService.t :=
  match c with
  | Create rd ctx => (handleCreateSchedule rd ctx st).2
  | Delete ctx => (handleDeleteSchedule ctx st).2
  | Pause ctx => (handlePauseSchedule ctx st).2
  | Resume ctx => (handleResumeSchedule ctx st).2
  end.

End Commands.

End TelegramManage.

(** ** The content provider (src/unnamed/part_000) *)

Module ApiService.

(** [ipfsToHttp(uri)]; [None] is [null] on the way in and [undefined] on
    the way out. *)
Definition ipfsToHttp (uri : option string) : option string :=
  match uri with
  | None => None
  | Some u =>
      if negb (JS.truthy u) then None
      else
        match TelegramCommands.stripPrefix "ipfs://" u with
        | Some rest => Some ("https://ipfs.io/ipfs/" +:+ rest)
        | None => Some u
        end
  end.

(** The members of [ArtistData] and [NFTListing] that a firing reads. *)
Record ArtistData : Set := mkArtistData {
  artist_name : string;
  bio : option string;
  artist_imageUrl : option string;
  profileLink : option string
}.

Record NFTListing : Set := mkNFTListing {
  nft_name : string;
  description : option string;
  price : option string;
  nft_imageUrl : option string;
  referralLink : option string
}.

End ApiService.

(** ** src/services/scheduler.ts: the callback of a timer *)

Module Firing.
Import ApiService.

(** The line feed. *)
Definition nl : string := String (ascii_of_N 10) "".

(** [s.substring(0, 200)] *)
Definition substring200 (s : string) : string := String.substring 0 200 s.

(** [if (v) message += f(v)]: the text added for a member, nothing when
    the member is absent or empty. *)
Definition whenTruthy (v : option string) (f : string → string) : string :=
  match v with
  | Some s => if JS.truthy s then f s else ""
  | None => ""
  end.

(** The text for an artist; the pictograph is written in UTF-8. *)
Definition artistMessage (data : ArtistData) : string :=
  "🎨 Random Artist: " +:+ artist_name data +:+ nl
  +:+ whenTruthy (bio data) (λ b, "Bio: " +:+ substring200 b +:+ "..." +:+ nl)
  +:+ whenTruthy (artist_imageUrl data) (λ u, "Image: " +:+ u +:+ nl)
  +:+ whenTruthy (profileLink data) (λ l, nl +:+ "View on REJKT: " +:+ l).

(** The text for a listing. *)
Definition nftMessage (data : NFTListing) : string :=
  "🖼️ Random NFT: " +:+ nft_name data +:+ nl
  +:+ whenTruthy (description data)
        (λ d, "Description: " +:+ substring200 d +:+ "..." +:+ nl)
  +:+ whenTruthy (price data) (λ p, "Price: " +:+ p +:+ nl)
  +:+ whenTruthy (nft_imageUrl data) (λ u, "Image: " +:+ u +:+ nl)
  +:+ whenTruthy (referralLink data) (λ l, nl +:+ "View on Objkt: " +:+ l).

(** A call of a sender's [sendMessage]. *)
Record Delivery : Set := mkDelivery {
  via : Platform;
  destination : string;
  content : string
}.

(** The message of a firing: [None] when the provider has no data for
    the schedule's kind.  [artist] and [nft] are what [getRandomArtist]
    and [getRandomNFT] answer at this firing. *)
Definition message (schedule : ScheduleConfig)
    (artist : option ArtistData) (nft : option NFTListing) : option string :=
  match fetchType schedule with
  | Artist => artistMessage <$> artist
  | Nft => nftMessage <$> nft
  end.

(** The callback that [addSchedule] hands to the timer library: the
    calls of [sendMessage] it makes, in order, when none of them
    throws.  The senders are read when the timer fires. *)
Definition fire (schedule : ScheduleConfig)
    (artist : option ArtistData) (nft : option NFTListing)
    (e : SchedulerService.t) : list Delivery :=
  match message schedule artist nft with
  | None => []
  | Some msg =>
      (if JS.truthy_opt (discord_channelId schedule)
          && bool_decide (is_Some (SchedulerService.discordSender e))
       then [mkDelivery Discord (default "" (discord_channelId schedule)) msg]
       else [])
      ++ (if JS.truthy_opt (telegram_chatId schedule)
             && bool_decide (is_Some (SchedulerService.telegramSender e))
          then [mkDelivery Telegram (default "" (telegram_chatId schedule)) msg]
          else [])
  end.

End Firing.

(** ** src/index.ts: the start of the program *)

Module Main.

Section WithLib.
Context `{NodeCronLib}.


End WithLib.

End Main.

(** * Vocabulary of the properties *)

(** ** The store *)

Module StoreProps.
Import ScheduleManager.

(** The ids of the stored records, in order. *)
Definition ids (m : ScheduleManager.t) : list string := id <$> schedules m.

(** [r] carries the creation stamp of [existing] and everything else
    from [payload]. *)
Definition overwritten (payload existing r : ScheduleConfig) : Prop :=
  createdAt r = createdAt existing
  ∧ createdBy r = createdBy existing
  ∧ id r = id payload
  ∧ name r = name payload
  ∧ cronExpression r = cronExpression payload
  ∧ enabled r = enabled payload
  ∧ fetchType r = fetchType payload
  ∧ discord r = discord payload
  ∧ telegram r = telegram payload.

(** The caller is the creator recorded in [s]. *)
Definition isCreator (p : Platform) (user : string) (s : ScheduleConfig) : Prop :=
  ∃ c, createdBy s = Some c ∧ platform c = p ∧ userId c = user.

(** The mutating operations, as values, and a run of them. *)
Inductive Op : Set :=
| AddSchedule (tId tAt : Z) (schedule : ScheduleConfig)
| CreateUserSchedule (tId rnd tAt tAdd1 tAdd2 : Z) (r : Request)
| UpdateSchedule (updatedSchedule : ScheduleConfig)
| DeleteSchedule (i : string).

Definition exec (o : Op) (m : ScheduleManager.t) : ScheduleManager.t :=
  match o with
  | AddSchedule tId tAt s => (addSchedule tId tAt s m).2
  | CreateUserSchedule tId rnd tAt tAdd1 tAdd2 r =>
      (createUserSchedule tId rnd tAt tAdd1 tAdd2 r m).2
  | UpdateSchedule u => (updateSchedule u m).2
  | DeleteSchedule i => (deleteSchedule i m).2
  end.

Definition run (ops : list Op) (m : ScheduleManager.t) : ScheduleManager.t :=
  foldl (λ m o, exec o m) m ops.

(** A record with the given id and creator, for the examples. *)
Definition sample (i : string) (by_ : option CreatedBy) : ScheduleConfig :=
  mkScheduleConfig i "Daily Artist" "0 12 * * *" true Artist 1700000000000
    by_ None (Some (mkTelegramTarget "123")).

(** The creator of the examples, and a store that holds one record of
    theirs under the id [a]. *)
Definition ann : CreatedBy := mkCreatedBy Telegram "77" (Some "ann").

Definition oneRecord : ScheduleManager.t :=
  run [AddSchedule 1 2 (sample "a" (Some ann))] ScheduleManager.new.

(** A store that holds one record without [createdBy]. *)
Definition orphanRecord : ScheduleManager.t :=
  run [AddSchedule 1 2 (sample "a" None)] ScheduleManager.new.

(** An update payload for the id [a] that carries a creation stamp of
    its own. *)
Definition renamed : ScheduleConfig :=
  mkScheduleConfig "a" "Renamed" "0 * * * *" false Nft 5
    (Some (mkCreatedBy Discord "1" None))
    (Some (mkDiscordTarget "9" None)) None.

End StoreProps.

(** ** The engine *)

Module EngineProps.
Import SchedulerService.

(** The timer map and the started tasks agree: every entry of the map
    refers to a started task that serves the entry's id, and every
    started task is the one the map holds for the id it serves. *)
Definition consistent (e : SchedulerService.t) : Prop :=
  (∀ i h, scheduledTasks e !! i = Some h →
     ∃ task, timers e !! h = Some task
             ∧ NodeCron.running task = true
             ∧ id (NodeCron.job task) = i)
  ∧ (∀ h task, timers e !! h = Some task → NodeCron.running task = true →
       scheduledTasks e !! id (NodeCron.job task) = Some h).

(** The schedule has no usable destination, in the words of the
    specification: the channel id is empty or absent and the chat id is
    empty or absent. *)
Definition noDestination (s : ScheduleConfig) : Prop :=
  (discord_channelId s = None ∨ discord_channelId s = Some "")
  ∧ (telegram_chatId s = None ∨ telegram_chatId s = Some "").

(** No schedule with [enabled = false] has a timer in the map. *)
Definition noDisabledTimer (e : SchedulerService.t) : Prop :=
  ∀ i h task, scheduledTasks e !! i = Some h → timers e !! h = Some task →
    enabled (NodeCron.job task) = true.

(** Every task the timer library holds was created for an enabled
    schedule. *)
Definition createdEnabled (e : SchedulerService.t) : Prop :=
  Forall (λ task, enabled (NodeCron.job task) = true) (timers e).

Section WithLib.
Context `{NodeCronLib}.

(** [addSchedule] would create a timer for [s], were its id free: a
    sender is registered, the schedule has a destination and the timer
    library takes its expression. *)
Definition accepts (s : ScheduleConfig) (e : SchedulerService.t) : bool :=
  (bool_decide (is_Some (discordSender e))
   || bool_decide (is_Some (telegramSender e)))
  && negb (noTargets s)
  && pattern_ok (cronExpression s).

(** The update of the specification: the removal, followed by the
    addition only if the schedule is enabled. *)
Definition updateSchedule_spec (s : ScheduleConfig) (e : SchedulerService.t)
    : SchedulerService.t :=
  if enabled s
  then addSchedule s (removeSchedule (id s) e).2
  else (removeSchedule (id s) e).2.

(** The direct calls of [addSchedule] in a run pass enabled schedules. *)
Definition addsEnabled (o : Op) : Prop :=
  match o with
  | AddSchedule s => enabled s = true
  | _ => True
  end.
End WithLib.

(** A timer library that takes the expressions the commands generate for
    their presets, and no other; for the examples. *)
Definition presetPatterns : NodeCronLib :=
  λ e, bool_decide (e ∈ ["0 * * * *"; "0 12 * * *"; "0 12 * * 1";
                         "0 */6 * * *"; "0 */12 * * *"; "0 0 * * *"]).

(** A Telegram schedule, for the examples. *)
Definition hourly (i : string) (on : bool) : ScheduleConfig :=
  mkScheduleConfig i "Hourly NFT" "0 * * * *" on Nft 1700000000000
    (Some (mkCreatedBy Telegram "77" (Some "ann")))
    None (Some (mkTelegramTarget "123")).

(** A schedule without any destination block. *)
Definition inert : ScheduleConfig :=
  mkScheduleConfig "z" "Nowhere" "0 * * * *" true Nft 1700000000000
    None None None.

(** An engine with the Telegram sender registered, for the examples. *)
Definition ready : SchedulerService.t :=
  setTelegramSender 1%nat SchedulerService.new.

End EngineProps.

(** ** The create command *)

Module CommandProps.
Import ScheduleManager TelegramCommands.

(** The destination a request carries for its platform. *)
Definition destinationField (r : Request) : option string :=
  match req_platform r with
  | Discord => req_channelId r
  | Telegram => req_chatId r
  end.

(** The answers that reject the command. *)
Definition rejects (r : Reply) : Prop :=
  r = Usage ∨ r = InvalidType ∨ r = InvalidScheduleFormat
  ∨ r = NoChatId ∨ r = NoUserId ∨ r = CreateError.

(** The example of the command's own help text, up to the name:
    the second argument is the word after the type. *)
Definition every15 : Context :=
  mkContext (Some "/schedule_create nft every 15 minutes")
    (Some (mkChat 123 Group)) (Some (mkUser 77 None "Ann")).

Definition reads0 : Reads :=
  mkReads 1700000000000 123 1700000000001 1700000000002 1700000000003.

(** The record the command stores for [every15] under [reads0]. *)
Definition storedEvery : ScheduleConfig :=
  mkScheduleConfig "telegram-1700000000000-123" "15" "every" true Nft
    1700000000001 (Some (mkCreatedBy Telegram "77" (Some "Ann")))
    None (Some (mkTelegramTarget "123")).

(** An update without a chat. *)
Definition noChat : Context :=
  mkContext (Some "/schedule_create nft hourly") None
    (Some (mkUser 77 None "Ann")).

(** A request for the discord platform that carries no channel. *)
Definition noChannel : Request :=
  mkRequest "X" Nft "0 * * * *" Discord None None None "u1" None.

End CommandProps.

(** ** Vocabulary of the further properties *)

Module MoreProps.
Import ScheduleManager.

(** The file, when one was written, holds the list in memory; while none
    was written the list is empty. *)
Definition fileInSync (m : ScheduleManager.t) : Prop :=
  match file m with
  | None => schedules m = []
  | Some doc => store_schedules doc = schedules m
  end.

(** The operation registers a sender. *)
Definition setsSender (o : SchedulerService.Op) : bool :=
  match o with
  | SchedulerService.SetDiscordSender _ => true
  | SchedulerService.SetTelegramSender _ => true
  | _ => false
  end.

(** Every task the timer library holds was created for a schedule with a
    destination. *)
Definition createdWithDestination (e : SchedulerService.t) : Prop :=
  Forall (λ task, SchedulerService.noTargets (NodeCron.job task) = false)
         (SchedulerService.timers e).

(** A call goes to the schedule's own channel or chat, with the text of
    the firing. *)
Definition ownDestination (s : ScheduleConfig) (msg : string)
    (d : Firing.Delivery) : Prop :=
  Firing.content d = msg
  ∧ Firing.destination d ≠ ""
  ∧ match Firing.via d with
    | Discord => discord_channelId s = Some (Firing.destination d)
    | Telegram => telegram_chatId s = Some (Firing.destination d)
    end.

(** Every character of the string is in the class. *)
Fixpoint allChars (p : ascii → bool) (s : string) : bool :=
  match s with
  | EmptyString => true
  | String c r => p c && allChars p r
  end.

(** The string is empty or starts outside the class. *)
Definition stopsAt (p : ascii → bool) (s : string) : Prop :=
  match s with
  | EmptyString => True
  | String c _ => p c = false
  end.

(** The text after an argument: nothing, or a space and more. *)
Definition afterArg (rest : string) : Prop :=
  rest = "" ∨ ∃ r, rest = String " " r.

(** An argument as a user types it: a bare word, or a phrase between
    quotes. *)
Inductive Arg : Set :=
| Word (w : string)
| Phrase (p : string).

(** The text of the argument in the message, and the value the command
    is to see. *)
Definition argText (a : Arg) : string :=
  match a with
  | Word w => w
  | Phrase p =>
      String TelegramCommands.quote (p +:+ String TelegramCommands.quote "")
  end.

Definition argValue (a : Arg) : string :=
  match a with
  | Word w => w
  | Phrase p => p
  end.

(** A word is not empty and has neither space nor quote; a phrase is not
    empty and has no quote. *)
Definition argOk (a : Arg) : bool :=
  match a with
  | Word w =>
      JS.truthy w
      && allChars (λ c, negb (TelegramCommands.isSpace c)
                        && negb (TelegramCommands.isQuote c)) w
  | Phrase p =>
      JS.truthy p && allChars (λ c, negb (TelegramCommands.isQuote c)) p
  end.

(** The texts, one space between two of them. *)
Fixpoint unwords (l : list string) : string :=
  match l with
  | [] => ""
  | x :: r =>
      match r with
      | [] => x
      | _ => x +:+ " " +:+ unwords r
      end
  end.

(** The id [createUserSchedule] gives a Telegram schedule under the
    reads [rd]. *)
Definition createdId (rd : Reads) : string :=
  "telegram-" +:+ pretty (now_id rd) +:+ "-" +:+ pretty (random_suffix rd).

Section WithLib.
Context `{NodeCronLib}.

(** Store and engine agree: the timer map and the started tasks agree;
    every id with a timer resolves to an enabled record; and every id
    that resolves to an enabled record whose addition would not be
    refused has a timer. *)
Definition inSync (st : ScheduleManager.t * SchedulerService.t) : Prop :=
  EngineProps.consistent st.2
  ∧ (∀ i h, SchedulerService.scheduledTasks st.2 !! i = Some h →
       ∃ s, getSchedule i st.1 = Some s ∧ enabled s = true)
  ∧ (∀ i s, getSchedule i st.1 = Some s → enabled s = true →
       EngineProps.accepts s st.2 = true →
       is_Some (SchedulerService.scheduledTasks st.2 !! i)).




End WithLib.

(** Updates from a group chat, for the examples: the creator of the
    examples and another member, each with the given text. *)
Definition fromAnn (text : string) : TelegramCommands.Context :=
  TelegramCommands.mkContext (Some text)
    (Some (TelegramCommands.mkChat 123 TelegramCommands.Group))
    (Some (TelegramCommands.mkUser 77 None "Ann")).

Definition fromBob (text : string) : TelegramCommands.Context :=
  TelegramCommands.mkContext (Some text)
    (Some (TelegramCommands.mkChat 123 TelegramCommands.Group))
    (Some (TelegramCommands.mkUser 88 None "Bob")).

(** Requests, a schedule for a Discord channel alone, a listing and two
    engines, for the examples: one with the Telegram sender and the
    timer of the record of [oneRecord], one with both senders and an
    hourly schedule. *)
Definition telegramRequest : Request :=
  mkRequest "Hourly NFT" Nft "0 * * * *" Telegram None None (Some "123")
    "77" (Some "ann").

Definition discordRequest : Request :=
  mkRequest "Hourly NFT" Nft "0 * * * *" Discord (Some "9") (Some "g1") None
    "1" None.

Definition discordOnly : ScheduleConfig :=
  mkScheduleConfig "d" "Discord NFT" "0 * * * *" true Nft 1700000000000
    None (Some (mkDiscordTarget "9" None)) None.

Definition someListing : ApiService.NFTListing :=
  ApiService.mkNFTListing "Piece" None (Some "1.50 XTZ") None
    (Some "https://objkt.com/tokens/KT1/7").

Definition annsTimer : list SchedulerService.Op :=
  [SchedulerService.SetTelegramSender 1%nat;
   SchedulerService.AddSchedule (StoreProps.sample "a" (Some StoreProps.ann))].

Definition bothSenders : list SchedulerService.Op :=
  [SchedulerService.SetDiscordSender 2%nat;
   SchedulerService.SetTelegramSender 1%nat;
   SchedulerService.AddSchedule (EngineProps.hourly "a" true)].


End MoreProps.

(** * Properties of the store *)

Section StoreLookup.
Import ScheduleManager StoreProps.

Implicit Types (m : ScheduleManager.t) (s u : ScheduleConfig) (i : string).

Lemma getSchedule_find i m s :
  getSchedule i m = Some s ↔
  ∃ k, list_find (λ x, id x = i) (schedules m) = Some (k, s).
Proof.
  unfold getSchedule. split.
  - destruct (list_find _ _) as [[k x]|]; simpl; [|done].
    intros [= ->]. by exists k.
  - intros [k ->]. done.
Qed.

Lemma getSchedule_Some i m s :
  getSchedule i m = Some s → s ∈ schedules m ∧ id s = i.
Proof.
  intros [k (Hk & Hid & _)%list_find_Some]%getSchedule_find.
  split; [by eapply list_elem_of_lookup_2|done].
Qed.

Lemma getSchedule_None i m :
  getSchedule i m = None ↔ ∀ s, s ∈ schedules m → id s ≠ i.
Proof.
  unfold getSchedule. rewrite fmap_None, list_find_None, Forall_forall. done.
Qed.

(** Where ids are unique, an id resolves to the one record that has it. *)
Lemma getSchedule_stored m s :
  NoDup (ids m) → s ∈ schedules m → getSchedule (id s) m = Some s.
Proof.
  intros Hnd [k Hk]%list_elem_of_lookup.
  destruct (list_find_elem_of (λ x, id x = id s) (schedules m) s) as [[j y] Hj].
  { by eapply list_elem_of_lookup_2. }
  { done. }
  apply getSchedule_find. exists j.
  pose proof Hj as (Hjy & Hid & _)%list_find_Some.
  assert (j = k) as ->.
  { eapply NoDup_lookup; [exact Hnd|..]; unfold ids; rewrite list_lookup_fmap.
    - by rewrite Hjy.
    - rewrite Hk. simpl. by rewrite Hid. }
  by simplify_eq.
Qed.

End StoreLookup.

(** ** updateSchedule *)

Section StoreUpdate.
Import ScheduleManager StoreProps.

Implicit Types (m : ScheduleManager.t) (s u : ScheduleConfig) (i : string).

Lemma updateSchedule_absent u m :
  (∀ s, s ∈ schedules m → id s ≠ id u) → updateSchedule u m = (None, m).
Proof.
  intros Hno. unfold updateSchedule.
  destruct (list_find _ _) as [[k x]|] eqn:Hf; [|done].
  apply list_find_Some in Hf as (Hk & Hid & _).
  exfalso. eapply Hno; [|exact Hid]. by eapply list_elem_of_lookup_2.
Qed.

Lemma updateSchedule_found u m existing :
  getSchedule (id u) m = Some existing →
  ∃ index r,
    updateSchedule u m
      = (Some r, saveSchedules None (mk (<[index := r]> (schedules m)) (file m)))
    ∧ list_find (λ x, id x = id u) (schedules m) = Some (index, existing)
    ∧ overwritten u existing r.
Proof.
  intros [k Hf]%getSchedule_find. unfold updateSchedule. rewrite Hf.
  eexists k, _. split; [reflexivity|].
  split; [done|]. by repeat split.
Qed.

(** C3.  [updateSchedule] answers [null] and leaves the store as it was
    when no stored record has the payload's id.  Otherwise it answers the
    record it stored: that record replaces, in place, the record the id
    resolves to, carries that record's [createdAt] and [createdBy]
    whatever the payload held there, and takes every other field from the
    payload; the list keeps its length and is written to the file. *)
Theorem updateSchedule_restores_creation_stamp u m :
  ((∀ s, s ∈ schedules m → id s ≠ id u) → updateSchedule u m = (None, m))
  ∧ (∀ existing, getSchedule (id u) m = Some existing →
     ∃ index r,
       (updateSchedule u m).1 = Some r
       ∧ schedules m !! index = Some existing
       ∧ schedules (updateSchedule u m).2 !! index = Some r
       ∧ length (schedules (updateSchedule u m).2) = length (schedules m)
       ∧ overwritten u existing r
       ∧ getSchedule (id u) (updateSchedule u m).2 = Some r
       ∧ file (updateSchedule u m).2
           = Some (mkScheduleStore (schedules (updateSchedule u m).2) 1)).
Proof.
  split; [apply updateSchedule_absent|].
  intros existing Hget.
  destruct (updateSchedule_found u m existing Hget) as (k & r & -> & Hf & Hov).
  apply list_find_Some in Hf as (Hk & _ & Hleast).
  exists k, r. simpl.
  assert (k < length (schedules m))%nat as Hlt by (by eapply lookup_lt_Some).
  split_and!; try done.
  - by apply list_lookup_insert_eq.
  - by rewrite length_insert.
  - apply getSchedule_find. exists k. simpl.
    apply list_find_Some. split_and!.
    + by apply list_lookup_insert_eq.
    + by destruct Hov as (_ & _ & ? & _).
    + intros j y Hj Hjk. rewrite list_lookup_insert_ne in Hj by lia.
      by eapply Hleast.
Qed.

End StoreUpdate.

(** ** canUserManageSchedule *)

Section StorePermission.
Import ScheduleManager StoreProps.

Implicit Types (m : ScheduleManager.t) (s : ScheduleConfig) (i user : string)
  (p : Platform).

(** The ownership test of the last line of [canUserManageSchedule]. *)
Lemma creator_test p user s :
  bool_decide (platform <$> createdBy s = Some p)
  && bool_decide (userId <$> createdBy s = Some user) = true
  ↔ isCreator p user s.
Proof.
  rewrite andb_true_iff, !bool_decide_eq_true. unfold isCreator.
  destruct (createdBy s) as [c|]; simpl; split.
  - intros [[= <-] [= <-]]. by exists c.
  - intros (c' & [= <-] & <- & <-). done.
  - intros [? _]. done.
  - intros (c' & ? & _). done.
Qed.

Lemma canUserManageSchedule_found i p user isAdmin m s :
  getSchedule i m = Some s →
  canUserManageSchedule i p user isAdmin m = true
  ↔ isAdmin = true ∨ isCreator p user s.
Proof.
  intros Hget. unfold canUserManageSchedule. rewrite Hget.
  destruct isAdmin.
  - split; [by left|done].
  - rewrite creator_test. split; [by right|]. by intros [|].
Qed.

(** C4.  [canUserManageSchedule] answers false when no stored record has
    the id, for admins too.  When the id resolves to a record, it
    answers true for every admin, and for a caller who is no admin it
    answers true exactly when the record's [createdBy] holds the caller's
    platform and user id. *)
Theorem canUserManageSchedule_spec i p user isAdmin m :
  ((∀ s, s ∈ schedules m → id s ≠ i) →
     canUserManageSchedule i p user isAdmin m = false)
  ∧ (∀ s, getSchedule i m = Some s →
       (isAdmin = true → canUserManageSchedule i p user isAdmin m = true)
       ∧ (isAdmin = false →
            (canUserManageSchedule i p user isAdmin m = true
             ↔ isCreator p user s))).
Proof.
  split.
  - intros Hno%getSchedule_None. unfold canUserManageSchedule. by rewrite Hno.
  - intros s Hget. split; intros ->.
    + apply (canUserManageSchedule_found _ _ _ _ _ _ Hget). by left.
    + rewrite (canUserManageSchedule_found _ _ _ _ _ _ Hget).
      split; [by intros [|]|by right].
Qed.

(** C10.  When the id resolves to a record without [createdBy], no caller
    without admin rights can manage it, whatever the platform and the
    user id, and every admin can.  Where ids are unique this is so for
    every stored record without [createdBy]. *)
Theorem canUserManageSchedule_no_creator m :
  (∀ i s, getSchedule i m = Some s → createdBy s = None →
     ∀ p user,
       canUserManageSchedule i p user false m = false
       ∧ canUserManageSchedule i p user true m = true)
  ∧ (NoDup (ids m) →
     ∀ s, s ∈ schedules m → createdBy s = None →
     ∀ p user,
       canUserManageSchedule (id s) p user false m = false
       ∧ canUserManageSchedule (id s) p user true m = true).
Proof.
  assert (∀ i s, getSchedule i m = Some s → createdBy s = None →
     ∀ p user,
       canUserManageSchedule i p user false m = false
       ∧ canUserManageSchedule i p user true m = true) as Hres.
  { intros i s Hget Hby p user. unfold canUserManageSchedule.
    rewrite Hget, Hby. done. }
  split; [exact Hres|].
  intros Hnd s Hin Hby p user.
  apply (Hres (id s) s); [by apply getSchedule_stored|done].
Qed.

End StorePermission.

(** ** getDiscordChannelSchedules *)

Section StoreDiscord.
Import ScheduleManager StoreProps.

Implicit Types (m : ScheduleManager.t) (s : ScheduleConfig)
  (channel : string) (guild : option string).

(** Without a discord block the record's channel reads as the empty
    string and its guild as absent, so the filter keeps it exactly for
    the empty channel. *)
Lemma discordMatches_no_block channel guild s :
  discord s = None →
  discordMatches channel guild s = bool_decide (channel = "").
Proof.
  intros Hd. unfold discordMatches, discord_channelId, discord_guildId.
  rewrite Hd. simpl. rewrite orb_true_r, andb_true_r.
  unfold JS.str_eq. apply bool_decide_ext. split; congruence.
Qed.

(** C9.  A stored record without a discord block is in the answer of
    [getDiscordChannelSchedules] exactly when the channel asked for is
    the empty string, whatever the guild; so the empty channel id yields
    every record that has no discord block, the Telegram-only ones among
    them. *)
Theorem getDiscordChannelSchedules_no_block m channel guild s :
  discord s = None →
  (s ∈ getDiscordChannelSchedules channel guild m
     ↔ s ∈ schedules m ∧ channel = "")
  ∧ (s ∈ schedules m → s ∈ getDiscordChannelSchedules "" guild m).
Proof.
  intros Hd.
  assert (∀ c, s ∈ getDiscordChannelSchedules c guild m
               ↔ s ∈ schedules m ∧ c = "") as Hiff.
  { intros c. unfold getDiscordChannelSchedules.
    rewrite !list_elem_of_In, filter_In, discordMatches_no_block by done.
    by rewrite bool_decide_eq_true. }
  split; [apply Hiff|]. intros Hin. by apply Hiff.
Qed.

End StoreDiscord.

(** ** Uniqueness of ids *)

Section StoreIds.
Import ScheduleManager StoreProps.

Implicit Types (m : ScheduleManager.t) (s u : ScheduleConfig) (i : string).

Lemma addSchedule_schedules tId tAt s m :
  schedules (addSchedule tId tAt s m).2
  = schedules m ++ [(addSchedule tId tAt s m).1].
Proof. done. Qed.

Lemma addSchedule_ids tId tAt s m :
  ids (addSchedule tId tAt s m).2 = ids m ++ [id (addSchedule tId tAt s m).1].
Proof. unfold ids. by rewrite addSchedule_schedules, fmap_app. Qed.

(** [updateSchedule] leaves the list of ids as it is. *)
Lemma updateSchedule_ids u m : ids (updateSchedule u m).2 = ids m.
Proof.
  unfold updateSchedule.
  destruct (list_find _ _) as [[k x]|] eqn:Hf; [|done].
  apply list_find_Some in Hf as (Hk & Hid & _).
  unfold ids. simpl. rewrite list_fmap_insert. simpl.
  apply list_insert_id. by rewrite list_lookup_fmap, Hk, <- Hid.
Qed.

Lemma deleteSchedule_schedules i m :
  schedules (deleteSchedule i m).2
  = List.filter (λ s, negb (JS.str_eq (id s) i)) (schedules m).
Proof. unfold deleteSchedule. by destruct (negb _). Qed.

(** [deleteSchedule] keeps the other ids, in order, and none equal to [i]. *)
Lemma deleteSchedule_ids i m :
  ids (deleteSchedule i m).2 = List.filter (λ j, negb (JS.str_eq j i)) (ids m).
Proof.
  unfold ids. rewrite deleteSchedule_schedules.
  induction (schedules m) as [|s l IH]; [done|].
  simpl. destruct (negb _); simpl; by f_equal.
Qed.

Lemma NoDup_filter_bool {A} (f : A → bool) (l : list A) :
  NoDup l → NoDup (List.filter f l).
Proof.
  induction 1 as [|x l Hx Hnd IH]; simpl; [constructor|].
  destruct (f x); [|done]. constructor; [|done].
  rewrite list_elem_of_In, filter_In, <- list_elem_of_In. tauto.
Qed.

(** The claim of C8 fails: [addSchedule] appends a record under an id that
    the store already holds, and after [deleteSchedule] the deleted id is
    taken again. *)
Lemma store_ids_not_unique :
  ¬ (∀ ops, NoDup (ids (run ops ScheduleManager.new)))
  ∧ ids (run [AddSchedule 1 2 (sample "a" None);
              DeleteSchedule "a"] ScheduleManager.new) = []
  ∧ ids (run [AddSchedule 1 2 (sample "a" None);
              DeleteSchedule "a";
              AddSchedule 3 4 (sample "a" None)] ScheduleManager.new) = ["a"].
Proof.
  split_and!; [|done..].
  intros Hall.
  specialize (Hall [AddSchedule 1 2 (sample "a" None);
                    AddSchedule 3 4 (sample "a" None)]).
  vm_compute in Hall. apply NoDup_cons_1_1 in Hall. apply Hall. left.
Qed.

(** C8, amended.  In a store whose ids are unique, [updateSchedule]
    keeps the list of ids as it is, [deleteSchedule] keeps the ids unique
    and leaves no record under the deleted id, and [addSchedule] and
    [createUserSchedule], which append without looking at the stored ids,
    keep the ids unique exactly when the id of the record they append is
    not yet in the store. *)
Theorem store_ids_unique_when_fresh m :
  NoDup (ids m) →
  (∀ u, ids (updateSchedule u m).2 = ids m)
  ∧ (∀ i, NoDup (ids (deleteSchedule i m).2) ∧ i ∉ ids (deleteSchedule i m).2)
  ∧ (∀ tId tAt s,
       NoDup (ids (addSchedule tId tAt s m).2)
       ↔ id (addSchedule tId tAt s m).1 ∉ ids m)
  ∧ (∀ tId rnd tAt tAdd1 tAdd2 r,
       NoDup (ids (createUserSchedule tId rnd tAt tAdd1 tAdd2 r m).2)
       ↔ id (createUserSchedule tId rnd tAt tAdd1 tAdd2 r m).1 ∉ ids m).
Proof.
  intros Hnd.
  assert (∀ tId tAt s,
       NoDup (ids (addSchedule tId tAt s m).2)
       ↔ id (addSchedule tId tAt s m).1 ∉ ids m) as Hadd.
  { intros tId tAt s. rewrite addSchedule_ids, NoDup_app.
    split.
    - intros (_ & Hdisj & _) Hin. apply (Hdisj _ Hin). left.
    - intros Hfresh. split_and!; [done| |apply NoDup_singleton].
      intros j Hj ->%list_elem_of_singleton. done. }
  split_and!.
  - intros u. apply updateSchedule_ids.
  - intros i. rewrite deleteSchedule_ids. split.
    + by apply NoDup_filter_bool.
    + rewrite list_elem_of_In, filter_In. intros [_ Hne].
      unfold JS.str_eq in Hne. by rewrite bool_decide_eq_true_2 in Hne.
  - exact Hadd.
  - intros tId rnd tAt tAdd1 tAdd2 r. apply Hadd.
Qed.

End StoreIds.

(** * Properties of the engine *)

Section EngineSteps.
Context `{NodeCronLib}.
Import SchedulerService EngineProps.

Implicit Types (e : SchedulerService.t) (s : ScheduleConfig) (i : string)
  (h : nat) (ts : NodeCron.Tasks).

(** *** addSchedule, case by case *)

Lemma addSchedule_known s e :
  is_Some (scheduledTasks e !! id s) → addSchedule s e = e.
Proof. intros Hin. unfold addSchedule. by rewrite bool_decide_eq_true_2. Qed.

Lemma addSchedule_refused s e : accepts s e = false → addSchedule s e = e.
Proof.
  unfold accepts, addSchedule, NodeCron.schedule. intros Hacc.
  destruct (bool_decide (is_Some (scheduledTasks e !! id s))); [done|].
  destruct (bool_decide (is_Some (discordSender e))),
    (bool_decide (is_Some (telegramSender e))),
    (noTargets s), (pattern_ok (cronExpression s)); done.
Qed.

Lemma addSchedule_fresh s e :
  scheduledTasks e !! id s = None → accepts s e = true →
  addSchedule s e
  = mk (<[id s := length (timers e)]> (scheduledTasks e))
       (discordSender e) (telegramSender e)
       (timers e ++ [NodeCron.mkTask (cronExpression s) s true]).
Proof.
  unfold accepts, addSchedule, NodeCron.schedule. intros Hnone Hacc.
  rewrite bool_decide_eq_false_2 by (rewrite Hnone; by intros [??]).
  destruct (bool_decide (is_Some (discordSender e))),
    (bool_decide (is_Some (telegramSender e))),
    (noTargets s), (pattern_ok (cronExpression s)); done.
Qed.

(** The three cases are all there is. *)
Lemma addSchedule_cases s e :
  addSchedule s e = e
  ∨ (scheduledTasks e !! id s = None ∧ accepts s e = true).
Proof.
  destruct (scheduledTasks e !! id s) as [h|] eqn:Hl.
  - left. apply addSchedule_known. by rewrite Hl.
  - destruct (accepts s e) eqn:Hacc; [by right|].
    left. by apply addSchedule_refused.
Qed.

(** The guard on the destinations is the one the specification words. *)
Lemma falsy_or_empty (o : option string) :
  negb (JS.truthy_opt o) || JS.opt_str_eq o (Some "") = true
  ↔ o = None ∨ o = Some "".
Proof.
  unfold JS.opt_str_eq, JS.truthy_opt, JS.truthy.
  destruct o as [c|]; simpl; [|by split; [left|]].
  destruct (decide (c = "")) as [->|Hne].
  - split; [by right|done].
  - rewrite bool_decide_eq_false_2 by done.
    rewrite bool_decide_eq_false_2 by congruence.
    split; [done|]. intros [|]; congruence.
Qed.

Lemma noTargets_spec s : noTargets s = true ↔ noDestination s.
Proof.
  unfold noTargets, noDestination.
  by rewrite andb_true_iff, !falsy_or_empty.
Qed.

Lemma addSchedule_idempotent s e :
  addSchedule s (addSchedule s e) = addSchedule s e.
Proof.
  destruct (addSchedule_cases s e) as [Hsame|[Hnone Hacc]].
  { by rewrite !Hsame. }
  rewrite (addSchedule_fresh s e Hnone Hacc).
  apply addSchedule_known. simpl. rewrite lookup_insert_eq. eauto.
Qed.

Lemma addSchedule_iter s e n :
  Nat.iter (S n) (addSchedule s) e = addSchedule s e.
Proof.
  induction n as [|n IH]; [done|].
  change (Nat.iter (S (S n)) (addSchedule s) e)
    with (addSchedule s (Nat.iter (S n) (addSchedule s) e)).
  rewrite IH. apply addSchedule_idempotent.
Qed.

(** *** The timer map and the started tasks stay in agreement *)

Lemma new_consistent : consistent SchedulerService.new.
Proof. split; [intros i h Hl|intros h task Hl]; by simpl in Hl. Qed.

Lemma addSchedule_consistent s e : consistent e → consistent (addSchedule s e).
Proof.
  intros [Hmap Hrun].
  destruct (addSchedule_cases s e) as [->|[Hnone Hacc]]; [done|].
  rewrite (addSchedule_fresh s e Hnone Hacc). split; simpl.
  - intros i h [[<- <-]|[Hne Hl]]%lookup_insert_Some.
    + eexists. split; [by apply list_lookup_middle|done].
    + destruct (Hmap i h Hl) as (task & Ht & Hr & Hi).
      exists task. split; [|done]. by apply lookup_app_l_Some.
  - intros h task [Hl|[Hge Hl]]%lookup_app_Some Hr.
    + pose proof (Hrun h task Hl Hr) as Hm.
      rewrite lookup_insert_ne; [done|]. intros Hid. by rewrite <- Hid, Hnone in Hm.
    + apply list_lookup_singleton_Some in Hl as [Hz <-]. simpl.
      rewrite lookup_insert_eq. f_equal. lia.
Qed.

Lemma removeSchedule_consistent i e :
  consistent e → consistent (removeSchedule i e).2.
Proof.
  intros [Hmap Hrun]. unfold removeSchedule.
  destruct (scheduledTasks e !! i) as [h|] eqn:Hl; [|done].
  destruct (Hmap i h Hl) as (task & Ht & Hr & Hi).
  split; simpl.
  - intros j h' [Hne Hj]%lookup_delete_Some.
    destruct (Hmap j h' Hj) as (task' & Ht' & Hr' & Hi').
    exists task'. split; [|done]. unfold NodeCron.stop.
    rewrite list_lookup_alter_ne; [done|].
    intros <-. congruence.
  - intros h' task' Hl' Hr'. unfold NodeCron.stop in Hl'.
    destruct (decide (h = h')) as [<-|Hne].
    + rewrite list_lookup_alter_eq, Ht in Hl'. by simplify_eq/=.
    + rewrite list_lookup_alter_ne in Hl' by done.
      pose proof (Hrun h' task' Hl' Hr') as Hm.
      rewrite lookup_delete_ne; [done|]. intros ->. congruence.
Qed.

Lemma foldl_addSchedule_consistent l e :
  consistent e → consistent (foldl (λ e s, addSchedule s e) e l).
Proof.
  revert e. induction l as [|s l IH]; intros e He; [done|].
  simpl. by apply IH, addSchedule_consistent.
Qed.

(** What [stopAllTasks] leaves of a task list: a task that is still
    started was started before and is not among those stopped. *)
Lemma stop_all_running (l : list (string * nat)) ts h task :
  foldr (λ entry ts, NodeCron.stop entry.2 ts) ts l !! h = Some task →
  NodeCron.running task = true →
  ts !! h = Some task ∧ ∀ i, (i, h) ∉ l.
Proof.
  revert task. induction l as [|[j h'] l IH]; intros task; simpl.
  - intros Hl _. split; [done|]. intros i. apply not_elem_of_nil.
  - unfold NodeCron.stop at 1. intros Hl Hr.
    destruct (decide (h' = h)) as [->|Hne].
    + rewrite list_lookup_alter_eq in Hl.
      destruct (foldr _ _ _ !! h) as [t0|]; simplify_eq/=.
    + rewrite list_lookup_alter_ne in Hl by done.
      destruct (IH task Hl Hr) as [Hts Hnot]. split; [done|].
      intros i [[= _ ?]|Hin]%elem_of_cons; [done|]. by eapply Hnot.
Qed.

Lemma stopAllTasks_consistent e : consistent e → consistent (stopAllTasks e).
Proof.
  intros [Hmap Hrun]. split; simpl.
  - intros i h Hl. by rewrite lookup_empty in Hl.
  - intros h task Hl Hr. exfalso.
    destruct (stop_all_running _ _ _ _ Hl Hr) as [Hts Hnot].
    apply (Hnot (id (NodeCron.job task))).
    apply elem_of_map_to_list. by apply Hrun.
Qed.

Lemma exec_consistent o e : consistent e → consistent (exec o e).
Proof.
  intros He. destruct o; simpl.
  - exact He.
  - exact He.
  - by apply foldl_addSchedule_consistent.
  - by apply addSchedule_consistent.
  - unfold updateSchedule. destruct (enabled schedule).
    + by apply addSchedule_consistent, removeSchedule_consistent.
    + by apply removeSchedule_consistent.
  - by apply removeSchedule_consistent.
  - by apply stopAllTasks_consistent.
Qed.

Lemma run_consistent ops e : consistent e → consistent (run ops e).
Proof.
  revert e. induction ops as [|o ops IH]; intros e He; [done|].
  simpl. by apply IH, exec_consistent.
Qed.

End EngineSteps.

(** ** Live timers *)

Section EngineLive.
Context `{NodeCronLib}.
Import SchedulerService EngineProps.

Implicit Types (e : SchedulerService.t) (s : ScheduleConfig) (i : string)
  (h : nat).

Lemma elem_of_liveTimers i e h :
  h ∈ liveTimers i e ↔
  ∃ task, timers e !! h = Some task
          ∧ NodeCron.running task = true
          ∧ id (NodeCron.job task) = i.
Proof.
  unfold liveTimers, isLive, JS.str_eq.
  rewrite list_elem_of_In, filter_In, <- list_elem_of_In, elem_of_seq.
  split.
  - intros [_ Hlive]. destruct (timers e !! h) as [task|]; [|done].
    apply andb_true_iff in Hlive as [Hr Hi%bool_decide_eq_true]. eauto.
  - intros (task & Ht & Hr & Hi). split.
    + apply lookup_lt_Some in Ht. lia.
    + rewrite Ht, Hr. simpl. by apply bool_decide_eq_true.
Qed.

Lemma liveTimers_NoDup i e : NoDup (liveTimers i e).
Proof. apply NoDup_filter_bool, NoDup_seq. Qed.

(** In a consistent engine the live timers of an id are the entry of the
    timer map, if there is one. *)
Lemma liveTimers_consistent i e :
  consistent e →
  liveTimers i e = match scheduledTasks e !! i with
                   | Some h => [h]
                   | None => []
                   end.
Proof.
  intros [Hmap Hrun].
  destruct (scheduledTasks e !! i) as [h|] eqn:Hl.
  - apply Permutation_singleton_r, NoDup_Permutation.
    + apply liveTimers_NoDup.
    + apply NoDup_singleton.
    + intros h'. rewrite elem_of_liveTimers, list_elem_of_singleton. split.
      * intros (task & Ht & Hr & <-). pose proof (Hrun _ _ Ht Hr). congruence.
      * intros ->. by apply Hmap.
  - apply elem_of_nil_inv. intros h' (task & Ht & Hr & <-)%elem_of_liveTimers.
    pose proof (Hrun _ _ Ht Hr). congruence.
Qed.

(** C5.  In every state the engine reaches through its operations:
    [addSchedule] for an id that has a timer returns the state as it is,
    timer included; any number of calls, one or more, for the same
    schedule ends in the state that the first call gives; and after them
    the schedule's id has at most one live timer.  It has exactly one
    when the id had a timer or the first call was not refused (a sender
    is registered, the schedule has a destination, the expression is
    taken), and none otherwise. *)
Theorem addSchedule_at_most_one_timer ops s n :
  let e := run ops SchedulerService.new in
  let e' := Nat.iter (S n) (addSchedule s) e in
  (is_Some (scheduledTasks e !! id s) → addSchedule s e = e)
  ∧ e' = addSchedule s e
  ∧ (length (liveTimers (id s) e') ≤ 1)%nat
  ∧ length (liveTimers (id s) e')
    = if bool_decide (is_Some (scheduledTasks e !! id s)) || accepts s e
      then 1%nat else 0%nat.
Proof.
  intros e e'.
  assert (consistent e) as He by apply run_consistent, new_consistent.
  assert (e' = addSchedule s e) as He' by apply addSchedule_iter.
  assert (length (liveTimers (id s) e')
    = if bool_decide (is_Some (scheduledTasks e !! id s)) || accepts s e
      then 1%nat else 0%nat) as Hcount.
  { rewrite He', liveTimers_consistent by by apply addSchedule_consistent.
    destruct (scheduledTasks e !! id s) as [h|] eqn:Hl.
    - rewrite addSchedule_known by (rewrite Hl; eauto).
      rewrite Hl, bool_decide_eq_true_2 by eauto. done.
    - rewrite bool_decide_eq_false_2 by by intros [??]. simpl.
      destruct (accepts s e) eqn:Hacc.
      + rewrite addSchedule_fresh by done. simpl.
        by rewrite lookup_insert_eq.
      + rewrite addSchedule_refused by done. by rewrite Hl. }
  split_and!; [apply addSchedule_known|done| |done].
  rewrite Hcount. destruct (_ || _); lia.
Qed.

(** C6.  [updateSchedule] ends in the state that [removeSchedule] of the
    id followed by [addSchedule] gives when the schedule is enabled, and
    in the state that [removeSchedule] alone gives when it is not: it is
    the update of the specification. *)
Theorem updateSchedule_is_remove_then_add s e :
  updateSchedule s e = updateSchedule_spec s e
  ∧ (enabled s = true →
       updateSchedule s e = addSchedule s (removeSchedule (id s) e).2)
  ∧ (enabled s = false →
       updateSchedule s e = (removeSchedule (id s) e).2).
Proof.
  unfold updateSchedule, updateSchedule_spec.
  split_and!; [done|by intros ->..].
Qed.

(** After the update the id has the new timer, created for the payload,
    when the schedule is enabled and the addition is not refused, and no
    timer otherwise: the timer it had before is stopped in both cases. *)
Lemma removeSchedule_lookup i e :
  scheduledTasks (removeSchedule i e).2 !! i = None
  ∧ length (timers (removeSchedule i e).2) = length (timers e).
Proof.
  unfold removeSchedule.
  destruct (scheduledTasks e !! i) as [h|] eqn:Hl; simpl; [|done].
  split; [apply lookup_delete_eq|]. unfold NodeCron.stop. apply length_alter.
Qed.

Lemma updateSchedule_timer s e :
  consistent e →
  liveTimers (id s) (updateSchedule s e)
  = if enabled s && accepts s (removeSchedule (id s) e).2
    then [length (timers e)] else [].
Proof.
  intros He.
  rewrite liveTimers_consistent by apply (exec_consistent (UpdateSchedule s)), He.
  destruct (removeSchedule_lookup (id s) e) as [Hnone Hlen].
  unfold updateSchedule. destruct (enabled s); simpl; [|by rewrite Hnone].
  destruct (accepts s (removeSchedule (id s) e).2) eqn:Hacc.
  - rewrite addSchedule_fresh by done. simpl.
    by rewrite lookup_insert_eq, Hlen.
  - rewrite addSchedule_refused by done. by rewrite Hnone.
Qed.

End EngineLive.

(** ** Disabled schedules and destinations *)

Section EngineGates.
Context `{NodeCronLib}.
Import SchedulerService EngineProps.

Implicit Types (e : SchedulerService.t) (s : ScheduleConfig) (i : string).

Lemma addSchedule_createdEnabled s e :
  enabled s = true → createdEnabled e → createdEnabled (addSchedule s e).
Proof.
  intros Hs He.
  destruct (addSchedule_cases s e) as [->|[Hnone Hacc]]; [done|].
  rewrite (addSchedule_fresh s e Hnone Hacc). unfold createdEnabled. simpl.
  apply Forall_app. split; [done|]. by apply Forall_singleton.
Qed.

Lemma stop_createdEnabled h (ts : NodeCron.Tasks) :
  Forall (λ task, enabled (NodeCron.job task) = true) ts →
  Forall (λ task, enabled (NodeCron.job task) = true) (NodeCron.stop h ts).
Proof. intros Hts. apply Forall_alter; [done|]. by intros []. Qed.

Lemma removeSchedule_createdEnabled i e :
  createdEnabled e → createdEnabled (removeSchedule i e).2.
Proof.
  intros He. unfold removeSchedule.
  destruct (scheduledTasks e !! i); [|done]. by apply stop_createdEnabled.
Qed.

Lemma stopAllTasks_createdEnabled e :
  createdEnabled e → createdEnabled (stopAllTasks e).
Proof.
  intros He. unfold createdEnabled. simpl.
  induction (map_to_list (scheduledTasks e)) as [|entry l IH]; [done|].
  simpl. by apply stop_createdEnabled.
Qed.

Lemma addScheduledTasks_createdEnabled l e :
  createdEnabled e → createdEnabled (addScheduledTasks l e).
Proof.
  unfold addScheduledTasks. revert e.
  induction l as [|s l IH]; intros e He; [done|].
  simpl. destruct (enabled s) eqn:Hs; [|by apply IH].
  simpl. by apply IH, addSchedule_createdEnabled.
Qed.

Lemma exec_createdEnabled o e :
  addsEnabled o → createdEnabled e → createdEnabled (exec o e).
Proof.
  intros Ho He. destruct o; simpl in *.
  - exact He.
  - exact He.
  - by apply addScheduledTasks_createdEnabled.
  - by apply addSchedule_createdEnabled.
  - unfold updateSchedule. destruct (enabled schedule) eqn:Hs.
    + by apply addSchedule_createdEnabled, removeSchedule_createdEnabled.
    + by apply removeSchedule_createdEnabled.
  - by apply removeSchedule_createdEnabled.
  - by apply stopAllTasks_createdEnabled.
Qed.

Lemma run_createdEnabled ops e :
  Forall addsEnabled ops → createdEnabled e → createdEnabled (run ops e).
Proof.
  intros Hops. revert e.
  induction Hops as [|o ops Ho Hops IH]; intros e He; [done|].
  simpl. by apply IH, exec_createdEnabled.
Qed.

(** C7, amended.  [addSchedule] does not look at [enabled]; the gates are
    in [addScheduledTasks] and [updateSchedule].  In every state reached
    from a new engine by runs of the operations in which the direct calls
    of [addSchedule] pass enabled schedules, every timer of the map, and
    every started task, was created for a schedule that was enabled. *)
Theorem no_disabled_timer_when_adds_enabled ops :
  Forall addsEnabled ops →
  noDisabledTimer (run ops SchedulerService.new)
  ∧ (∀ task, task ∈ startedTasks (run ops SchedulerService.new) →
       enabled (NodeCron.job task) = true).
Proof.
  intros Hops.
  assert (createdEnabled (run ops SchedulerService.new)) as Hall.
  { apply run_createdEnabled; [done|]. apply Forall_nil_2. }
  unfold createdEnabled in Hall. rewrite Forall_forall in Hall. split.
  - intros i h task _ Ht. apply Hall. by eapply list_elem_of_lookup_2.
  - intros task Hin. apply Hall. unfold startedTasks in Hin.
    rewrite list_elem_of_In, filter_In, <- list_elem_of_In in Hin. tauto.
Qed.

End EngineGates.

(** * Properties of the create command *)

Section Printing.

Lemma pretty_N_go_length (x : N) (s : string) :
  (String.length s ≤ String.length (pretty_N_go x s))%nat.
Proof.
  revert s. induction (N.lt_wf_0 x) as [x _ IH]; intros s.
  destruct (decide (x = 0%N)) as [->|Hx]; [by rewrite pretty_N_go_0|].
  rewrite pretty_N_go_step by lia.
  etrans; [|apply IH; apply N.div_lt; lia]. simpl. lia.
Qed.

Lemma pretty_positive_nonempty (p : positive) : pretty p ≠ "".
Proof.
  unfold pretty, pretty_positive, pretty, pretty_N.
  rewrite decide_False by done.
  rewrite pretty_N_go_step by lia. intros Hnil.
  pose proof (pretty_N_go_length (N.pos p `div` 10)
                (String (pretty_N_char (N.pos p `mod` 10)) "")) as Hlen.
  rewrite Hnil in Hlen. simpl in Hlen. lia.
Qed.

(** A number prints as a string that is not empty, hence truthy. *)
Lemma pretty_Z_truthy (z : Z) : JS.truthy (pretty z) = true.
Proof.
  unfold JS.truthy. rewrite bool_decide_eq_false_2; [done|].
  destruct z as [|p|p]; unfold pretty, pretty_Z; [done| |done].
  apply pretty_positive_nonempty.
Qed.

End Printing.

Section Parsing.
Import TelegramCommands.

Lemma span_length p s :
  (String.length (span p s).1 + String.length (span p s).2)%nat
  = String.length s.
Proof.
  induction s as [|c r IH]; [done|].
  simpl. destruct (p c); [|done].
  destruct (span p r) as [a b]. simpl in *. lia.
Qed.

Lemma matchQuoted_shorter s tok rest :
  matchQuoted s = Some (tok, rest) →
  (String.length rest < String.length s)%nat.
Proof.
  unfold matchQuoted. pose proof (span_length (λ c, negb (isQuote c)) s) as Hl.
  destruct (span _ s) as [a b]. simpl in Hl.
  destruct b as [|c b']; [done|].
  destruct (isQuote c && JS.truthy a); [|done].
  intros [= <- <-]. simpl in Hl. lia.
Qed.

Lemma matchWord_shorter s tok rest :
  matchWord s = Some (tok, rest) →
  (String.length rest < String.length s)%nat.
Proof.
  unfold matchWord. pose proof (span_length (λ c, negb (isSpace c)) s) as Hl.
  destruct (span _ s) as [a b]. simpl in Hl.
  destruct (JS.truthy a) eqn:Ha; [|done].
  intros [= <- <-]. destruct a; [done|]. simpl in Hl. lia.
Qed.

(** The fuel [parseCommandArguments] gives its loop is enough: any
    larger amount yields the same arguments. *)
Lemma tokens_fuel f1 f2 s :
  (String.length s ≤ f1)%nat → (String.length s ≤ f2)%nat →
  tokens f1 s = tokens f2 s.
Proof.
  revert f2 s. induction f1 as [|f1 IH]; intros f2 s H1 H2.
  { destruct s; [|simpl in H1; lia]. by destruct f2. }
  destruct f2 as [|f2].
  { destruct s; [done|simpl in H2; lia]. }
  destruct s as [|c r]; [done|]. simpl in H1, H2.
  assert (match matchWord (String c r) with
          | Some (tok, rest) => tok :: tokens f1 rest
          | None => tokens f1 r
          end
          = match matchWord (String c r) with
            | Some (tok, rest) => tok :: tokens f2 rest
            | None => tokens f2 r
            end) as Hword.
  { destruct (matchWord (String c r)) as [[tok rest]|] eqn:Hw.
    - apply matchWord_shorter in Hw. simpl in Hw. f_equal. apply IH; lia.
    - apply IH; lia. }
  cbn [tokens]. destruct (isQuote c); [|exact Hword].
  destruct (matchQuoted r) as [[tok rest]|] eqn:Hq; [|exact Hword].
  apply matchQuoted_shorter in Hq. f_equal. apply IH; lia.
Qed.

Lemma parseCommandArguments_fuel fuel text :
  (String.length text ≤ fuel)%nat →
  tokens fuel text = parseCommandArguments text.
Proof. intros Hf. by apply tokens_fuel. Qed.

End Parsing.

(** ** createUserSchedule *)

Section CreateUserSchedule.
Import ScheduleManager StoreProps CommandProps.

Implicit Types (m : ScheduleManager.t) (s : ScheduleConfig) (r : Request).

(** [addSchedule] fills in the id and [createdAt] and nothing else. *)
Lemma addSchedule_result tId tAt s m :
  let s' := (addSchedule tId tAt s m).1 in
  name s' = name s ∧ cronExpression s' = cronExpression s
  ∧ enabled s' = enabled s ∧ fetchType s' = fetchType s
  ∧ createdBy s' = createdBy s ∧ discord s' = discord s
  ∧ telegram s' = telegram s.
Proof.
  unfold addSchedule. simpl.
  destruct (JS.truthy (id s)); simpl;
    match goal with |- context [if ?b then _ else _] => destruct b end; done.
Qed.

Lemma addSchedule_persists tId tAt s m :
  let res := addSchedule tId tAt s m in
  schedules res.2 = schedules m ++ [res.1]
  ∧ file res.2 = Some (mkScheduleStore (schedules res.2) 1).
Proof. done. Qed.

(** The record that [createUserSchedule] builds: enabled, stamped with
    the caller, and with the destination block of its platform when the
    request carries that destination, and no block otherwise. *)
Lemma newSchedule_fields tId rnd tAt r :
  let s := newSchedule tId rnd tAt r in
  name s = req_name r ∧ cronExpression s = req_cronExpression r
  ∧ enabled s = true ∧ fetchType s = req_fetchType r
  ∧ createdBy s
    = Some (mkCreatedBy (req_platform r) (req_userId r) (req_username r)).
Proof.
  unfold newSchedule.
  destruct (bool_decide (req_platform r = Discord) && _); [done|].
  destruct (bool_decide (req_platform r = Telegram) && _); done.
Qed.

Lemma newSchedule_no_destination tId rnd tAt r :
  JS.truthy_opt (destinationField r) = false →
  discord (newSchedule tId rnd tAt r) = None
  ∧ telegram (newSchedule tId rnd tAt r) = None.
Proof.
  unfold destinationField, newSchedule. intros Hd.
  destruct (req_platform r); simpl; rewrite Hd; done.
Qed.

Lemma newSchedule_telegram tId rnd tAt r c :
  req_platform r = Telegram → req_chatId r = Some c → JS.truthy c = true →
  discord (newSchedule tId rnd tAt r) = None
  ∧ telegram (newSchedule tId rnd tAt r) = Some (mkTelegramTarget c).
Proof.
  unfold newSchedule. intros -> -> Hc. simpl. by rewrite Hc.
Qed.

(** The claim of C2 about the creation path fails: a request for the
    discord platform that carries no channel id yields a record with
    neither destination block, and the record is stored. *)
Lemma createUserSchedule_stores_without_destination :
  ¬ (∀ tId rnd tAt tAdd1 tAdd2 r m,
       discord (newSchedule tId rnd tAt r) = None →
       telegram (newSchedule tId rnd tAt r) = None →
       schedules (createUserSchedule tId rnd tAt tAdd1 tAdd2 r m).2
       = schedules m).
Proof.
  intros Hrej.
  specialize (Hrej 1700000000000 123 1700000000001 0 0
    (mkRequest "X" Nft "0 * * * *" Discord None None None "u1" None)
    ScheduleManager.new eq_refl eq_refl).
  vm_compute in Hrej. discriminate Hrej.
Qed.

End CreateUserSchedule.

(** ** handleCreateSchedule *)

Section HandleCreate.
Context `{NodeCronLib}.
Import ScheduleManager TelegramCommands CommandProps.

Implicit Types (rd : Reads) (ctx : Context)
  (st : ScheduleManager.t * SchedulerService.t).

(** The validation flag is cleared by an exception only. *)
Lemma isValidCron_false c : isValidCron c = false ↔ c = JS.Thrown.
Proof. by destruct c. Qed.

(** The library's [validate] answers with a boolean, so the flag stays
    set whatever the expression. *)
Lemma isValidCron_validate e : isValidCron (NodeCron.validate e) = true.
Proof. done. Qed.

(** What the command does, by cases: it rejects and leaves the store
    and the engine alone, or it stores a record whose expression is the
    resolved second argument and hands the record to the engine. *)
Lemma handleCreateSchedule_outcome rd ctx st :
  let res := handleCreateSchedule rd ctx st in
  let args := tail (parseCommandArguments (default "" (message_text ctx))) in
  ((res.1 = Usage ∨ res.1 = InvalidType ∨ res.1 = NoChatId ∨ res.1 = NoUserId)
   ∧ res.2 = st)
  ∨ (∃ s,
       res.1 = Created s (cronDescription (cronExpression s))
       ∧ cronExpression s = resolveFrequency (default "daily" (args !! 1%nat))
       ∧ schedules res.2.1 = schedules st.1 ++ [s]
       ∧ file res.2.1 = Some (mkScheduleStore (schedules st.1 ++ [s]) 1)
       ∧ res.2.2 = SchedulerService.addSchedule s st.2).
Proof.
  unfold handleCreateSchedule. cbv zeta.
  destruct (tail (parseCommandArguments (default "" (message_text ctx))))
    as [|arg0 rest] eqn:Hargs.
  { left. split; [by left|done]. }
  destruct (negb (JS.str_eq (toLowerCase arg0) "artist")
            && negb (JS.str_eq (toLowerCase arg0) "nft")).
  { left. split; [by right; left|done]. }
  rewrite isValidCron_validate. cbn [negb].
  destruct (negb (JS.truthy_opt _)).
  { left. split; [by right; right; left|done]. }
  destruct (negb (JS.truthy_opt _)).
  { left. split; [by right; right; right|done]. }
  right.
  match goal with
  | |- context [createUserSchedule ?a ?b ?c ?d ?e ?r ?m] =>
      pose proof (addSchedule_result d e (newSchedule a b c r) m) as Hres;
      pose proof (newSchedule_fields a b c r) as Hnew;
      change (createUserSchedule a b c d e r m)
        with (addSchedule d e (newSchedule a b c r) m) in *;
      destruct (addSchedule d e (newSchedule a b c r) m) as [s m'] eqn:Hadd;
      pose proof (addSchedule_persists d e (newSchedule a b c r) m) as Hper;
      rewrite Hadd in Hper
  end.
  cbv zeta in Hres, Hnew, Hper. simpl in Hres, Hper.
  destruct Hres as (_ & Hcron & _), Hnew as (_ & Hcron' & _), Hper as [Hs Hf].
  simpl in Hcron'. rewrite Hcron' in Hcron.
  exists s. simpl. rewrite Hcron. split_and!; try done.
  by rewrite Hf, Hs.
Qed.

(** The command never answers that the format is invalid. *)
Lemma handleCreateSchedule_never_invalid rd ctx st :
  (handleCreateSchedule rd ctx st).1 ≠ InvalidScheduleFormat.
Proof.
  destruct (handleCreateSchedule_outcome rd ctx st)
    as [[Hr _]|(s & Hr & _)]; rewrite ?Hr; [|done].
  destruct Hr as [->| [->| [->| ->]]]; done.
Qed.

(** Without a chat the command stores nothing. *)
Lemma handleCreateSchedule_no_chat rd ctx st :
  chat ctx = None →
  rejects (handleCreateSchedule rd ctx st).1
  ∧ (handleCreateSchedule rd ctx st).2 = st.
Proof.
  intros Hchat. unfold handleCreateSchedule, rejects. cbv zeta.
  destruct (tail _) as [|arg0 rest]; [by split; [left|]|].
  destruct (negb _ && negb _); [by split; [right; left|]|].
  rewrite isValidCron_validate, Hchat. simpl.
  split; [|done]. by do 3 right; left.
Qed.

End HandleCreate.


(** ** The Discord create subcommand *)

Section DiscordCreate.
Context `{NodeCronLib}.
Import ScheduleManager DiscordCommands.

(** The subcommand has the same validation block, and so never answers
    that the expression is invalid: it stores a record for whatever the
    [cron] option holds. *)
Lemma discord_create_always_stores rd interaction channel st :
  let res := handleCreateSchedule rd interaction channel st in
  let cron :=
    JS.or_else (opt_cron (options interaction))
      (JS.or_else (opt_frequency (options interaction)) "0 12 * * *") in
  ∃ s,
    res.1 = Created s (prettyPrintCron cron)
    ∧ cronExpression s = cron
    ∧ schedules res.2.1 = schedules st.1 ++ [s]
    ∧ res.2.2 = SchedulerService.addSchedule s st.2.
Proof.
  unfold handleCreateSchedule. cbv zeta.
  change (isValidCron (NodeCron.validate ?e)) with true. cbn [negb].
  match goal with
  | |- context [createUserSchedule ?a ?b ?c ?d ?e ?r ?m] =>
      pose proof (addSchedule_result d e (newSchedule a b c r) m) as Hres;
      pose proof (newSchedule_fields a b c r) as Hnew;
      change (createUserSchedule a b c d e r m)
        with (addSchedule d e (newSchedule a b c r) m) in *;
      pose proof (addSchedule_persists d e (newSchedule a b c r) m) as Hper;
      destruct (addSchedule d e (newSchedule a b c r) m) as [s m'] eqn:Hadd
  end.
  cbv zeta in Hres, Hnew, Hper. simpl in Hres, Hper.
  destruct Hres as (_ & Hcron & _), Hnew as (_ & Hcron' & _), Hper as [Hs _].
  simpl in Hcron'. rewrite Hcron' in Hcron.
  exists s. simpl. by split_and!.
Qed.

End DiscordCreate.

(** * The create command and the gates on destinations *)

Section CreateCommand.
Import ScheduleManager TelegramCommands CommandProps EngineProps.

(** C1.  The claim fails at the example of the command's help text:
    the second argument of [/schedule_create nft every 15 minutes] is
    the word [every], no preset and no cron expression.  Whatever the
    timer library thinks of it, [validate] answers with a boolean, the
    flag of the command stays set, and the command stores a record with
    that expression, writes the file and answers that the schedule was
    created; where the library refuses the expression the engine then
    creates no timer for the record. *)
Theorem invalid_cron_is_stored (lib : NodeCronLib) :
  let res := handleCreateSchedule reads0 every15
               (ScheduleManager.new, ready) in
  NodeCron.validate "every" = JS.Returned (pattern_ok "every")
  ∧ res.1 = Created storedEvery "every"
  ∧ res.2.1 = ScheduleManager.mk [storedEvery]
                (Some (mkScheduleStore [storedEvery] 1))
  ∧ res.2.2 = SchedulerService.addSchedule storedEvery ready
  ∧ (pattern_ok "every" = false → res.2.2 = ready).
Proof.
  intros res.
  assert (res = (Created storedEvery "every",
                 (ScheduleManager.mk [storedEvery]
                    (Some (mkScheduleStore [storedEvery] 1)),
                  SchedulerService.addSchedule storedEvery ready))) as ->.
  { subst res. unfold handleCreateSchedule.
    replace (tail (parseCommandArguments (default "" (message_text every15))))
      with ["nft"; "every"; "15"; "minutes"] by (by vm_compute).
    cbv zeta. rewrite isValidCron_validate. reflexivity. }
  split_and!; try done.
  intros Hbad. apply addSchedule_refused. unfold accepts.
  change (cronExpression storedEvery) with "every".
  rewrite Hbad. apply andb_false_r.
Qed.

(** C2, amended.  [createUserSchedule] has no rejection: it appends the
    record it builds and writes the file for every request, and the
    record has neither destination block when the request carries no
    destination for its platform.  A missing destination is rejected
    above it, by the create command, which stores nothing when the
    update has no chat.  The engine's [addSchedule] returns with the
    state as it was, no timer created, for every schedule whose channel
    id is empty or absent and whose chat id is empty or absent. *)
Theorem destination_gates `{NodeCronLib} :
  (∀ tId rnd tAt tAdd1 tAdd2 r m,
     let res := createUserSchedule tId rnd tAt tAdd1 tAdd2 r m in
     schedules res.2 = schedules m ++ [res.1]
     ∧ file res.2 = Some (mkScheduleStore (schedules res.2) 1)
     ∧ (JS.truthy_opt (destinationField r) = false →
          discord res.1 = None ∧ telegram res.1 = None))
  ∧ (∀ rd ctx st,
       chat ctx = None →
       rejects (handleCreateSchedule rd ctx st).1
       ∧ (handleCreateSchedule rd ctx st).2 = st)
  ∧ (∀ s e, noDestination s → SchedulerService.addSchedule s e = e).
Proof.
  split_and!.
  - intros tId rnd tAt tAdd1 tAdd2 r m res. subst res.
    unfold createUserSchedule. split_and!; [done..|].
    intros Hd.
    destruct (addSchedule_result tAdd1 tAdd2 (newSchedule tId rnd tAt r) m)
      as (_ & _ & _ & _ & _ & -> & ->).
    by apply newSchedule_no_destination.
  - intros rd ctx st. apply handleCreateSchedule_no_chat.
  - intros s e Hno%noTargets_spec. unfold SchedulerService.addSchedule.
    rewrite Hno. by repeat case_match.
Qed.

(** The claim of C7 fails: [addSchedule], called with a schedule that is
    not enabled, creates a timer for it. *)
Lemma addSchedule_ignores_enabled :
  ¬ (∀ (lib : NodeCronLib) ops,
       noDisabledTimer (SchedulerService.run ops SchedulerService.new)).
Proof.
  intros Hall.
  specialize (Hall presetPatterns
    [SchedulerService.SetTelegramSender 1%nat;
     SchedulerService.AddSchedule (hourly "a" false)]
    "a" 0%nat (NodeCron.mkTask "0 * * * *" (hourly "a" false) true)).
  discriminate Hall; by vm_compute.
Qed.

End CreateCommand.

(** * The properties at work on examples *)

Section Examples.
Import ScheduleManager TelegramCommands StoreProps EngineProps CommandProps.

(** The example of the help text, argument by argument. *)
Example parse_every15 :
  parseCommandArguments "/schedule_create nft every 15 minutes"
  = ["/schedule_create"; "nft"; "every"; "15"; "minutes"].
Proof. reflexivity. Qed.

(** A quoted phrase is one argument and is resolved to an expression. *)
Example parse_quoted :
  parseCommandArguments
    ("/schedule_create nft " +:+ String quote ("Every 15 Minutes" +:+ String quote ""))
  = ["/schedule_create"; "nft"; "Every 15 Minutes"]
  ∧ resolveFrequency "Every 15 Minutes" = "*/15 * * * *"
  ∧ resolveFrequency "every 7 hour" = "0 */7 * * *"
  ∧ resolveFrequency "every 60 minutes" = "every 60 minutes"
  ∧ resolveFrequency "WEEKLY" = "0 12 * * 1".
Proof. by vm_compute. Qed.

(** The generated id. *)
Example created_id :
  id (createUserSchedule 1700000000000 7 1700000000000 0 0
        (mkRequest "X" Nft "0 * * * *" Telegram None None (Some "123") "u1" None)
        ScheduleManager.new).1
  = "telegram-1700000000000-7".
Proof. by vm_compute. Qed.

Lemma invalid_cron_is_stored_witness :
  @pattern_ok presetPatterns "every" = false
  ∧ (@handleCreateSchedule presetPatterns reads0 every15
       (ScheduleManager.new, ready)).2
    = (ScheduleManager.mk [storedEvery]
         (Some (mkScheduleStore [storedEvery] 1)), ready).
Proof.
  destruct (invalid_cron_is_stored presetPatterns) as (_ & _ & Hm & _ & He).
  split; [reflexivity|].
  apply injective_projections; [exact Hm|]. apply He. reflexivity.
Defined.

Lemma destination_gates_witness :
  (JS.truthy_opt (destinationField noChannel) = false
   ∧ discord (createUserSchedule 1 2 3 4 5 noChannel ScheduleManager.new).1 = None
   ∧ telegram (createUserSchedule 1 2 3 4 5 noChannel ScheduleManager.new).1 = None)
  ∧ (chat noChat = None
     ∧ (@handleCreateSchedule presetPatterns reads0 noChat
          (ScheduleManager.new, ready)).2 = (ScheduleManager.new, ready))
  ∧ (noDestination inert
     ∧ @SchedulerService.addSchedule presetPatterns inert ready = ready).
Proof.
  destruct (@destination_gates presetPatterns) as (Hc & Hh & He).
  assert (noDestination inert) as Hinert by (split; left; reflexivity).
  split_and!.
  - reflexivity.
  - apply (Hc 1 2 3 4 5 noChannel ScheduleManager.new). reflexivity.
  - apply (Hc 1 2 3 4 5 noChannel ScheduleManager.new). reflexivity.
  - reflexivity.
  - apply (Hh reads0 noChat). reflexivity.
  - exact Hinert.
  - apply He. exact Hinert.
Defined.

Lemma updateSchedule_restores_creation_stamp_witness :
  ((∀ s, s ∈ schedules ScheduleManager.new → id s ≠ id renamed)
   ∧ updateSchedule renamed ScheduleManager.new = (None, ScheduleManager.new))
  ∧ (getSchedule (id renamed) oneRecord = Some (sample "a" (Some ann))
     ∧ ∃ r, (updateSchedule renamed oneRecord).1 = Some r
            ∧ overwritten renamed (sample "a" (Some ann)) r).
Proof.
  assert (∀ s, s ∈ schedules ScheduleManager.new → id s ≠ id renamed) as Hno.
  { intros s Hin. by apply elem_of_nil in Hin. }
  split; split.
  - exact Hno.
  - apply (updateSchedule_restores_creation_stamp renamed ScheduleManager.new).
    exact Hno.
  - reflexivity.
  - destruct (proj2 (updateSchedule_restores_creation_stamp renamed oneRecord)
                (sample "a" (Some ann)) eq_refl)
      as (index & r & Hr & _ & _ & _ & Hov & _).
    exists r. split; [exact Hr|exact Hov].
Defined.

Lemma canUserManageSchedule_spec_witness :
  ((∀ s, s ∈ schedules ScheduleManager.new → id s ≠ "a")
   ∧ canUserManageSchedule "a" Telegram "77" true ScheduleManager.new = false)
  ∧ (getSchedule "a" oneRecord = Some (sample "a" (Some ann))
     ∧ canUserManageSchedule "a" Discord "1" true oneRecord = true
     ∧ isCreator Telegram "77" (sample "a" (Some ann))
     ∧ canUserManageSchedule "a" Telegram "77" false oneRecord = true).
Proof.
  assert (∀ s, s ∈ schedules ScheduleManager.new → id s ≠ "a") as Hno.
  { intros s Hin. by apply elem_of_nil in Hin. }
  assert (isCreator Telegram "77" (sample "a" (Some ann))) as Hann.
  { exists ann. split_and!; reflexivity. }
  split; split_and!.
  - exact Hno.
  - apply (canUserManageSchedule_spec "a" Telegram "77" true ScheduleManager.new).
    exact Hno.
  - reflexivity.
  - apply (proj1 (proj2 (canUserManageSchedule_spec "a" Discord "1" true oneRecord)
                    (sample "a" (Some ann)) eq_refl)). reflexivity.
  - exact Hann.
  - apply (proj2 (proj2 (canUserManageSchedule_spec "a" Telegram "77" false oneRecord)
                    (sample "a" (Some ann)) eq_refl)); [reflexivity|exact Hann].
Defined.

Lemma canUserManageSchedule_no_creator_witness :
  getSchedule "a" orphanRecord = Some (sample "a" None)
  ∧ createdBy (sample "a" None) = None
  ∧ canUserManageSchedule "a" Telegram "77" false orphanRecord = false
  ∧ canUserManageSchedule "a" Telegram "77" true orphanRecord = true.
Proof.
  split; [reflexivity|]. split; [reflexivity|].
  apply (proj1 (canUserManageSchedule_no_creator orphanRecord)
           "a" (sample "a" None)); reflexivity.
Defined.

Lemma getDiscordChannelSchedules_no_block_witness :
  discord (sample "a" None) = None
  ∧ sample "a" None ∈ schedules orphanRecord
  ∧ sample "a" None ∈ getDiscordChannelSchedules "" (Some "guild") orphanRecord.
Proof.
  assert (sample "a" None ∈ schedules orphanRecord) as Hin by apply list_elem_of_here.
  split; [reflexivity|]. split; [exact Hin|].
  apply (getDiscordChannelSchedules_no_block orphanRecord "" (Some "guild")
           (sample "a" None)); [reflexivity|exact Hin].
Defined.

Lemma store_ids_unique_when_fresh_witness :
  NoDup (ids oneRecord)
  ∧ ids (updateSchedule renamed oneRecord).2 = ids oneRecord
  ∧ NoDup (ids (deleteSchedule "a" oneRecord).2)
  ∧ NoDup (ids (addSchedule 3 4 (sample "b" None) oneRecord).2).
Proof.
  assert (NoDup (ids oneRecord)) as Hnd by apply NoDup_singleton.
  destruct (store_ids_unique_when_fresh oneRecord Hnd) as (Hu & Hd & Ha & _).
  split_and!.
  - exact Hnd.
  - apply Hu.
  - apply Hd.
  - apply Ha. intros Hin%list_elem_of_singleton. discriminate Hin.
Defined.

Lemma addSchedule_at_most_one_timer_witness :
  let e := @SchedulerService.run presetPatterns
             [SchedulerService.SetTelegramSender 1%nat;
              SchedulerService.AddSchedule (hourly "a" true)]
             SchedulerService.new in
  is_Some (SchedulerService.scheduledTasks e !! id (hourly "a" true))
  ∧ @SchedulerService.addSchedule presetPatterns (hourly "a" true) e = e
  ∧ length (SchedulerService.liveTimers "a"
              (Nat.iter 3 (@SchedulerService.addSchedule presetPatterns
                             (hourly "a" true)) e)) = 1%nat.
Proof.
  intros e.
  assert (is_Some (SchedulerService.scheduledTasks e !! id (hourly "a" true)))
    as Hin by (exists 0%nat; reflexivity).
  destruct (@addSchedule_at_most_one_timer presetPatterns
              [SchedulerService.SetTelegramSender 1%nat;
               SchedulerService.AddSchedule (hourly "a" true)]
              (hourly "a" true) 2) as (Hnoop & _ & _ & Hcount).
  split_and!.
  - exact Hin.
  - apply Hnoop. exact Hin.
  - exact Hcount.
Defined.

Lemma updateSchedule_is_remove_then_add_witness :
  (enabled (hourly "a" true) = true
   ∧ @SchedulerService.updateSchedule presetPatterns (hourly "a" true) ready
     = @SchedulerService.addSchedule presetPatterns (hourly "a" true)
         (@SchedulerService.removeSchedule "a" ready).2)
  ∧ (enabled (hourly "a" false) = false
     ∧ @SchedulerService.updateSchedule presetPatterns (hourly "a" false) ready
       = (@SchedulerService.removeSchedule "a" ready).2).
Proof.
  split; (split; [reflexivity|]).
  - apply (@updateSchedule_is_remove_then_add presetPatterns). reflexivity.
  - apply (@updateSchedule_is_remove_then_add presetPatterns). reflexivity.
Defined.

Lemma no_disabled_timer_when_adds_enabled_witness :
  let ops := [SchedulerService.SetTelegramSender 1%nat;
              SchedulerService.AddScheduledTasks
                [hourly "a" true; hourly "b" false];
              SchedulerService.UpdateSchedule (hourly "a" false);
              SchedulerService.AddSchedule (hourly "c" true)] in
  Forall addsEnabled ops
  ∧ noDisabledTimer (@SchedulerService.run presetPatterns ops SchedulerService.new).
Proof.
  intros ops.
  assert (Forall addsEnabled ops) as Hops.
  { repeat constructor. }
  split; [exact Hops|].
  apply (@no_disabled_timer_when_adds_enabled presetPatterns ops Hops).
Defined.

End Examples.

(** * Further properties of the store *)

Section ListFacts.
Context {A : Type}.

Lemma filter_keeps_all (f : A → bool) (l : list A) :
  length (List.filter f l) = length l → List.filter f l = l.
Proof.
  induction l as [|x l IH]; [done|]. simpl.
  pose proof (filter_length_le f l) as Hle.
  destruct (f x); simpl; intros Hlen; [f_equal; apply IH; lia|lia].
Qed.

Lemma filter_drops_some (f : A → bool) (l : list A) :
  length (List.filter f l) ≠ length l ↔ ∃ x, x ∈ l ∧ f x = false.
Proof.
  induction l as [|x l IH]; simpl.
  - split; [done|]. intros (x & Hx & _). by apply elem_of_nil in Hx.
  - pose proof (filter_length_le f l) as Hle.
    destruct (f x) eqn:Hfx; simpl.
    + split.
      * intros Hne. destruct (proj1 IH) as (y & Hy & Hfy); [lia|].
        exists y. split; [by right|done].
      * intros (y & [->|Hy]%elem_of_cons & Hfy); [congruence|].
        assert (length (List.filter f l) ≠ length l) by (apply IH; eauto). lia.
    + split; [|lia]. intros _. exists x. split; [left|done].
Qed.

(** The first element with a property survives a filter that keeps every
    element with the property. *)
Lemma list_find_filter (P : A → Prop) `{∀ x, Decision (P x)}
    (f : A → bool) (l : list A) :
  (∀ x, P x → f x = true) →
  snd <$> list_find P (List.filter f l) = snd <$> list_find P l.
Proof.
  intros Hkeep. induction l as [|x l IH]; [done|].
  cbn [List.filter list_find]. destruct (decide (P x)) as [HP|HP].
  - rewrite (Hkeep x HP). cbn [list_find]. by rewrite decide_True.
  - destruct (f x); cbn [list_find].
    + rewrite decide_False by done.
      rewrite <- !option_fmap_compose. rewrite !option_fmap_compose.
      destruct (list_find P (List.filter f l)) as [[k y]|],
        (list_find P l) as [[k' y']|]; simpl in *; congruence.
    + rewrite IH. by destruct (list_find P l) as [[k' y']|].
Qed.

End ListFacts.

Section StoreDelete.
Import ScheduleManager StoreProps.

Implicit Types (m : ScheduleManager.t) (s : ScheduleConfig) (i j : string).

Lemma deleteSchedule_true_iff i m :
  (deleteSchedule i m).1 = true ↔ ∃ s, s ∈ schedules m ∧ id s = i.
Proof.
  unfold deleteSchedule.
  destruct (negb (length _ =? length _)%nat) eqn:Hlen; simpl.
  - split; [intros _|done].
    apply negb_true_iff, Nat.eqb_neq, filter_drops_some in Hlen
      as (s & Hs & Hf).
    exists s. split; [done|].
    unfold JS.str_eq in Hf. by apply negb_false_iff, bool_decide_eq_true in Hf.
  - split; [done|]. intros (s & Hs & Hid). exfalso.
    apply negb_false_iff, Nat.eqb_eq in Hlen.
    assert (length (List.filter (λ s, negb (JS.str_eq (id s) i)) (schedules m))
            ≠ length (schedules m)); [|done].
    apply filter_drops_some. exists s. split; [done|].
    unfold JS.str_eq. by rewrite bool_decide_eq_true_2.
Qed.

Lemma deleteSchedule_gone i m : getSchedule i (deleteSchedule i m).2 = None.
Proof.
  apply getSchedule_None. intros s. rewrite deleteSchedule_schedules.
  rewrite list_elem_of_In, filter_In. intros [_ Hf] Hid.
  unfold JS.str_eq in Hf. by rewrite bool_decide_eq_true_2 in Hf.
Qed.

Lemma deleteSchedule_other i j m :
  j ≠ i → getSchedule j (deleteSchedule i m).2 = getSchedule j m.
Proof.
  intros Hj. unfold getSchedule. rewrite deleteSchedule_schedules.
  apply list_find_filter. intros s Hs. unfold JS.str_eq.
  rewrite bool_decide_eq_false_2; [done|congruence].
Qed.

Lemma deleteSchedule_written i m :
  (deleteSchedule i m).1 = true →
  file (deleteSchedule i m).2
  = Some (mkScheduleStore (schedules (deleteSchedule i m).2) 1).
Proof. unfold deleteSchedule. by destruct (negb _). Qed.

Lemma deleteSchedule_unchanged i m :
  (deleteSchedule i m).1 = false → (deleteSchedule i m).2 = m.
Proof.
  unfold deleteSchedule.
  destruct (negb (length _ =? length _)%nat) eqn:Hlen; [done|].
  intros _. simpl.
  apply negb_false_iff, Nat.eqb_eq, filter_keeps_all in Hlen.
  rewrite Hlen. by destruct m.
Qed.

(** X1.  [deleteSchedule] answers true exactly when some stored record has
    the id.  Afterwards the id resolves to nothing, every other id
    resolves as before, and the file is written when something was
    removed; when nothing was removed, the manager is as it was, file
    included. *)
Theorem deleteSchedule_spec i m :
  ((deleteSchedule i m).1 = true ↔ ∃ s, s ∈ schedules m ∧ id s = i)
  ∧ getSchedule i (deleteSchedule i m).2 = None
  ∧ (∀ j, j ≠ i → getSchedule j (deleteSchedule i m).2 = getSchedule j m)
  ∧ ((deleteSchedule i m).1 = true →
       file (deleteSchedule i m).2
       = Some (mkScheduleStore (schedules (deleteSchedule i m).2) 1))
  ∧ ((deleteSchedule i m).1 = false → (deleteSchedule i m).2 = m).
Proof.
  split_and!.
  - apply deleteSchedule_true_iff.
  - apply deleteSchedule_gone.
  - intros j. apply deleteSchedule_other.
  - apply deleteSchedule_written.
  - apply deleteSchedule_unchanged.
Qed.

End StoreDelete.

Section StoreAdd.
Import ScheduleManager StoreProps.

Implicit Types (m : ScheduleManager.t) (s : ScheduleConfig) (i j : string).

(** X2.  [addSchedule] stores the record under a non-empty id: the id it
    came with, or the clock read when it came with none; [createdAt] is
    kept unless it is zero, and no other field changes.  When no stored
    record has that id, the id resolves to the new record afterwards;
    when one has, the older record keeps answering for the id.  Every
    other id resolves as before. *)
Theorem addSchedule_then_getSchedule tId tAt s m :
  let s' := (addSchedule tId tAt s m).1 in
  let m' := (addSchedule tId tAt s m).2 in
  id s' ≠ ""
  ∧ id s' = (if bool_decide (id s = "") then pretty tId else id s)
  ∧ createdAt s' = (if bool_decide (createdAt s = 0) then tAt else createdAt s)
  ∧ (id s' ∉ ids m → getSchedule (id s') m' = Some s')
  ∧ (∀ old, getSchedule (id s') m = Some old → getSchedule (id s') m' = Some old)
  ∧ (∀ j, j ≠ id s' → getSchedule j m' = getSchedule j m).
Proof.
  intros s' m'.
  assert (id s' = (if bool_decide (id s = "") then pretty tId else id s)) as Hid.
  { subst s'. unfold addSchedule, JS.truthy. simpl.
    destruct (bool_decide (id s = "")); simpl;
      match goal with |- context [if ?b then _ else _] => destruct b end; done. }
  assert (createdAt s'
          = (if bool_decide (createdAt s = 0) then tAt else createdAt s)) as Hat.
  { subst s'. unfold addSchedule, JS.truthy_num. simpl.
    destruct (JS.truthy (id s)); simpl.
    - destruct (decide (createdAt s = 0)) as [H0|H0].
      + rewrite bool_decide_eq_true_2, H0 by done. done.
      + rewrite bool_decide_eq_false_2 by done.
        apply Z.eqb_neq in H0. by rewrite H0.
    - destruct (decide (createdAt s = 0)) as [H0|H0].
      + rewrite bool_decide_eq_true_2, H0 by done. done.
      + rewrite bool_decide_eq_false_2 by done.
        apply Z.eqb_neq in H0. by rewrite H0. }
  assert (schedules m' = schedules m ++ [s']) as Hm' by done.
  split_and!; try done.
  - rewrite Hid. destruct (decide (id s = "")) as [Hempty|Hempty].
    + rewrite bool_decide_eq_true_2 by done.
      pose proof (pretty_Z_truthy tId) as Ht. unfold JS.truthy in Ht.
      by apply negb_true_iff, bool_decide_eq_false in Ht.
    + by rewrite bool_decide_eq_false_2.
  - intros Hfresh. apply getSchedule_find. exists (length (schedules m)).
    rewrite Hm'. apply list_find_Some. split_and!.
    + by apply list_lookup_middle.
    + done.
    + intros k y Hk Hlt Hy. apply Hfresh. unfold ids.
      rewrite lookup_app_l in Hk by done.
      apply list_elem_of_fmap. exists y. split; [done|].
      by eapply list_elem_of_lookup_2.
  - intros old [k Hf]%getSchedule_find. apply getSchedule_find. exists k.
    rewrite Hm'. by apply list_find_app_l.
  - intros j Hj. unfold getSchedule. rewrite Hm'.
    destruct (list_find (λ x, id x = j) (schedules m)) as [[k y]|] eqn:Hf.
    + by rewrite (list_find_app_l _ _ _ _ _ Hf).
    + rewrite list_find_app_r by done. simpl.
      by rewrite decide_False by done.
Qed.

End StoreAdd.


Section StoreListings.
Import ScheduleManager StoreProps CommandProps.

Implicit Types (m : ScheduleManager.t) (s : ScheduleConfig) (r : Request).

Lemma createUserSchedule_schedules tId rnd tAt tAdd1 tAdd2 r m :
  schedules (createUserSchedule tId rnd tAt tAdd1 tAdd2 r m).2
  = schedules m ++ [(createUserSchedule tId rnd tAt tAdd1 tAdd2 r m).1].
Proof. done. Qed.

Lemma createUserSchedule_fields tId rnd tAt tAdd1 tAdd2 r m :
  let s := (createUserSchedule tId rnd tAt tAdd1 tAdd2 r m).1 in
  name s = req_name r ∧ cronExpression s = req_cronExpression r
  ∧ enabled s = true ∧ fetchType s = req_fetchType r
  ∧ createdBy s
    = Some (mkCreatedBy (req_platform r) (req_userId r) (req_username r))
  ∧ discord s = discord (newSchedule tId rnd tAt r)
  ∧ telegram s = telegram (newSchedule tId rnd tAt r).
Proof.
  unfold createUserSchedule.
  destruct (addSchedule_result tAdd1 tAdd2 (newSchedule tId rnd tAt r) m)
    as (-> & -> & -> & -> & -> & -> & ->).
  destruct (newSchedule_fields tId rnd tAt r) as (-> & -> & -> & -> & ->).
  done.
Qed.

Lemma createUserSchedule_telegram_lists tId rnd tAt tAdd1 tAdd2 r m c :
  req_platform r = Telegram → req_chatId r = Some c → c ≠ "" →
  getTelegramChatSchedules c (createUserSchedule tId rnd tAt tAdd1 tAdd2 r m).2
  = getTelegramChatSchedules c m
    ++ [(createUserSchedule tId rnd tAt tAdd1 tAdd2 r m).1]
  ∧ telegram (createUserSchedule tId rnd tAt tAdd1 tAdd2 r m).1
    = Some (mkTelegramTarget c).
Proof.
  intros Hp Hc Hne.
  destruct (createUserSchedule_fields tId rnd tAt tAdd1 tAdd2 r m)
    as (_ & _ & _ & _ & _ & _ & Ht).
  destruct (newSchedule_telegram tId rnd tAt r c Hp Hc) as [_ Ht'].
  { unfold JS.truthy. by rewrite bool_decide_eq_false_2. }
  rewrite Ht' in Ht. split; [|done].
  unfold getTelegramChatSchedules.
  rewrite createUserSchedule_schedules, List.filter_app. f_equal.
  set (s := (createUserSchedule tId rnd tAt tAdd1 tAdd2 r m).1) in *.
  simpl. unfold telegram_chatId. rewrite Ht. simpl.
  by rewrite bool_decide_eq_true_2.
Qed.

(** X3.  A record created for a Telegram chat is enabled, has the chat as
    its only destination, and is appended to what
    [getTelegramChatSchedules] answers for that chat; the answers for
    every other chat are as before, and no query for a Discord channel
    that is not empty finds it. *)
Theorem createUserSchedule_telegram_listed tId rnd tAt tAdd1 tAdd2 r m c :
  req_platform r = Telegram → req_chatId r = Some c → c ≠ "" →
  let s := (createUserSchedule tId rnd tAt tAdd1 tAdd2 r m).1 in
  let m' := (createUserSchedule tId rnd tAt tAdd1 tAdd2 r m).2 in
  enabled s = true ∧ discord s = None ∧ telegram s = Some (mkTelegramTarget c)
  ∧ getTelegramChatSchedules c m' = getTelegramChatSchedules c m ++ [s]
  ∧ (∀ c', c' ≠ c → getTelegramChatSchedules c' m' = getTelegramChatSchedules c' m)
  ∧ (∀ channel guild, channel ≠ "" →
       getDiscordChannelSchedules channel guild m'
       = getDiscordChannelSchedules channel guild m).
Proof.
  intros Hp Hc Hne s m'.
  destruct (createUserSchedule_fields tId rnd tAt tAdd1 tAdd2 r m)
    as (_ & _ & Hen & _ & _ & Hd & Ht).
  destruct (newSchedule_telegram tId rnd tAt r c Hp Hc) as [Hd' Ht'].
  { unfold JS.truthy. by rewrite bool_decide_eq_false_2. }
  fold s in Hen, Hd, Ht. rewrite Hd' in Hd. rewrite Ht' in Ht.
  assert (schedules m' = schedules m ++ [s]) as Hm' by done.
  split_and!; try done.
  - unfold getTelegramChatSchedules. rewrite Hm', List.filter_app. f_equal.
    simpl. unfold telegram_chatId. rewrite Ht. simpl.
    by rewrite bool_decide_eq_true_2.
  - intros c' Hc'. unfold getTelegramChatSchedules.
    rewrite Hm', List.filter_app. simpl. unfold telegram_chatId. rewrite Ht. simpl.
    rewrite bool_decide_eq_false_2 by congruence. by rewrite app_nil_r.
  - intros channel guild Hch. unfold getDiscordChannelSchedules.
    rewrite Hm', List.filter_app. simpl.
    rewrite discordMatches_no_block by done.
    rewrite bool_decide_eq_false_2 by done. by rewrite app_nil_r.
Qed.

Lemma truthy_opt_normal (g : option string) :
  JS.truthy_opt (if JS.truthy_opt g then g else None) = JS.truthy_opt g.
Proof. by destruct (JS.truthy_opt g) eqn:Hg. Qed.

(** The guild test of [getDiscordChannelSchedules] for a record stored
    with channel [channel] and guild [g]. *)
Lemma discordMatches_block channel g g' s :
  channel ≠ "" → discord s = Some (mkDiscordTarget channel g) →
  discordMatches channel g' s = true
  ↔ JS.truthy_opt g' = false ∨ JS.truthy_opt g = false ∨ g' = g.
Proof.
  intros Hch Hd. unfold discordMatches, discord_channelId, discord_guildId.
  rewrite Hd. cbn [fmap option_fmap option_map mbind option_bind channelId guildId default].
  rewrite !truthy_opt_normal.
  replace (JS.truthy_opt (Some channel)) with true
    by (simpl; unfold JS.truthy; by rewrite bool_decide_eq_false_2).
  unfold JS.str_eq. rewrite bool_decide_eq_true_2 by done.
  unfold JS.opt_str_eq. cbn [andb].
  destruct (JS.truthy_opt g') eqn:Hg'; cbn [negb orb]; [|by split; [left|]].
  destruct (JS.truthy_opt g) eqn:Hg; cbn [negb orb].
  - rewrite orb_false_r, bool_decide_eq_true. split; [by right; right|].
    intros [|[|]]; congruence.
  - split; [by right; left|]. intros _. apply orb_true_r.
Qed.

(** X4.  A record created for a Discord channel is appended to what
    [getDiscordChannelSchedules] answers for that channel when the query
    names no guild, when the record has no guild, or when the two guilds
    are the same, and it is left out when query and record name
    different guilds; queries for other channels and for Telegram chats
    answer as before. *)
Theorem createUserSchedule_discord_listed tId rnd tAt tAdd1 tAdd2 r m channel :
  req_platform r = Discord → req_channelId r = Some channel → channel ≠ "" →
  let s := (createUserSchedule tId rnd tAt tAdd1 tAdd2 r m).1 in
  let m' := (createUserSchedule tId rnd tAt tAdd1 tAdd2 r m).2 in
  discord s = Some (mkDiscordTarget channel (req_guildId r))
  ∧ telegram s = None
  ∧ (∀ g', JS.truthy_opt g' = false ∨ JS.truthy_opt (req_guildId r) = false
           ∨ g' = req_guildId r →
       getDiscordChannelSchedules channel g' m'
       = getDiscordChannelSchedules channel g' m ++ [s])
  ∧ (∀ g', JS.truthy_opt g' = true → JS.truthy_opt (req_guildId r) = true →
           g' ≠ req_guildId r →
       getDiscordChannelSchedules channel g' m'
       = getDiscordChannelSchedules channel g' m)
  ∧ (∀ other g', other ≠ channel →
       getDiscordChannelSchedules other g' m'
       = getDiscordChannelSchedules other g' m)
  ∧ (∀ c, getTelegramChatSchedules c m' = getTelegramChatSchedules c m).
Proof.
  intros Hp Hc Hne s m'.
  destruct (createUserSchedule_fields tId rnd tAt tAdd1 tAdd2 r m)
    as (_ & _ & _ & _ & _ & Hd & Ht).
  fold s in Hd, Ht.
  assert (discord (newSchedule tId rnd tAt r)
          = Some (mkDiscordTarget channel (req_guildId r))
          ∧ telegram (newSchedule tId rnd tAt r) = None) as [Hd' Ht'].
  { unfold newSchedule. rewrite Hp, Hc. simpl. unfold JS.truthy.
    by rewrite bool_decide_eq_false_2. }
  rewrite Hd' in Hd. rewrite Ht' in Ht.
  assert (schedules m' = schedules m ++ [s]) as Hm' by done.
  split_and!; try done.
  - intros g' Hg. unfold getDiscordChannelSchedules.
    rewrite Hm', List.filter_app. f_equal. simpl.
    by rewrite (proj2 (discordMatches_block channel _ g' s Hne Hd) Hg).
  - intros g' Hg1 Hg2 Hg3. unfold getDiscordChannelSchedules.
    rewrite Hm', List.filter_app. simpl.
    destruct (discordMatches channel g' s) eqn:Hm; [|by rewrite app_nil_r].
    apply (discordMatches_block channel _ g' s Hne Hd) in Hm.
    destruct Hm as [|[|]]; congruence.
  - intros other g' Ho. unfold getDiscordChannelSchedules.
    rewrite Hm', List.filter_app. simpl.
    replace (discordMatches other g' s) with false; [by rewrite app_nil_r|].
    unfold discordMatches, discord_channelId. rewrite Hd. simpl.
    unfold JS.truthy at 1. rewrite bool_decide_eq_false_2 by done. simpl.
    unfold JS.str_eq. by rewrite bool_decide_eq_false_2.
  - intros c. unfold getTelegramChatSchedules. rewrite Hm', List.filter_app. simpl.
    unfold telegram_chatId. rewrite Ht. simpl. by rewrite app_nil_r.
Qed.

End StoreListings.

Section StoreRestart.
Import ScheduleManager ScheduleManagerIO StoreProps MoreProps.

Implicit Types (m : ScheduleManager.t).

Lemma exec_fileInSync o m : fileInSync m → fileInSync (exec o m).
Proof.
  intros Hm. destruct o as [tId tAt s|tId rnd tAt a1 a2 r|u|i]; simpl.
  - done.
  - done.
  - unfold updateSchedule. by destruct (list_find _ _) as [[k x]|].
  - destruct (deleteSchedule i m).1 eqn:Hdel.
    + unfold fileInSync. by rewrite (deleteSchedule_written i m Hdel).
    + by rewrite (deleteSchedule_unchanged i m Hdel).
Qed.

Lemma run_fileInSync ops m : fileInSync m → fileInSync (run ops m).
Proof.
  revert m. induction ops as [|o ops IH]; intros m Hm; [done|].
  simpl. by apply IH, exec_fileInSync.
Qed.

(** X5.  After any run of the mutating operations on a new manager, a
    fresh manager that loads the file the first one left reads back the
    very list the first one held, in order: a deletion that removes
    nothing skips the write without letting file and memory drift apart.
    A file that does not parse, or a document without a [schedules]
    member, loads as the empty list. *)
Theorem loadSchedules_after_run ops :
  let m := run ops ScheduleManager.new in
  (loadSchedules (onDisk m) ScheduleManager.new).1 = schedules m
  ∧ schedules (loadSchedules (onDisk m) ScheduleManager.new).2 = schedules m
  ∧ (loadSchedules Unparsable m).1 = []
  ∧ (loadSchedules (Parsed None) m).1 = [].
Proof.
  intros m.
  assert (fileInSync m) as Hsync by (by apply run_fileInSync).
  unfold fileInSync, onDisk, loadSchedules in *.
  destruct (file m) as [doc|]; simpl; by rewrite ?Hsync.
Qed.

End StoreRestart.

(** * Further properties of the engine *)

Section EngineMore.
Context `{NodeCronLib}.
Import SchedulerService EngineProps MoreProps.

Implicit Types (e : SchedulerService.t) (s : ScheduleConfig) (i j : string)
  (h : nat).

Lemma removeSchedule_senders i e :
  discordSender (removeSchedule i e).2 = discordSender e
  ∧ telegramSender (removeSchedule i e).2 = telegramSender e.
Proof. unfold removeSchedule. by destruct (scheduledTasks e !! i). Qed.

Lemma removeSchedule_other i j e :
  j ≠ i → scheduledTasks (removeSchedule i e).2 !! j = scheduledTasks e !! j.
Proof.
  intros Hj. unfold removeSchedule.
  destruct (scheduledTasks e !! i); [|done]. simpl. by apply lookup_delete_ne.
Qed.

(** X6.  In every state the engine reaches: [removeSchedule] answers true
    exactly when the id had a timer; afterwards the id has no live timer,
    the live timers of every other id are the same, the registered
    senders are the same, and a second removal answers false and changes
    nothing. *)
Theorem removeSchedule_spec ops i :
  let e := run ops SchedulerService.new in
  let e' := (removeSchedule i e).2 in
  ((removeSchedule i e).1 = true ↔ is_Some (scheduledTasks e !! i))
  ∧ liveTimers i e' = []
  ∧ (∀ j, j ≠ i → liveTimers j e' = liveTimers j e)
  ∧ discordSender e' = discordSender e
  ∧ telegramSender e' = telegramSender e
  ∧ removeSchedule i e' = (false, e').
Proof.
  intros e e'.
  assert (consistent e) as He by apply run_consistent, new_consistent.
  assert (consistent e') as He' by by apply removeSchedule_consistent.
  destruct (removeSchedule_lookup i e) as [Hnone _]. fold e' in Hnone.
  split_and!.
  - unfold removeSchedule. destruct (scheduledTasks e !! i); simpl.
    + split; eauto.
    + split; [done|]. by intros [??].
  - by rewrite liveTimers_consistent, Hnone.
  - intros j Hj. rewrite !liveTimers_consistent by done.
    subst e'. by rewrite removeSchedule_other.
  - apply removeSchedule_senders.
  - apply removeSchedule_senders.
  - unfold removeSchedule at 1. by rewrite Hnone.
Qed.

(** X7.  In every state the engine reaches, [stopAllTasks] leaves the
    timer map empty and no task started, so no id has a live timer; the
    registered senders stay. *)
Theorem stopAllTasks_stops_everything ops :
  let e' := stopAllTasks (run ops SchedulerService.new) in
  scheduledTasks e' = ∅
  ∧ startedTasks e' = []
  ∧ (∀ i, liveTimers i e' = [])
  ∧ discordSender e' = discordSender (run ops SchedulerService.new)
  ∧ telegramSender e' = telegramSender (run ops SchedulerService.new).
Proof.
  intros e'.
  assert (consistent e') as [Hmap Hrun].
  { apply stopAllTasks_consistent, run_consistent, new_consistent. }
  split_and!; try done.
  - apply elem_of_nil_inv. intros task Hin. unfold startedTasks in Hin.
    rewrite list_elem_of_In, filter_In, <- list_elem_of_In in Hin.
    destruct Hin as [[h Hh]%list_elem_of_lookup Hr].
    by pose proof (Hrun h task Hh Hr) as Hl.
  - intros i. by rewrite liveTimers_consistent.
Qed.

(** Whether an addition is refused depends on the senders and on the
    schedule, and no operation but the registration of a sender changes
    the senders. *)
Lemma addSchedule_senders s e :
  discordSender (addSchedule s e) = discordSender e
  ∧ telegramSender (addSchedule s e) = telegramSender e.
Proof.
  destruct (addSchedule_cases s e) as [->|[Hnone Hacc]]; [done|].
  by rewrite addSchedule_fresh.
Qed.

Lemma accepts_senders s e e' :
  discordSender e' = discordSender e → telegramSender e' = telegramSender e →
  accepts s e' = accepts s e.
Proof. unfold accepts. by intros -> ->. Qed.

Lemma accepts_addSchedule s s' e : accepts s (addSchedule s' e) = accepts s e.
Proof. apply accepts_senders; apply addSchedule_senders. Qed.

Lemma accepts_removeSchedule s i e :
  accepts s (removeSchedule i e).2 = accepts s e.
Proof. apply accepts_senders; apply removeSchedule_senders. Qed.

(** The ids with a timer after one addition. *)
Lemma addSchedule_timer_iff s e i :
  is_Some (scheduledTasks (addSchedule s e) !! i)
  ↔ is_Some (scheduledTasks e !! i) ∨ (id s = i ∧ accepts s e = true).
Proof.
  destruct (scheduledTasks e !! id s) as [h|] eqn:Hl.
  - rewrite addSchedule_known by (rewrite Hl; eauto).
    split; [by left|]. intros [|[<- _]]; [done|]. rewrite Hl. eauto.
  - destruct (accepts s e) eqn:Hacc.
    + rewrite addSchedule_fresh by done. simpl.
      rewrite lookup_insert_is_Some. split.
      * intros [Heq|[_ Hi]]; [by right|by left].
      * intros [Hi|[Heq _]]; [|by left].
        destruct (decide (id s = i)) as [|Hne]; [by left|by right].
    + rewrite addSchedule_refused by done. split; [by left|].
      by intros [|[_ ?]].
Qed.

Lemma foldl_addSchedule_timer_iff l e i :
  is_Some (scheduledTasks (foldl (λ e s, addSchedule s e) e l) !! i)
  ↔ is_Some (scheduledTasks e !! i)
    ∨ ∃ s, s ∈ l ∧ id s = i ∧ accepts s e = true.
Proof.
  revert e. induction l as [|s l IH]; intros e; simpl.
  - split; [by left|]. intros [|(s & Hs & _)]; [done|].
    by apply elem_of_nil in Hs.
  - rewrite IH, addSchedule_timer_iff. setoid_rewrite accepts_addSchedule.
    split.
    + intros [[Hi|[Hid Hacc]]|(s' & Hs' & Hid & Hacc)].
      * by left.
      * right. exists s. split; [left|done].
      * right. exists s'. split; [by right|done].
    + intros [Hi|(s' & [->|Hs']%elem_of_cons & Hid & Hacc)].
      * by left; left.
      * by left; right.
      * right. by exists s'.
Qed.

Lemma foldl_addSchedule_noop l e :
  (∀ s, s ∈ l → is_Some (scheduledTasks e !! id s) ∨ accepts s e = false) →
  foldl (λ e s, addSchedule s e) e l = e.
Proof.
  induction l as [|s l IH]; intros Hl; [done|]. simpl.
  assert (addSchedule s e = e) as ->.
  { destruct (Hl s) as [Hin|Hacc]; [left| |].
    - by apply addSchedule_known.
    - by apply addSchedule_refused. }
  apply IH. intros s' Hs'. apply Hl. by right.
Qed.

Lemma foldl_addSchedule_senders l e :
  discordSender (foldl (λ e s, addSchedule s e) e l) = discordSender e
  ∧ telegramSender (foldl (λ e s, addSchedule s e) e l) = telegramSender e.
Proof.
  revert e. induction l as [|s l IH]; intros e; [done|]. simpl.
  destruct (IH (addSchedule s e)) as [-> ->]. apply addSchedule_senders.
Qed.

(** X8.  After [addScheduledTasks], an id has a timer exactly when it had
    one before or the list holds an enabled schedule with that id that is
    not refused (a sender is registered, it has a destination, its
    expression is taken); disabled schedules contribute nothing.  Running
    it a second time with the same list changes nothing, and in every
    state the engine reaches no id ends up with two live timers. *)
Theorem addScheduledTasks_spec ops l i :
  let e := run ops SchedulerService.new in
  (is_Some (scheduledTasks (addScheduledTasks l e) !! i)
   ↔ is_Some (scheduledTasks e !! i)
     ∨ ∃ s, s ∈ l ∧ id s = i ∧ enabled s = true ∧ accepts s e = true)
  ∧ addScheduledTasks l (addScheduledTasks l e) = addScheduledTasks l e
  ∧ (length (liveTimers i (addScheduledTasks l e)) ≤ 1)%nat.
Proof.
  intros e. split_and!.
  - unfold addScheduledTasks. rewrite foldl_addSchedule_timer_iff.
    setoid_rewrite list_elem_of_In. setoid_rewrite filter_In.
    split; (intros [?|(s & Hs & ?)]; [by left|right; exists s; tauto]).
  - unfold addScheduledTasks at 1. apply foldl_addSchedule_noop.
    intros s Hs.
    destruct (accepts s (addScheduledTasks l e)) eqn:Hacc; [left|by right].
    unfold addScheduledTasks in *.
    apply foldl_addSchedule_timer_iff. right. exists s. split_and!; [done..|].
    rewrite <- Hacc. symmetry.
    apply accepts_senders; apply foldl_addSchedule_senders.
  - rewrite liveTimers_consistent.
    + destruct (_ !! i); simpl; lia.
    + apply (exec_consistent (AddScheduledTasks l)), run_consistent, new_consistent.
Qed.

(** X9.  In every state the engine reaches, [updateSchedule] with an
    enabled schedule that is not refused leaves the id with exactly one
    live timer: a task created by this call, with the payload's
    expression and the payload as its schedule; the task the id had
    before is stopped.  With a schedule that is not enabled, or one that
    is refused, the id is left without a live timer. *)
Theorem updateSchedule_replaces_timer ops s :
  let e := run ops SchedulerService.new in
  let e' := updateSchedule s e in
  (enabled s = true → accepts s e = true →
     liveTimers (id s) e' = [length (timers e)]
     ∧ timers e' !! length (timers e)
       = Some (NodeCron.mkTask (cronExpression s) s true))
  ∧ (enabled s = false ∨ accepts s e = false → liveTimers (id s) e' = [])
  ∧ (∀ h task, scheduledTasks e !! id s = Some h → timers e !! h = Some task →
       timers e' !! h = Some (NodeCron.stopped task)).
Proof.
  intros e e'.
  assert (consistent e) as He by apply run_consistent, new_consistent.
  pose proof (updateSchedule_timer s e He) as Hlive.
  rewrite accepts_removeSchedule in Hlive. fold e' in Hlive.
  destruct (removeSchedule_lookup (id s) e) as [Hnone Hlen].
  split_and!.
  - intros Hen Hacc. rewrite Hlive, Hen, Hacc. split; [done|].
    subst e'. unfold updateSchedule. rewrite Hen.
    rewrite addSchedule_fresh by (by rewrite ?accepts_removeSchedule).
    simpl. rewrite <- Hlen. by apply list_lookup_middle.
  - intros Hor. rewrite Hlive. by destruct Hor as [-> | ->]; rewrite ?andb_false_r.
  - intros h task Hh Ht.
    assert (timers (removeSchedule (id s) e).2 !! h = Some (NodeCron.stopped task))
      as Hstopped.
    { unfold removeSchedule. rewrite Hh. simpl. unfold NodeCron.stop.
      by rewrite list_lookup_alter_eq, Ht. }
    subst e'. unfold updateSchedule. destruct (enabled s); [|done].
    destruct (addSchedule_cases s (removeSchedule (id s) e).2)
      as [->|[_ Hacc]]; [done|].
    rewrite addSchedule_fresh by done. simpl.
    by apply lookup_app_l_Some.
Qed.

(** X10.  While no sender is registered the engine schedules nothing:
    after any run of operations that registers none, the timer map is
    empty and the timer library was never asked for a task. *)
Theorem no_sender_no_timer ops :
  Forall (λ o, setsSender o = false) ops →
  run ops SchedulerService.new = SchedulerService.new.
Proof.
  assert (∀ s, addSchedule s SchedulerService.new = SchedulerService.new) as Hadd.
  { intros s. by apply addSchedule_refused. }
  assert (∀ i, (removeSchedule i SchedulerService.new).2 = SchedulerService.new)
    as Hrem.
  { intros i. unfold removeSchedule.
    change (scheduledTasks SchedulerService.new) with (∅ : gmap string nat).
    by rewrite lookup_empty. }
  induction 1 as [|o ops Ho Hops IH]; [done|].
  cbn [run foldl].
  replace (exec o SchedulerService.new) with SchedulerService.new; [exact IH|].
  destruct o as [d|d|l|s|s|i|]; cbn [exec]; [done..| | | | |].
  - unfold addScheduledTasks.
    induction (List.filter enabled l) as [|s l' IHl]; [done|].
    cbn [foldl]. by rewrite Hadd.
  - by rewrite Hadd.
  - unfold updateSchedule. rewrite Hrem.
    destruct (enabled s); [|done]. by rewrite Hadd.
  - by rewrite Hrem.
  - done.
Qed.

End EngineMore.

(** * Properties of a firing and of the content provider *)

Section FiringProps.
Context `{NodeCronLib}.
Import SchedulerService EngineProps MoreProps Firing ApiService.

Implicit Types (e : SchedulerService.t) (s : ScheduleConfig).

Lemma addSchedule_createdWithDestination s e :
  createdWithDestination e → createdWithDestination (addSchedule s e).
Proof.
  intros He.
  destruct (addSchedule_cases s e) as [->|[Hnone Hacc]]; [done|].
  rewrite (addSchedule_fresh s e Hnone Hacc).
  unfold createdWithDestination. simpl.
  apply Forall_app. split; [done|]. apply Forall_singleton. simpl.
  unfold accepts in Hacc.
  apply andb_true_iff in Hacc as [[_ Hno%negb_true_iff]%andb_true_iff _]. done.
Qed.

Lemma stop_createdWithDestination h (ts : NodeCron.Tasks) :
  Forall (λ task, noTargets (NodeCron.job task) = false) ts →
  Forall (λ task, noTargets (NodeCron.job task) = false) (NodeCron.stop h ts).
Proof. intros Hts. apply Forall_alter; [done|]. by intros []. Qed.

Lemma exec_createdWithDestination o e :
  createdWithDestination e → createdWithDestination (exec o e).
Proof.
  intros He. destruct o as [d|d|l|s|s|i|]; cbn [exec].
  - exact He.
  - exact He.
  - unfold addScheduledTasks. revert e He.
    induction (List.filter enabled l) as [|s l' IH]; intros e He; [done|].
    cbn [foldl]. by apply IH, addSchedule_createdWithDestination.
  - by apply addSchedule_createdWithDestination.
  - assert (createdWithDestination (removeSchedule (id s) e).2) as Hrem.
    { unfold removeSchedule. destruct (scheduledTasks e !! id s); [|done].
      by apply stop_createdWithDestination. }
    unfold updateSchedule. destruct (enabled s); [|done].
    by apply addSchedule_createdWithDestination.
  - unfold removeSchedule. destruct (scheduledTasks e !! i); [|done].
    by apply stop_createdWithDestination.
  - unfold createdWithDestination, stopAllTasks. cbn [timers].
    induction (map_to_list (scheduledTasks e)) as [|entry l IH]; [done|].
    cbn [foldr]. by apply stop_createdWithDestination.
Qed.

Lemma run_createdWithDestination ops e :
  createdWithDestination e → createdWithDestination (run ops e).
Proof.
  revert e. induction ops as [|o ops IH]; intros e He; [done|].
  cbn [run foldl]. by apply IH, exec_createdWithDestination.
Qed.

(** The text of a firing is never empty. *)
Lemma message_nonempty s artist nft msg :
  message s artist nft = Some msg → msg ≠ "".
Proof.
  unfold message. destruct (fetchType s), artist, nft; simpl; intros [= <-]; done.
Qed.

Lemma truthy_opt_Some (o : option string) :
  JS.truthy_opt o = true → ∃ v, o = Some v ∧ v ≠ "".
Proof.
  destruct o as [v|]; [|done]. simpl. unfold JS.truthy.
  intros Hv%negb_true_iff%bool_decide_eq_false. eauto.
Qed.

(** The calls of a firing, whatever the state of the senders. *)
Lemma fire_calls s artist nft e msg :
  message s artist nft = Some msg →
  Forall (ownDestination s msg) (fire s artist nft e)
  ∧ (length (fire s artist nft e) ≤ 2)%nat.
Proof.
  intros Hmsg. unfold fire. rewrite Hmsg. split.
  - apply Forall_app. split.
    + destruct (JS.truthy_opt (discord_channelId s)) eqn:Hd; [|done].
      destruct (bool_decide _); [|done]. simpl.
      apply truthy_opt_Some in Hd as (v & Hv & Hne).
      apply Forall_singleton. rewrite Hv. by split_and!.
    + destruct (JS.truthy_opt (telegram_chatId s)) eqn:Ht; [|done].
      destruct (bool_decide _); [|done]. simpl.
      apply truthy_opt_Some in Ht as (v & Hv & Hne).
      apply Forall_singleton. rewrite Hv. by split_and!.
  - rewrite length_app.
    destruct (_ && _), (_ && _); simpl; lia.
Qed.

(** X11.  In a state the engine reaches with both senders registered,
    every firing of a started task for which the provider has data makes
    at least one call and at most two; every call carries the text of
    the firing, which is not empty, to the schedule's own channel or
    chat.  A firing for which the provider has no data makes no call. *)
Theorem firing_delivers ops task artist nft :
  let e := run ops SchedulerService.new in
  task ∈ startedTasks e →
  is_Some (discordSender e) → is_Some (telegramSender e) →
  (message (NodeCron.job task) artist nft = None →
     fire (NodeCron.job task) artist nft e = [])
  ∧ (∀ msg, message (NodeCron.job task) artist nft = Some msg →
       msg ≠ ""
       ∧ fire (NodeCron.job task) artist nft e ≠ []
       ∧ (length (fire (NodeCron.job task) artist nft e) ≤ 2)%nat
       ∧ Forall (ownDestination (NodeCron.job task) msg)
                (fire (NodeCron.job task) artist nft e)).
Proof.
  intros e Hin Hd Ht. split.
  - intros Hmsg. unfold fire. by rewrite Hmsg.
  - intros msg Hmsg.
    destruct (fire_calls (NodeCron.job task) artist nft e msg Hmsg) as [Hown Hlen].
    split_and!; [by eapply message_nonempty| |done|done].
    assert (noTargets (NodeCron.job task) = false) as Hno.
    { assert (createdWithDestination e) as Hall.
      { apply run_createdWithDestination, Forall_nil_2. }
      unfold createdWithDestination in Hall. rewrite Forall_forall in Hall.
      apply Hall. unfold startedTasks in Hin.
      rewrite list_elem_of_In, filter_In, <- list_elem_of_In in Hin. tauto. }
    unfold fire. rewrite Hmsg.
    rewrite !bool_decide_eq_true_2 by done. rewrite !andb_true_r.
    unfold noTargets in Hno.
    apply andb_false_iff in Hno as [Hno|Hno];
      apply orb_false_iff in Hno as [Hno%negb_false_iff _]; rewrite Hno.
    + done.
    + by destruct (JS.truthy_opt (discord_channelId _)).
Qed.

(** X12.  The guards of [addSchedule] ask for some sender and some
    destination, not for a matching pair: with only the Telegram sender
    registered, a schedule whose only destination is a Discord channel
    gets its timer when its expression is taken, and no firing of it
    makes any call. *)
Theorem unmatched_sender_fires_nothing s e channel guild :
  discord s = Some (mkDiscordTarget channel guild) → channel ≠ "" →
  telegram s = None →
  discordSender e = None → is_Some (telegramSender e) →
  scheduledTasks e !! id s = None → pattern_ok (cronExpression s) = true →
  is_Some (scheduledTasks (addSchedule s e) !! id s)
  ∧ ∀ artist nft, fire s artist nft (addSchedule s e) = [].
Proof.
  intros Hd Hch Ht Hds Hts Hnone Hok.
  assert (JS.truthy_opt (discord_channelId s) = true) as Hcid.
  { unfold discord_channelId. rewrite Hd. simpl. unfold JS.truthy.
    by rewrite bool_decide_eq_false_2. }
  assert (accepts s e = true) as Hacc.
  { unfold accepts, noTargets. rewrite Hok, Hcid.
    rewrite (bool_decide_eq_true_2 (is_Some (telegramSender e))) by done.
    unfold JS.opt_str_eq, discord_channelId. rewrite Hd. simpl.
    rewrite (bool_decide_eq_false_2 (Some channel = Some "")) by congruence.
    by rewrite orb_true_r. }
  split.
  - apply addSchedule_timer_iff. by right.
  - intros artist nft. unfold fire.
    destruct (message s artist nft); [|done].
    destruct (addSchedule_senders s e) as [-> _]. rewrite Hds.
    unfold telegram_chatId. rewrite Ht. simpl.
    by rewrite andb_false_r.
Qed.

End FiringProps.

Section IpfsProps.
Import TelegramCommands ApiService.

Lemma stripPrefix_app p s : stripPrefix p (p +:+ s) = Some s.
Proof.
  induction p as [|c p IH]; [done|]. simpl.
  by rewrite bool_decide_eq_true_2.
Qed.

Lemma stripPrefix_Some p s r : stripPrefix p s = Some r → s = p +:+ r.
Proof.
  revert s. induction p as [|c p IH]; intros s; simpl.
  - by intros [= ->].
  - destruct s as [|d s]; [done|].
    case_bool_decide as Hcd; [|done]. intros Hr. by rewrite Hcd, (IH s Hr).
Qed.

(** X13.  [ipfsToHttp] answers nothing exactly for a missing or empty
    URI; it turns [ipfs://] followed by a content id into the gateway URL
    of that id, returns every other URI as it is, and never answers a
    URI that starts with [ipfs://]. *)
Theorem ipfsToHttp_spec :
  (∀ uri, ipfsToHttp uri = None ↔ uri = None ∨ uri = Some "")
  ∧ (∀ cid, ipfsToHttp (Some ("ipfs://" +:+ cid))
            = Some ("https://ipfs.io/ipfs/" +:+ cid))
  ∧ (∀ u, u ≠ "" → stripPrefix "ipfs://" u = None → ipfsToHttp (Some u) = Some u)
  ∧ (∀ uri r, ipfsToHttp uri = Some r → stripPrefix "ipfs://" r = None).
Proof.
  split_and!.
  - intros [u|]; [|by split; [left|]].
    unfold ipfsToHttp, JS.truthy. destruct (decide (u = "")) as [->|Hu].
    + split; [by right|done].
    + rewrite bool_decide_eq_false_2 by done. cbn [negb].
      destruct (stripPrefix "ipfs://" u); (split; [done|intros [|]; congruence]).
  - intros cid. unfold ipfsToHttp.
    rewrite (stripPrefix_app "ipfs://" cid). done.
  - intros u Hu Hs. unfold ipfsToHttp, JS.truthy.
    rewrite bool_decide_eq_false_2 by done. cbn [negb]. by rewrite Hs.
  - intros [u|] r; [|done]. unfold ipfsToHttp.
    destruct (negb (JS.truthy u)); [done|].
    destruct (stripPrefix "ipfs://" u) as [rest|] eqn:Hs; intros [= <-]; done.
Qed.

End IpfsProps.

(** * Properties of the command parser *)

Section StringFacts.
Import TelegramCommands MoreProps.

Lemma string_app_cons c (a b : string) : String c a +:+ b = String c (a +:+ b).
Proof. reflexivity. Qed.

Lemma string_app_nil (b : string) : "" +:+ b = b.
Proof. reflexivity. Qed.

Lemma string_length_app (a b : string) :
  String.length (a +:+ b) = (String.length a + String.length b)%nat.
Proof.
  induction a as [|c a IH]; [done|].
  rewrite string_app_cons. cbn [String.length]. by rewrite IH.
Qed.

Lemma string_app_assoc (a b c : string) : (a +:+ b) +:+ c = a +:+ (b +:+ c).
Proof.
  induction a as [|x a IH]; [done|]. rewrite !string_app_cons. by f_equal.
Qed.

Lemma span_stop p s : stopsAt p s → span p s = ("", s).
Proof. destruct s as [|c r]; [done|]. cbn [stopsAt span]. by intros ->. Qed.

Lemma span_all p a b :
  allChars p a = true → stopsAt p b → span p (a +:+ b) = (a, b).
Proof.
  intros Ha Hb. induction a as [|c a IH].
  - by apply span_stop.
  - cbn [allChars] in Ha. apply andb_true_iff in Ha as [Hc Ha].
    rewrite string_app_cons. cbn [span]. by rewrite Hc, IH.
Qed.

Lemma allChars_impl (p q : ascii → bool) s :
  (∀ c, p c = true → q c = true) → allChars p s = true → allChars q s = true.
Proof.
  intros Hpq. induction s as [|c r IH]; [done|]. cbn [allChars].
  intros [Hc Hr]%andb_true_iff. by rewrite (Hpq c Hc), IH.
Qed.

End StringFacts.

Section ParserRoundTrip.
Import TelegramCommands MoreProps.

Implicit Types (a : Arg) (rest : string) (fuel : nat).

Lemma isQuote_quote : isQuote quote = true.
Proof. reflexivity. Qed.

Lemma isSpace_space : isSpace " " = true.
Proof. reflexivity. Qed.

Lemma afterArg_stops rest : afterArg rest → stopsAt (λ c, negb (isSpace c)) rest.
Proof. intros [->|[r ->]]; [done|]. reflexivity. Qed.

Lemma tokens_space fuel r : tokens (S fuel) (String " " r) = tokens fuel r.
Proof. reflexivity. Qed.

Lemma tokens_word fuel w rest :
  argOk (Word w) = true → afterArg rest →
  tokens (S fuel) (w +:+ rest) = w :: tokens fuel rest.
Proof.
  intros [Hw Hall]%andb_true_iff Hrest.
  assert (matchWord (w +:+ rest) = Some (w, rest)) as Hm.
  { unfold matchWord. rewrite span_all.
    - by rewrite Hw.
    - eapply allChars_impl; [|exact Hall]. by intros c [? _]%andb_true_iff.
    - by apply afterArg_stops. }
  destruct w as [|c w']; [done|].
  rewrite string_app_cons in *. cbn [tokens]. rewrite Hm.
  cbn [allChars] in Hall.
  apply andb_true_iff in Hall as [[_ Hq%negb_true_iff]%andb_true_iff _].
  by rewrite Hq.
Qed.

Lemma tokens_phrase fuel p rest :
  argOk (Phrase p) = true →
  tokens (S fuel) (argText (Phrase p) +:+ rest) = p :: tokens fuel rest.
Proof.
  intros [Hp Hall]%andb_true_iff.
  assert (matchQuoted (p +:+ String quote rest) = Some (p, rest)) as Hm.
  { unfold matchQuoted. rewrite span_all; [|done|reflexivity].
    by rewrite isQuote_quote, Hp. }
  cbn [argText]. rewrite string_app_cons, string_app_assoc, string_app_cons.
  rewrite string_app_nil. cbn [tokens]. by rewrite isQuote_quote, Hm.
Qed.

Lemma argText_nonempty a : argOk a = true → (1 ≤ String.length (argText a))%nat.
Proof.
  destruct a as [w|p]; cbn [argText].
  - intros [Hw _]%andb_true_iff. destruct w; [done|]. cbn. lia.
  - intros _. cbn. lia.
Qed.

Lemma tokens_arg fuel a rest :
  argOk a = true → afterArg rest →
  tokens (S fuel) (argText a +:+ rest) = argValue a :: tokens fuel rest.
Proof.
  intros Ha Hrest. destruct a as [w|p].
  - by apply tokens_word.
  - by apply tokens_phrase.
Qed.

Lemma unwords_cons (x : string) (l : list string) :
  unwords (x :: l)
  = x +:+ match l with [] => "" | _ => String " " (unwords l) end.
Proof.
  destruct l as [|y l]; cbn [unwords]; [|done].
  induction x as [|c x IH]; [done|]. rewrite string_app_cons. by f_equal.
Qed.

Lemma tokens_unwords args :
  Forall (λ a, argOk a = true) args →
  ∀ fuel, (String.length (unwords (argText <$> args)) ≤ fuel)%nat →
  tokens fuel (unwords (argText <$> args)) = argValue <$> args.
Proof.
  induction 1 as [|a args Ha Hargs IH]; intros fuel Hfuel.
  { by destruct fuel. }
  rewrite fmap_cons, unwords_cons in *.
  rewrite string_length_app in Hfuel.
  pose proof (argText_nonempty a Ha) as Hlen.
  destruct fuel as [|fuel]; [lia|].
  destruct args as [|b args].
  - rewrite tokens_arg by (done || by left). cbn [fmap list_fmap].
    by destruct fuel.
  - rewrite fmap_cons in *.
    rewrite tokens_arg by (done || right; eauto).
    change (argValue <$> a :: b :: args)
      with (argValue a :: (argValue <$> b :: args)).
    f_equal. cbn [String.length] in Hfuel.
    destruct fuel as [|fuel]; [lia|].
    rewrite tokens_space. apply IH. lia.
Qed.

(** X14.  The parser returns what the user typed: for a message made of
    arguments separated by single spaces, each a bare word (not empty,
    free of spaces and quotes) or a phrase between quotes (not empty,
    free of quotes, spaces allowed), [parseCommandArguments] answers the
    words and the phrases without their quotes, in order. *)
Theorem parseCommandArguments_unwords args :
  Forall (λ a, argOk a = true) args →
  parseCommandArguments (unwords (argText <$> args)) = argValue <$> args.
Proof. intros Hargs. by apply tokens_unwords. Qed.

End ParserRoundTrip.

(** ** Numbers in phrases *)

Section NumberPhrases.
Import TelegramCommands MoreProps.

Lemma isDigit_pretty_N_char x : isDigit (pretty_N_char x) = true.
Proof. unfold pretty_N_char. by repeat case_match. Qed.

Lemma digit_value x :
  (x < 10)%N → Z.of_N (code (pretty_N_char x)) - 48 = Z.of_N x.
Proof.
  intros Hx.
  assert (x = 0 ∨ x = 1 ∨ x = 2 ∨ x = 3 ∨ x = 4 ∨ x = 5 ∨ x = 6 ∨ x = 7
          ∨ x = 8 ∨ x = 9)%N as Hcases by lia.
  repeat (destruct Hcases as [->|Hcases]; [reflexivity|]). by subst.
Qed.

Lemma pretty_N_go_digits x s :
  allChars isDigit s = true → allChars isDigit (pretty_N_go x s) = true.
Proof.
  revert s. induction (N.lt_wf_0 x) as [x _ IH]; intros s Hs.
  destruct (decide (x = 0%N)) as [->|Hx]; [by rewrite pretty_N_go_0|].
  rewrite pretty_N_go_step by lia. apply IH; [apply N.div_lt; lia|].
  cbn [allChars]. by rewrite isDigit_pretty_N_char, Hs.
Qed.

(** The digits are read most significant first. *)
Lemma parseInt_cons c s :
  parseInt (String c s)
  = (Z.of_N (code c) - 48) * 10 ^ Z.of_nat (String.length s) + parseInt s.
Proof.
  unfold parseInt. cbn [String.list_ascii_of_string fold_left].
  assert (∀ l acc,
    fold_left (λ acc c, 10 * acc + (Z.of_N (code c) - 48)) l acc
    = acc * 10 ^ Z.of_nat (length l)
      + fold_left (λ acc c, 10 * acc + (Z.of_N (code c) - 48)) l 0) as Hacc.
  { induction l as [|d l IHl]; intros acc; cbn [fold_left length].
    - change (Z.of_nat 0) with 0. lia.
    - rewrite (IHl (10 * acc + _)), (IHl (10 * 0 + _)).
      rewrite Nat2Z.inj_succ, Z.pow_succ_r by lia. lia. }
  assert (length (String.list_ascii_of_string s) = String.length s) as Hlen.
  { induction s as [|d s IHs]; [done|].
    cbn [String.length String.list_ascii_of_string length]. by rewrite IHs. }
  rewrite Hacc, Hlen. by f_equal.
Qed.

Lemma parseInt_pretty_N_go x s :
  parseInt (pretty_N_go x s)
  = Z.of_N x * 10 ^ Z.of_nat (String.length s) + parseInt s.
Proof.
  revert s. induction (N.lt_wf_0 x) as [x _ IH]; intros s.
  destruct (decide (x = 0%N)) as [->|Hx].
  { rewrite pretty_N_go_0. lia. }
  rewrite pretty_N_go_step by lia.
  rewrite IH by (apply N.div_lt; lia).
  rewrite parseInt_cons, digit_value by (apply N.mod_lt; lia).
  cbn [String.length]. rewrite Nat2Z.inj_succ, Z.pow_succ_r by lia.
  pose proof (N.div_mod x 10) as Hdm.
  rewrite N2Z.inj_div, N2Z.inj_mod.
  pose proof (Z.div_mod (Z.of_N x) 10) as Hz. change (Z.of_N 10) with 10. nia.
Qed.

(** What [pretty] prints for a number that is not negative is a string
    of digits, not empty, that [parseInt] reads back as the number. *)
Lemma pretty_digits (n : Z) :
  0 ≤ n →
  allChars isDigit (pretty n) = true
  ∧ JS.truthy (pretty n) = true
  ∧ parseInt (pretty n) = n.
Proof.
  intros Hn. split_and!; [| apply pretty_Z_truthy |].
  - destruct n as [|p|p]; [done| |lia].
    unfold pretty, pretty_Z, pretty, pretty_positive, pretty, pretty_N.
    rewrite decide_False by done. by apply pretty_N_go_digits.
  - destruct n as [|p|p]; [done| |lia].
    unfold pretty, pretty_Z, pretty, pretty_positive, pretty, pretty_N.
    rewrite decide_False by done. rewrite parseInt_pretty_N_go.
    change (parseInt "") with 0. cbn [String.length].
    change (Z.of_nat 0) with 0. rewrite Z.pow_0_r. lia.
Qed.

End NumberPhrases.

Section EveryPhrases.
Import TelegramCommands MoreProps.

Lemma toLowerCase_app (a b : string) :
  toLowerCase (a +:+ b) = toLowerCase a +:+ toLowerCase b.
Proof.
  induction a as [|c a IH]; [done|].
  rewrite string_app_cons. cbn [toLowerCase]. by rewrite IH.
Qed.

Lemma isDigit_bounds c : isDigit c = true → (48 ≤ code c ≤ 57)%N.
Proof.
  unfold isDigit. intros [?%N.leb_le ?%N.leb_le]%andb_true_iff. lia.
Qed.

Lemma lowerChar_digit c : isDigit c = true → lowerChar c = c.
Proof.
  intros Hc%isDigit_bounds. unfold lowerChar.
  replace (65 <=? code c)%N with false by (symmetry; apply N.leb_gt; lia).
  replace (192 <=? code c)%N with false by (symmetry; apply N.leb_gt; lia).
  done.
Qed.

Lemma isSpace_digit c : isDigit c = true → isSpace c = false.
Proof.
  intros Hc%isDigit_bounds. unfold isSpace.
  replace (code c <=? 13)%N with false by (symmetry; apply N.leb_gt; lia).
  replace (code c =? 32)%N with false by (symmetry; apply N.eqb_neq; lia).
  replace (code c =? 160)%N with false by (symmetry; apply N.eqb_neq; lia).
  by rewrite andb_false_r.
Qed.

Lemma toLowerCase_digits d : allChars isDigit d = true → toLowerCase d = d.
Proof.
  induction d as [|c d IH]; [done|]. cbn [allChars toLowerCase].
  intros [Hc Hd]%andb_true_iff. by rewrite lowerChar_digit, IH.
Qed.

(** The two patterns on a phrase of the expected shape. *)
Lemma matchEvery_phrase unit d u :
  allChars isDigit d = true → JS.truthy d = true → stopsAt isSpace u →
  matchEvery unit ("every " +:+ d +:+ " " +:+ u)
  = if JS.str_eq u unit || JS.str_eq u (unit +:+ "s") then Some d else None.
Proof.
  intros Hd Ht Hu. unfold matchEvery.
  change ("every " +:+ d +:+ " " +:+ u) with ("every" +:+ String " " (d +:+ String " " u)).
  rewrite stripPrefix_app.
  assert (stopsAt isSpace (d +:+ String " " u)) as Hstop.
  { destruct d as [|c d']; [done|]. rewrite string_app_cons. cbn [stopsAt].
    cbn [allChars] in Hd. apply andb_true_iff in Hd as [Hc _].
    by apply isSpace_digit. }
  cbn [span]. rewrite isSpace_space, (span_stop _ _ Hstop).
  rewrite (span_all isDigit d (String " " u)) by done.
  cbn [span]. rewrite isSpace_space, (span_stop _ _ Hu).
  rewrite Ht. reflexivity.
Qed.

(** A phrase that continues with a digit after [every ] is none of the
    six keywords. *)
Lemma every_not_keyword d rest :
  allChars isDigit d = true → JS.truthy d = true →
  ∀ k, k ∈ ["hourly"; "every hour"; "daily"; "every day"; "weekly"; "every week"] →
  JS.str_eq ("every " +:+ d +:+ rest) k = false.
Proof.
  intros Hd Ht k Hk. unfold JS.str_eq. apply bool_decide_eq_false_2.
  destruct d as [|c d']; [done|].
  cbn [allChars] in Hd. apply andb_true_iff in Hd as [Hc _].
  intros Heq. repeat (apply elem_of_cons in Hk as [->|Hk]);
    [..|by apply elem_of_nil in Hk];
    vm_compute in Heq; try discriminate Heq;
    injection Heq as -> _; discriminate Hc.
Qed.

(** X15.  For every number [n] that is not negative, the phrases
    [every n minutes] and [every n minute] resolve to the expression
    [*/n * * * *] when [n] is between 1 and 59 and are left as they are
    otherwise; [every n hours] and [every n hour] resolve to
    [0 */n * * *] when [n] is between 1 and 23 and are left as they are
    otherwise. *)
Theorem resolveFrequency_every (n : Z) :
  0 ≤ n →
  (∀ u, u = "minutes" ∨ u = "minute" →
     resolveFrequency ("every " +:+ pretty n +:+ " " +:+ u)
     = if (1 <=? n) && (n <=? 59)
       then "*/" +:+ pretty n +:+ " * * * *"
       else "every " +:+ pretty n +:+ " " +:+ u)
  ∧ (∀ u, u = "hours" ∨ u = "hour" →
       resolveFrequency ("every " +:+ pretty n +:+ " " +:+ u)
       = if (1 <=? n) && (n <=? 23)
         then "0 */" +:+ pretty n +:+ " * * *"
         else "every " +:+ pretty n +:+ " " +:+ u).
Proof.
  intros Hn. destruct (pretty_digits n Hn) as (Hd & Ht & Hp).
  assert (∀ u, toLowerCase u = u →
            toLowerCase ("every " +:+ pretty n +:+ " " +:+ u)
            = "every " +:+ pretty n +:+ " " +:+ u) as Hlow.
  { intros u Hu. by rewrite !toLowerCase_app, Hu, (toLowerCase_digits (pretty n)). }
  assert (∀ u, toLowerCase u = u → stopsAt isSpace u →
    resolveFrequency ("every " +:+ pretty n +:+ " " +:+ u)
    = match matchEvery "minute" ("every " +:+ pretty n +:+ " " +:+ u) with
      | Some d =>
          if (1 <=? parseInt d) && (parseInt d <=? 59)
          then "*/" +:+ pretty (parseInt d) +:+ " * * * *"
          else "every " +:+ pretty n +:+ " " +:+ u
      | None =>
          match matchEvery "hour" ("every " +:+ pretty n +:+ " " +:+ u) with
          | Some d =>
              if (1 <=? parseInt d) && (parseInt d <=? 23)
              then "0 */" +:+ pretty (parseInt d) +:+ " * * *"
              else "every " +:+ pretty n +:+ " " +:+ u
          | None => "every " +:+ pretty n +:+ " " +:+ u
          end
      end) as Hres.
  { intros u Hu Hstop. unfold resolveFrequency. cbv zeta. rewrite (Hlow u Hu).
    rewrite !(every_not_keyword (pretty n) (" " +:+ u) Hd Ht)
      by (repeat first [apply list_elem_of_here | apply list_elem_of_further]).
    reflexivity. }
  split; intros u [-> | ->]; rewrite Hres by done;
    rewrite !matchEvery_phrase by done;
    repeat match goal with
           | |- context [JS.str_eq ?a ?b] =>
               let v := eval vm_compute in (JS.str_eq a b) in
               change (JS.str_eq a b) with v
           end;
    cbn [orb]; by rewrite ?Hp.
Qed.

End EveryPhrases.

(** * Properties of the delete, pause and resume commands *)

Section UpdateLookup.
Import ScheduleManager StoreProps TelegramManage.

Implicit Types (m : ScheduleManager.t) (s u : ScheduleConfig) (i j : string).



Lemma getSchedule_updateSchedule_same u m existing :
  getSchedule (id u) m = Some existing →
  getSchedule (id u) (updateSchedule u m).2
  = Some (set_createdBy (createdBy existing)
            (set_createdAt (createdAt existing) u)).
Proof.
  intros [k Hf]%getSchedule_find. unfold updateSchedule. rewrite Hf.
  apply list_find_Some in Hf as (Hk & _ & Hleast).
  apply getSchedule_find. exists k. simpl. apply list_find_Some. split_and!.
  - apply list_lookup_insert_eq. by eapply lookup_lt_Some.
  - done.
  - intros j y Hj Hjk. rewrite list_lookup_insert_ne in Hj by lia.
    by eapply Hleast.
Qed.

(** Flipping [enabled] on the record an id resolves to and handing it to
    [updateSchedule] stores exactly the flipped record. *)
Lemma set_enabled_stamp v s :
  set_createdBy (createdBy s) (set_createdAt (createdAt s) (set_enabled v s))
  = set_enabled v s.
Proof. done. Qed.

Lemma set_enabled_same s : set_enabled (enabled s) s = s.
Proof. by destruct s. Qed.

Lemma list_find_insert_same {A} (P : A → Prop) `{∀ x, Decision (P x)}
    (l : list A) k x r :
  list_find P l = Some (k, x) → P r → list_find P (<[k:=r]> l) = Some (k, r).
Proof.
  intros (Hk & _ & Hleast)%list_find_Some Hr. apply list_find_Some. split_and!.
  - apply list_lookup_insert_eq. by eapply lookup_lt_Some.
  - done.
  - intros j y Hj Hjk. rewrite list_lookup_insert_ne in Hj by lia.
    by eapply Hleast.
Qed.

Lemma updateSchedule_flip v i s m k :
  list_find (λ x, id x = i) (schedules m) = Some (k, s) →
  schedules (updateSchedule (set_enabled v s) m).2
  = <[k := set_enabled v s]> (schedules m)
  ∧ list_find (λ x, id x = i) (schedules (updateSchedule (set_enabled v s) m).2)
    = Some (k, set_enabled v s).
Proof.
  intros Hf. pose proof Hf as (_ & Hid & _)%list_find_Some. subst i.
  assert (schedules (updateSchedule (set_enabled v s) m).2
          = <[k := set_enabled v s]> (schedules m)) as Hm.
  { unfold updateSchedule. change (id (set_enabled v s)) with (id s).
    by rewrite Hf. }
  split; [done|]. rewrite Hm. by apply (list_find_insert_same _ _ _ s).
Qed.

End UpdateLookup.

Section Authorize.
Import ScheduleManager StoreProps TelegramCommands TelegramManage.

Implicit Types (m : ScheduleManager.t) (s : ScheduleConfig) (i : string)
  (ctx : Context).

(** What a granted request says about the update and the store. *)
Lemma authorize_granted ctx m i s :
  authorize ctx m = inr (i, s) →
  tail (parseCommandArguments (default "" (message_text ctx))) !! 0%nat = Some i
  ∧ getSchedule i m = Some s
  ∧ (∃ c u, chat ctx = Some c ∧ from ctx = Some u
            ∧ telegram_chatId s = Some (pretty (chat_id c))
            ∧ (chat_type c = Private ∨ isCreator Telegram (pretty (user_id u)) s)).
Proof.
  unfold authorize. cbv zeta.
  destruct (tail _) as [|i' rest]; [done|].
  destruct (chat ctx) as [c|] eqn:Hchat; [|done]. cbn [fmap option_fmap option_map].
  destruct (negb (JS.truthy_opt _)); [done|].
  destruct (getSchedule i' m) as [s'|] eqn:Hget; [|done].
  destruct (negb (bool_decide _)) eqn:Hc; [done|].
  apply negb_false_iff, bool_decide_eq_true in Hc.
  destruct (from ctx) as [u|] eqn:Hfrom; [|done]. cbn [fmap option_fmap option_map].
  destruct (negb (JS.truthy_opt _)); [done|].
  destruct (negb (canUserManageSchedule _ _ _ _ _)) eqn:Hcan; [done|].
  intros [= -> ->]. split_and!; [done..|].
  exists c, u. split_and!; [done..|].
  apply negb_false_iff in Hcan. cbn [default from_option] in Hcan.
  unfold Datatypes.id in Hcan.
  apply (canUserManageSchedule_found _ _ _ _ _ _ Hget) in Hcan as [Hadm|Hcr];
    [left|by right].
  unfold isAdmin in Hadm. rewrite Hchat in Hadm. by destruct (chat_type c).
Qed.

(** A request is granted on the strength of the first argument, the chat,
    the user, and of the record the id resolves to: its chat and its
    creator. *)
Lemma authorize_congr ctx m m' i s s' :
  authorize ctx m = inr (i, s) →
  getSchedule i m' = Some s' →
  telegram_chatId s' = telegram_chatId s → createdBy s' = createdBy s →
  authorize ctx m' = inr (i, s').
Proof.
  unfold authorize, canUserManageSchedule. cbv zeta. intros Hauth Hget' Hchat Hby.
  destruct (tail _) as [|i' rest]; [done|].
  destruct (negb (JS.truthy_opt _)); [done|].
  destruct (getSchedule i' m) as [s0|] eqn:Hget; [|done].
  destruct (negb (bool_decide (telegram_chatId s0 = _))) eqn:Hc; [done|].
  destruct (negb (JS.truthy_opt ((λ u, pretty (user_id u)) <$> from ctx)));
    [done|].
  destruct (negb _) eqn:Hcan in Hauth; [done|].
  injection Hauth as -> ->.
  rewrite Hget'. rewrite Hchat, Hc. by rewrite Hby, Hcan.
Qed.

Lemma authorize_rejects_other_chat ctx m i rest s c :
  tail (parseCommandArguments (default "" (message_text ctx))) = i :: rest →
  chat ctx = Some c → getSchedule i m = Some s →
  telegram_chatId s ≠ Some (pretty (chat_id c)) →
  authorize ctx m = inl NotFound.
Proof.
  intros Hargs Hchat Hget Hne. unfold authorize. cbv zeta.
  rewrite Hargs, Hchat, Hget. cbn [fmap option_fmap option_map JS.truthy_opt].
  rewrite pretty_Z_truthy. cbn [negb].
  by rewrite bool_decide_eq_false_2.
Qed.

Lemma authorize_rejects_unknown ctx m i rest :
  tail (parseCommandArguments (default "" (message_text ctx))) = i :: rest →
  getSchedule i m = None →
  authorize ctx m = inl NotFound ∨ authorize ctx m = inl UnknownChat.
Proof.
  intros Hargs Hget. unfold authorize. cbv zeta. rewrite Hargs, Hget.
  destruct (negb (JS.truthy_opt _)); [by right|by left].
Qed.

Lemma authorize_denies ctx m i rest s c u :
  tail (parseCommandArguments (default "" (message_text ctx))) = i :: rest →
  chat ctx = Some c → from ctx = Some u → getSchedule i m = Some s →
  telegram_chatId s = Some (pretty (chat_id c)) →
  chat_type c ≠ Private → ¬ isCreator Telegram (pretty (user_id u)) s →
  authorize ctx m = inl Denied.
Proof.
  intros Hargs Hchat Hfrom Hget Hc Hpriv Hcr. unfold authorize. cbv zeta.
  rewrite Hargs, Hchat, Hget, Hfrom.
  cbn [fmap option_fmap option_map JS.truthy_opt default from_option].
  unfold Datatypes.id. rewrite !pretty_Z_truthy. cbn [negb].
  rewrite bool_decide_eq_true_2 by done. cbn [negb].
  assert (canUserManageSchedule i Telegram (pretty (user_id u)) (isAdmin ctx) m
          = false) as ->; [|done].
  apply not_true_is_false. intros Hcan.
  apply (canUserManageSchedule_found _ _ _ _ _ _ Hget) in Hcan as [Hadm|?];
    [|done].
  unfold isAdmin in Hadm. rewrite Hchat in Hadm. by destruct (chat_type c).
Qed.

Lemma authorize_grants ctx m i rest s c u :
  tail (parseCommandArguments (default "" (message_text ctx))) = i :: rest →
  chat ctx = Some c → from ctx = Some u → getSchedule i m = Some s →
  telegram_chatId s = Some (pretty (chat_id c)) →
  chat_type c = Private ∨ isCreator Telegram (pretty (user_id u)) s →
  authorize ctx m = inr (i, s).
Proof.
  intros Hargs Hchat Hfrom Hget Hc Hor. unfold authorize. cbv zeta.
  rewrite Hargs, Hchat, Hget, Hfrom.
  cbn [fmap option_fmap option_map JS.truthy_opt default from_option].
  unfold Datatypes.id. rewrite !pretty_Z_truthy. cbn [negb].
  rewrite bool_decide_eq_true_2 by done. cbn [negb].
  assert (canUserManageSchedule i Telegram (pretty (user_id u)) (isAdmin ctx) m
          = true) as ->; [|done].
  apply (canUserManageSchedule_found _ _ _ _ _ _ Hget).
  destruct Hor as [Hpriv|Hcr]; [left|by right].
  unfold isAdmin. by rewrite Hchat, Hpriv.
Qed.

End Authorize.

Section ManageCommands.
Context `{NodeCronLib}.
Import ScheduleManager SchedulerService StoreProps EngineProps.
Import TelegramCommands TelegramManage MoreProps.

Implicit Types (m : ScheduleManager.t) (e : SchedulerService.t)
  (s : ScheduleConfig) (i : string) (ctx : Context)
  (st : ScheduleManager.t * SchedulerService.t).

Lemma manage_rejected ctx st r :
  authorize ctx st.1 = inl r →
  handleDeleteSchedule ctx st = (r, st)
  ∧ handlePauseSchedule ctx st = (r, st)
  ∧ handleResumeSchedule ctx st = (r, st).
Proof.
  intros Hr. unfold handleDeleteSchedule, handlePauseSchedule,
    handleResumeSchedule. by rewrite Hr.
Qed.

(** X16.  The delete, pause and resume commands touch nothing they are
    not entitled to.  When the id resolves to a record of another chat
    they answer that the schedule was not found, also to its creator;
    when it resolves to a record of this chat, the chat is not private
    and the caller is not the creator, they answer with the permission
    denial.  In both cases store and engine are left as they were. *)
Theorem manage_commands_guarded ctx st i rest s c u :
  tail (parseCommandArguments (default "" (message_text ctx))) = i :: rest →
  chat ctx = Some c → from ctx = Some u → getSchedule i st.1 = Some s →
  (telegram_chatId s ≠ Some (pretty (chat_id c)) →
     handleDeleteSchedule ctx st = (NotFound, st)
     ∧ handlePauseSchedule ctx st = (NotFound, st)
     ∧ handleResumeSchedule ctx st = (NotFound, st))
  ∧ (telegram_chatId s = Some (pretty (chat_id c)) →
     chat_type c ≠ Private → ¬ isCreator Telegram (pretty (user_id u)) s →
     handleDeleteSchedule ctx st = (Denied, st)
     ∧ handlePauseSchedule ctx st = (Denied, st)
     ∧ handleResumeSchedule ctx st = (Denied, st)).
Proof.
  intros Hargs Hchat Hfrom Hget. split.
  - intros Hne. apply manage_rejected.
    by eapply authorize_rejects_other_chat.
  - intros Hc Hpriv Hcr. apply manage_rejected.
    by eapply authorize_denies.
Qed.

(** X17.  In a private chat, or for the creator, the delete command on a
    record of this chat answers with the name of the record, leaves the
    id resolving to nothing and without a timer, and leaves every other
    id resolving as before and with the timer it had. *)
Theorem delete_command_removes ctx st i rest s c u :
  tail (parseCommandArguments (default "" (message_text ctx))) = i :: rest →
  chat ctx = Some c → from ctx = Some u → getSchedule i st.1 = Some s →
  telegram_chatId s = Some (pretty (chat_id c)) →
  chat_type c = Private ∨ isCreator Telegram (pretty (user_id u)) s →
  let res := handleDeleteSchedule ctx st in
  res.1 = Deleted (name s)
  ∧ getSchedule i res.2.1 = None
  ∧ scheduledTasks res.2.2 !! i = None
  ∧ (∀ j, j ≠ i →
       getSchedule j res.2.1 = getSchedule j st.1
       ∧ scheduledTasks res.2.2 !! j = scheduledTasks st.2 !! j).
Proof.
  intros Hargs Hchat Hfrom Hget Hc Hor res. subst res.
  unfold handleDeleteSchedule.
  rewrite (authorize_grants ctx st.1 i rest s c u) by done. cbn [fst snd].
  split_and!.
  - done.
  - apply deleteSchedule_gone.
  - apply removeSchedule_lookup.
  - intros j Hj. split.
    + by apply deleteSchedule_other.
    + by apply removeSchedule_other.
Qed.

(** X18.  Pause and resume undo each other.  When a pause is granted for
    an enabled record, the record is stored disabled and its id is left
    without a timer; a second pause answers that it is already paused
    and changes nothing; the resume that follows restores the list of
    records as it was before the pause, and the engine is in the state
    its own [updateSchedule] of the record gives: one live timer for the
    id when the addition is not refused, none otherwise. *)
Theorem pause_then_resume ops ctx m i s :
  let e := SchedulerService.run ops SchedulerService.new in
  authorize ctx m = inr (i, s) → enabled s = true →
  let paused := handlePauseSchedule ctx (m, e) in
  let resumed := handleResumeSchedule ctx paused.2 in
  paused.1 = Paused (name s)
  ∧ getSchedule i paused.2.1 = Some (set_enabled false s)
  ∧ liveTimers i paused.2.2 = []
  ∧ handlePauseSchedule ctx paused.2 = (AlreadyPaused (name s), paused.2)
  ∧ resumed.1 = Resumed (name s)
  ∧ ScheduleManager.schedules resumed.2.1 = ScheduleManager.schedules m
  ∧ resumed.2.2 = SchedulerService.updateSchedule s e
  ∧ length (liveTimers i resumed.2.2) = (if accepts s e then 1 else 0)%nat.
Proof.
  intros e Hauth Hen paused resumed.
  destruct (authorize_granted ctx m i s Hauth) as (_ & Hget & _).
  pose proof (getSchedule_Some _ _ _ Hget) as [_ Hid].
  pose proof Hget as [k Hf]%getSchedule_find.
  destruct (updateSchedule_flip false i s m k Hf) as [Hm1 Hf1].
  assert (getSchedule i (ScheduleManager.updateSchedule (set_enabled false s) m).2
          = Some (set_enabled false s)) as Hget1.
  { apply getSchedule_find. eauto. }
  assert (paused = (Paused (name s),
                    ((ScheduleManager.updateSchedule (set_enabled false s) m).2,
                     (SchedulerService.removeSchedule i e).2))) as Hpaused.
  { subst paused. unfold handlePauseSchedule. cbn [fst snd].
    by rewrite Hauth, Hen. }
  assert (consistent e) as He by apply run_consistent, new_consistent.
  assert (authorize ctx paused.2.1 = inr (i, set_enabled false s)) as Hauth1.
  { rewrite Hpaused. by apply (authorize_congr ctx m _ i s). }
  destruct (updateSchedule_flip true i (set_enabled false s) _ k Hf1)
    as [Hm2 _].
  assert (set_enabled true (set_enabled false s) = s) as Hback.
  { rewrite <- Hen. by destruct s. }
  rewrite Hback in Hm2.
  assert (resumed = (Resumed (name s),
                     ((ScheduleManager.updateSchedule s paused.2.1).2,
                      SchedulerService.addSchedule s paused.2.2))) as Hresumed.
  { subst resumed. unfold handleResumeSchedule. rewrite Hauth1.
    cbn [enabled set_enabled negb name]. by rewrite Hback. }
  assert (resumed.2.2 = SchedulerService.updateSchedule s e) as Hengine.
  { rewrite Hresumed, Hpaused. cbn [fst snd].
    unfold SchedulerService.updateSchedule. by rewrite Hid, Hen. }
  split_and!.
  - by rewrite Hpaused.
  - by rewrite Hpaused.
  - rewrite Hpaused. cbn [fst snd]. rewrite liveTimers_consistent.
    + by destruct (removeSchedule_lookup i e) as [-> _].
    + by apply removeSchedule_consistent.
  - unfold handlePauseSchedule at 1. by rewrite Hauth1.
  - by rewrite Hresumed.
  - rewrite Hresumed, Hpaused. cbn [fst snd]. rewrite Hm2, Hm1.
    rewrite list_insert_insert_eq. apply list_insert_id.
    by apply list_find_Some in Hf as (? & _).
  - done.
  - rewrite Hengine, <- Hid, updateSchedule_timer by done.
    rewrite accepts_removeSchedule, Hen. cbn [andb].
    by destruct (accepts s e).
Qed.

End ManageCommands.

(** * Store and engine under the commands *)

Section CreateDetails.
Import ScheduleManager StoreProps MoreProps.

Implicit Types (m : ScheduleManager.t) (s : ScheduleConfig) (r : Request).

Lemma newSchedule_id tId rnd tAt r :
  id (newSchedule tId rnd tAt r)
  = platform_string (req_platform r) +:+ "-" +:+ pretty tId +:+ "-" +:+ pretty rnd.
Proof.
  unfold newSchedule.
  destruct (bool_decide (req_platform r = Discord) && _); [done|].
  destruct (bool_decide (req_platform r = Telegram) && _); done.
Qed.

Lemma createUserSchedule_id tId rnd tAt tAdd1 tAdd2 r m :
  id (createUserSchedule tId rnd tAt tAdd1 tAdd2 r m).1
  = platform_string (req_platform r) +:+ "-" +:+ pretty tId +:+ "-" +:+ pretty rnd.
Proof.
  unfold createUserSchedule, addSchedule. cbn [fst].
  assert (JS.truthy (id (newSchedule tId rnd tAt r)) = true) as ->.
  { rewrite newSchedule_id. unfold JS.truthy.
    rewrite bool_decide_eq_false_2; [done|]. by destruct (req_platform r). }
  destruct (JS.truthy_num (createdAt (newSchedule tId rnd tAt r)));
    apply newSchedule_id.
Qed.

(** How ids resolve after a record was appended. *)
Lemma getSchedule_snoc m m' s j :
  schedules m' = schedules m ++ [s] →
  getSchedule j m'
  = match getSchedule j m with
    | Some x => Some x
    | None => if decide (id s = j) then Some s else None
    end.
Proof.
  intros Hm'. unfold getSchedule. rewrite Hm'.
  destruct (list_find (λ x, id x = j) (schedules m)) as [[k y]|] eqn:Hf.
  - by rewrite (list_find_app_l _ _ _ _ _ Hf).
  - rewrite list_find_app_r by done. cbn [list_find].
    by destruct (decide (id s = j)).
Qed.

End CreateDetails.

Section CreateOutcome.
Context `{NodeCronLib}.
Import ScheduleManager StoreProps TelegramCommands MoreProps.

Implicit Types (rd : Reads) (ctx : Context)
  (st : ScheduleManager.t * SchedulerService.t).

(** The create command leaves the state as it was, or stores the record
    that [createUserSchedule] builds for a Telegram request with the
    chat and the user of the update, and hands that record to the
    engine. *)
Lemma handleCreateSchedule_stores rd ctx st :
  (handleCreateSchedule rd ctx st).2 = st
  ∨ ∃ r c u,
      chat ctx = Some c ∧ from ctx = Some u
      ∧ req_platform r = Telegram
      ∧ req_chatId r = Some (pretty (chat_id c))
      ∧ req_userId r = pretty (user_id u)
      ∧ req_cronExpression r
        = resolveFrequency
            (default "daily"
               (tail (parseCommandArguments (default "" (message_text ctx)))
                  !! 1%nat))
      ∧ handleCreateSchedule rd ctx st
        = (Created
             (createUserSchedule (now_id rd) (random_suffix rd)
                (now_createdAt rd) (now_add_id rd) (now_add_createdAt rd)
                r st.1).1
             (cronDescription (req_cronExpression r)),
           ((createUserSchedule (now_id rd) (random_suffix rd)
               (now_createdAt rd) (now_add_id rd) (now_add_createdAt rd)
               r st.1).2,
            SchedulerService.addSchedule
              (createUserSchedule (now_id rd) (random_suffix rd)
                 (now_createdAt rd) (now_add_id rd) (now_add_createdAt rd)
                 r st.1).1
              st.2)).
Proof.
  unfold handleCreateSchedule. cbv zeta.
  destruct (tail (parseCommandArguments (default "" (message_text ctx))))
    as [|arg0 rest] eqn:Hargs; [by left|].
  destruct (negb _ && negb _); [by left|].
  rewrite isValidCron_validate. cbn [negb].
  destruct (chat ctx) as [c|] eqn:Hchat; [|by left].
  cbn [fmap option_fmap option_map JS.truthy_opt].
  rewrite pretty_Z_truthy. cbn [negb].
  destruct (from ctx) as [u|] eqn:Hfrom; [|by left].
  cbn [fmap option_fmap option_map JS.truthy_opt default from_option].
  unfold Datatypes.id. rewrite pretty_Z_truthy. cbn [negb].
  right.
  match goal with
  | |- context [createUserSchedule _ _ _ _ _ ?r _] => exists r, c, u
  end.
  by split_and!.
Qed.

End CreateOutcome.

Section Sync.
Context `{NodeCronLib}.
Import ScheduleManager StoreProps EngineProps.
Import TelegramCommands TelegramManage MoreProps.

Implicit Types (m : ScheduleManager.t) (e : SchedulerService.t)
  (s : ScheduleConfig) (i j : string) (ctx : Context)
  (st : ScheduleManager.t * SchedulerService.t).

Lemma create_inSync rd ctx st :
  inSync st → createdId rd ∉ ids st.1 →
  inSync (handleCreateSchedule rd ctx st).2.
Proof.
  intros (Hcons & Htimer & Hrecord) Hfresh.
  destruct (handleCreateSchedule_stores rd ctx st)
    as [->|(r & c & u & _ & _ & Hp & _ & _ & _ & ->)]; [done|].
  set (res := createUserSchedule _ _ _ _ _ r st.1).
  assert (schedules res.2 = schedules st.1 ++ [res.1]) as Hm' by done.
  assert (id res.1 = createdId rd) as Hid.
  { subst res. rewrite createUserSchedule_id, Hp. done. }
  assert (enabled res.1 = true) as Hen.
  { by destruct (createUserSchedule_fields (now_id rd) (random_suffix rd)
      (now_createdAt rd) (now_add_id rd) (now_add_createdAt rd) r st.1)
      as (_ & _ & ? & _). }
  assert (getSchedule (id res.1) st.1 = None) as Hnone.
  { apply getSchedule_None. intros x Hx Hidx. apply Hfresh.
    rewrite <- Hid, <- Hidx. unfold ids. apply list_elem_of_fmap. eauto. }
  unfold inSync. cbn [fst snd]. split_and!.
  - by apply addSchedule_consistent.
  - intros i h Hl. rewrite (getSchedule_snoc st.1 res.2 res.1 i Hm').
    assert (is_Some (SchedulerService.scheduledTasks
                       (SchedulerService.addSchedule res.1 st.2) !! i)) as Hi
      by eauto.
    apply addSchedule_timer_iff in Hi as [[h0 Hold]|[<- _]].
    + destruct (Htimer i h0 Hold) as (s0 & -> & Hs0). eauto.
    + rewrite Hnone, decide_True by done. eauto.
  - intros i s Hget Hs Hacc. rewrite accepts_addSchedule in Hacc.
    rewrite (getSchedule_snoc st.1 res.2 res.1 i Hm') in Hget.
    apply addSchedule_timer_iff.
    destruct (getSchedule i st.1) as [s0|] eqn:Hold.
    + injection Hget as ->. left. by eapply Hrecord.
    + destruct (decide (id res.1 = i)) as [Hi|]; [|done].
      injection Hget as <-. by right.
Qed.





(** X20.  A create command with a valid kind, sent in a chat by a user,
    in a state where store and engine agree and with reads whose id is
    not yet stored, stores an enabled record under that id for this
    chat: the id resolves to the record, the record is the last of the
    chat's listing, its creator may manage it without being admin, and
    the id has exactly one live timer when the engine does not refuse
    the record and none when it does. *)
Theorem create_command_creates rd ctx st arg0 rest c u :
  tail (parseCommandArguments (default "" (message_text ctx))) = arg0 :: rest →
  toLowerCase arg0 = "artist" ∨ toLowerCase arg0 = "nft" →
  chat ctx = Some c → from ctx = Some u →
  inSync st → createdId rd ∉ ids st.1 →
  let res := handleCreateSchedule rd ctx st in
  ∃ s,
    res.1 = Created s (cronDescription (cronExpression s))
    ∧ id s = createdId rd ∧ enabled s = true
    ∧ cronExpression s = resolveFrequency (default "daily" (rest !! 0%nat))
    ∧ getSchedule (id s) res.2.1 = Some s
    ∧ getTelegramChatSchedules (pretty (chat_id c)) res.2.1
      = getTelegramChatSchedules (pretty (chat_id c)) st.1 ++ [s]
    ∧ canUserManageSchedule (id s) Telegram (pretty (user_id u)) false res.2.1
      = true
    ∧ length (SchedulerService.liveTimers (id s) res.2.2)
      = (if accepts s st.2 then 1 else 0)%nat.
Proof.
  intros Hargs Htype Hchat Hfrom Hsync Hfresh res.
  pose proof (create_inSync rd ctx st Hsync Hfresh) as (Hcons' & _ & _).
  destruct Hsync as (Hcons & Htimer & _).
  destruct (handleCreateSchedule_stores rd ctx st)
    as [Hsame|(r & c' & u' & Hc' & Hu' & Hp & Hrc & Hru & Hcron & Hres)].
  { exfalso. revert Hsame. unfold handleCreateSchedule. cbv zeta.
    rewrite Hargs, Hchat, Hfrom.
    assert (negb (JS.str_eq (toLowerCase arg0) "artist")
            && negb (JS.str_eq (toLowerCase arg0) "nft") = false) as ->.
    { by destruct Htype as [-> | ->]. }
    rewrite isValidCron_validate.
    cbn [negb fmap option_fmap option_map JS.truthy_opt].
    rewrite !pretty_Z_truthy. cbn [negb snd].
    match goal with
    | |- context [createUserSchedule ?a ?b ?d ?e ?f ?r ?m] =>
        pose proof (createUserSchedule_schedules a b d e f r m) as Hs;
        destruct (createUserSchedule a b d e f r m) as [s1 m1]
    end.
    cbn [fst snd] in Hs. intros Hsame.
    apply (f_equal (λ st, length (schedules st.1))) in Hsame.
    cbn [fst snd] in Hsame. rewrite Hs, length_app in Hsame.
    cbn [length] in Hsame. lia. }
  rewrite Hchat in Hc'. rewrite Hfrom in Hu'.
  injection Hc' as <-. injection Hu' as <-.
  fold res in Hres, Hcons'. rewrite Hres in Hcons' |- *.
  set (cu := createUserSchedule _ _ _ _ _ r st.1) in *. cbn [fst snd] in *.
  destruct (createUserSchedule_fields (now_id rd) (random_suffix rd)
    (now_createdAt rd) (now_add_id rd) (now_add_createdAt rd) r st.1)
    as (_ & Hcr & Hen & _ & Hby & _). fold cu in Hcr, Hen, Hby.
  assert (id cu.1 = createdId rd) as Hid.
  { subst cu. by rewrite createUserSchedule_id, Hp. }
  assert (getSchedule (id cu.1) st.1 = None) as Hnone.
  { apply getSchedule_None. intros x Hx Hidx. apply Hfresh.
    rewrite <- Hid, <- Hidx. unfold ids. apply list_elem_of_fmap. eauto. }
  assert (getSchedule (id cu.1) cu.2 = Some cu.1) as Hget.
  { rewrite (getSchedule_snoc st.1 cu.2 cu.1 (id cu.1)) by done.
    by rewrite Hnone, decide_True. }
  exists cu.1. split_and!.
  - by rewrite Hcr.
  - done.
  - done.
  - rewrite Hcr, Hcron, Hargs. done.
  - done.
  - destruct (createUserSchedule_telegram_lists (now_id rd) (random_suffix rd)
      (now_createdAt rd) (now_add_id rd) (now_add_createdAt rd) r st.1
      (pretty (chat_id c)) Hp Hrc) as [Hlist _]; [|done].
    pose proof (pretty_Z_truthy (chat_id c)) as Ht. unfold JS.truthy in Ht.
    by apply negb_true_iff, bool_decide_eq_false in Ht.
  - apply (canUserManageSchedule_found _ _ _ _ _ _ Hget). right.
    unfold isCreator. rewrite Hby, Hp, Hru. by eexists.
  - rewrite liveTimers_consistent by done.
    assert (SchedulerService.scheduledTasks st.2 !! id cu.1 = None) as Hfree.
    { destruct (SchedulerService.scheduledTasks st.2 !! id cu.1) as [h|] eqn:Hl;
        [|done].
      destruct (Htimer _ _ Hl) as (s0 & Hs0 & _). congruence. }
    destruct (accepts cu.1 st.2) eqn:Hacc.
    + rewrite addSchedule_fresh by done. cbn. by rewrite lookup_insert_eq.
    + rewrite addSchedule_refused by done. by rewrite Hfree.
Qed.

End Sync.

Section Start.
Context `{NodeCronLib}.
Import ScheduleManager ScheduleManagerIO StoreProps EngineProps MoreProps.


End Start.

(** * The further properties at work on examples *)

Section MoreExamples.
Import ScheduleManager ScheduleManagerIO TelegramCommands TelegramManage.
Import ApiService Firing StoreProps EngineProps CommandProps MoreProps.

Lemma deleteSchedule_spec_witness :
  (∃ s, s ∈ schedules oneRecord ∧ id s = "a")
  ∧ (deleteSchedule "a" oneRecord).1 = true
  ∧ getSchedule "a" (deleteSchedule "a" oneRecord).2 = None
  ∧ ("b" ≠ "a"
     ∧ getSchedule "b" (deleteSchedule "a" oneRecord).2 = getSchedule "b" oneRecord).
Proof.
  assert (∃ s, s ∈ schedules oneRecord ∧ id s = "a") as Hin.
  { exists (sample "a" (Some ann)). split; [apply list_elem_of_here|reflexivity]. }
  assert ("b" ≠ "a") as Hne by discriminate.
  destruct (deleteSchedule_spec "a" oneRecord) as (Ht & Hg & Ho & _).
  split_and!.
  - exact Hin.
  - apply Ht. exact Hin.
  - exact Hg.
  - exact Hne.
  - apply Ho. exact Hne.
Defined.

Lemma addSchedule_then_getSchedule_witness :
  let s' := (addSchedule 3 4 (sample "b" None) oneRecord).1 in
  let m' := (addSchedule 3 4 (sample "b" None) oneRecord).2 in
  (id s' ∉ ids oneRecord) ∧ getSchedule (id s') m' = Some s'.
Proof.
  intros s' m'.
  assert (id s' ∉ ids oneRecord) as Hn.
  { intros Hin%list_elem_of_singleton. discriminate Hin. }
  split; [exact Hn|].
  pose proof (addSchedule_then_getSchedule 3 4 (sample "b" None) oneRecord) as Hs.
  cbv zeta in Hs. destruct Hs as (_ & _ & _ & Hget & _).
  apply Hget. exact Hn.
Defined.

Lemma createUserSchedule_telegram_listed_witness :
  req_platform telegramRequest = Telegram
  ∧ req_chatId telegramRequest = Some "123"
  ∧ getTelegramChatSchedules "123"
      (createUserSchedule 1 2 3 4 5 telegramRequest oneRecord).2
    = getTelegramChatSchedules "123" oneRecord
      ++ [(createUserSchedule 1 2 3 4 5 telegramRequest oneRecord).1].
Proof.
  split; [reflexivity|]. split; [reflexivity|].
  pose proof (createUserSchedule_telegram_listed 1 2 3 4 5 telegramRequest
                oneRecord "123" eq_refl eq_refl) as Hs.
  cbv zeta in Hs. destruct Hs as (_ & _ & _ & Hl & _); [discriminate|].
  exact Hl.
Defined.

Lemma createUserSchedule_discord_listed_witness :
  req_platform discordRequest = Discord
  ∧ req_channelId discordRequest = Some "9"
  ∧ getDiscordChannelSchedules "9" None
      (createUserSchedule 1 2 3 4 5 discordRequest oneRecord).2
    = getDiscordChannelSchedules "9" None oneRecord
      ++ [(createUserSchedule 1 2 3 4 5 discordRequest oneRecord).1]
  ∧ getDiscordChannelSchedules "9" (Some "g2")
      (createUserSchedule 1 2 3 4 5 discordRequest oneRecord).2
    = getDiscordChannelSchedules "9" (Some "g2") oneRecord.
Proof.
  split; [reflexivity|]. split; [reflexivity|].
  pose proof (createUserSchedule_discord_listed 1 2 3 4 5 discordRequest
                oneRecord "9" eq_refl eq_refl) as Hs.
  cbv zeta in Hs. destruct Hs as (_ & _ & Hsame & Hother & _); [discriminate|].
  split.
  - apply Hsame. left. reflexivity.
  - apply Hother; [reflexivity|reflexivity|discriminate].
Defined.

Lemma removeSchedule_spec_witness :
  let e := @SchedulerService.run presetPatterns annsTimer SchedulerService.new in
  is_Some (SchedulerService.scheduledTasks e !! "a")
  ∧ (SchedulerService.removeSchedule "a" e).1 = true
  ∧ SchedulerService.liveTimers "a" (SchedulerService.removeSchedule "a" e).2 = []
  ∧ ("b" ≠ "a"
     ∧ SchedulerService.liveTimers "b" (SchedulerService.removeSchedule "a" e).2
       = SchedulerService.liveTimers "b" e).
Proof.
  intros e.
  assert (is_Some (SchedulerService.scheduledTasks e !! "a")) as Hin
    by (exists 0%nat; reflexivity).
  assert ("b" ≠ "a") as Hne by discriminate.
  pose proof (@removeSchedule_spec presetPatterns annsTimer "a") as Hs.
  cbv zeta in Hs. destruct Hs as (Ht & Hl & Ho & _).
  split_and!.
  - exact Hin.
  - apply Ht. exact Hin.
  - exact Hl.
  - exact Hne.
  - apply Ho. exact Hne.
Defined.

Lemma addScheduledTasks_spec_witness :
  let l := [hourly "a" true; hourly "b" false] in
  (∃ s, s ∈ l ∧ id s = "a" ∧ enabled s = true ∧ @accepts presetPatterns s ready = true)
  ∧ is_Some (SchedulerService.scheduledTasks
               (@SchedulerService.addScheduledTasks presetPatterns l ready) !! "a").
Proof.
  intros l.
  assert (∃ s, s ∈ l ∧ id s = "a" ∧ enabled s = true
               ∧ @accepts presetPatterns s ready = true) as Hs.
  { exists (hourly "a" true).
    split; [apply list_elem_of_here|]. split_and!; reflexivity. }
  split; [exact Hs|].
  pose proof (@addScheduledTasks_spec presetPatterns
                [SchedulerService.SetTelegramSender 1%nat] l "a") as Ha.
  cbv zeta in Ha. destruct Ha as (Hiff & _).
  apply Hiff. right. exact Hs.
Defined.

Lemma updateSchedule_replaces_timer_witness :
  let e := @SchedulerService.run presetPatterns annsTimer SchedulerService.new in
  enabled (hourly "a" true) = true
  ∧ @accepts presetPatterns (hourly "a" true) e = true
  ∧ SchedulerService.liveTimers "a"
      (@SchedulerService.updateSchedule presetPatterns (hourly "a" true) e)
    = [1%nat]
  ∧ SchedulerService.timers
      (@SchedulerService.updateSchedule presetPatterns (hourly "a" true) e)
    !! 0%nat
    = Some (NodeCron.stopped
              (NodeCron.mkTask "0 12 * * *" (sample "a" (Some ann)) true)).
Proof.
  intros e.
  pose proof (@updateSchedule_replaces_timer presetPatterns annsTimer
                (hourly "a" true)) as Hs.
  cbv zeta in Hs. destruct Hs as (Hon & _ & Hold).
  split; [reflexivity|]. split; [reflexivity|]. split.
  - apply Hon; reflexivity.
  - apply (Hold 0%nat); reflexivity.
Defined.

Lemma no_sender_no_timer_witness :
  let ops := [SchedulerService.AddSchedule (hourly "a" true);
              SchedulerService.AddScheduledTasks [hourly "b" true];
              SchedulerService.UpdateSchedule (hourly "c" true);
              SchedulerService.RemoveSchedule "a"] in
  Forall (λ o, setsSender o = false) ops
  ∧ @SchedulerService.run presetPatterns ops SchedulerService.new
    = SchedulerService.new.
Proof.
  intros ops.
  assert (Forall (λ o, setsSender o = false) ops) as Hops.
  { repeat constructor. }
  split; [exact Hops|].
  apply (@no_sender_no_timer presetPatterns ops Hops).
Defined.

Lemma firing_delivers_witness :
  let e := @SchedulerService.run presetPatterns bothSenders SchedulerService.new in
  let task := NodeCron.mkTask "0 * * * *" (hourly "a" true) true in
  task ∈ SchedulerService.startedTasks e
  ∧ message (hourly "a" true) None (Some someListing)
    = Some (nftMessage someListing)
  ∧ (length (fire (hourly "a" true) None (Some someListing) e) ≤ 2)%nat
  ∧ Forall (ownDestination (hourly "a" true) (nftMessage someListing))
           (fire (hourly "a" true) None (Some someListing) e)
  ∧ fire (hourly "a" true) (Some (mkArtistData "Ann" None None None)) None e = [].
Proof.
  intros e task.
  assert (task ∈ SchedulerService.startedTasks e) as Hin
    by apply list_elem_of_here.
  pose proof (@firing_delivers presetPatterns bothSenders task) as Hs.
  cbv zeta in Hs.
  split; [exact Hin|]. split; [reflexivity|].
  destruct (Hs None (Some someListing) Hin) as [_ Hsome];
    [exists 2%nat; reflexivity|exists 1%nat; reflexivity|].
  destruct (Hsome (nftMessage someListing) eq_refl) as (_ & _ & Hlen & Hall).
  split; [exact Hlen|]. split; [exact Hall|].
  destruct (Hs (Some (mkArtistData "Ann" None None None)) None Hin) as [Hnone _];
    [exists 2%nat; reflexivity|exists 1%nat; reflexivity|].
  apply Hnone. reflexivity.
Defined.

Lemma unmatched_sender_fires_nothing_witness :
  discord discordOnly = Some (mkDiscordTarget "9" None)
  ∧ SchedulerService.discordSender ready = None
  ∧ is_Some (SchedulerService.scheduledTasks
               (@SchedulerService.addSchedule presetPatterns discordOnly ready)
             !! "d")
  ∧ fire discordOnly None (Some someListing)
      (@SchedulerService.addSchedule presetPatterns discordOnly ready) = [].
Proof.
  split; [reflexivity|]. split; [reflexivity|].
  destruct (@unmatched_sender_fires_nothing presetPatterns discordOnly ready
              "9" None) as [Htimer Hfire].
  - reflexivity.
  - discriminate.
  - reflexivity.
  - reflexivity.
  - exists 1%nat. reflexivity.
  - reflexivity.
  - reflexivity.
  - split; [exact Htimer|]. apply Hfire.
Defined.

Lemma ipfsToHttp_spec_witness :
  "https://x.io/a.png" ≠ ""
  ∧ stripPrefix "ipfs://" "https://x.io/a.png" = None
  ∧ ipfsToHttp (Some "https://x.io/a.png") = Some "https://x.io/a.png"
  ∧ ipfsToHttp (Some "ipfs://Qm1") = Some "https://ipfs.io/ipfs/Qm1".
Proof.
  destruct ipfsToHttp_spec as (_ & Hipfs & Hother & _).
  split_and!.
  - discriminate.
  - reflexivity.
  - apply Hother; [discriminate|reflexivity].
  - apply (Hipfs "Qm1").
Defined.

Lemma parseCommandArguments_unwords_witness :
  let args := [Word "/schedule_create"; Word "nft"; Phrase "every 15 minutes";
               Phrase "My NFTs"] in
  Forall (λ a, argOk a = true) args
  ∧ parseCommandArguments (unwords (argText <$> args))
    = ["/schedule_create"; "nft"; "every 15 minutes"; "My NFTs"].
Proof.
  intros args.
  assert (Forall (λ a, argOk a = true) args) as Hargs.
  { repeat (constructor; [reflexivity|]). constructor. }
  split; [exact Hargs|].
  apply (parseCommandArguments_unwords args Hargs).
Defined.

Lemma resolveFrequency_every_witness :
  0 ≤ 15
  ∧ resolveFrequency ("every " +:+ pretty 15 +:+ " " +:+ "minutes")
    = "*/" +:+ pretty 15 +:+ " * * * *"
  ∧ resolveFrequency ("every " +:+ pretty 24 +:+ " " +:+ "hours")
    = "every " +:+ pretty 24 +:+ " " +:+ "hours".
Proof.
  assert (0 ≤ 15) as H15 by lia.
  assert (0 ≤ 24) as H24 by lia.
  split; [exact H15|]. split.
  - apply (proj1 (resolveFrequency_every 15 H15) "minutes"). left. reflexivity.
  - apply (proj2 (resolveFrequency_every 24 H24) "hours"). left. reflexivity.
Defined.

Lemma manage_commands_guarded_witness :
  let st := (oneRecord,
             @SchedulerService.run presetPatterns annsTimer SchedulerService.new) in
  getSchedule "a" st.1 = Some (sample "a" (Some ann))
  ∧ ¬ isCreator Telegram "88" (sample "a" (Some ann))
  ∧ handleDeleteSchedule (fromBob "/schedule_delete a") st
    = (Denied, st)
  ∧ handlePauseSchedule (fromBob "/schedule_delete a") st
    = (Denied, st).
Proof.
  intros st.
  assert (¬ isCreator Telegram "88" (sample "a" (Some ann))) as Hnot.
  { intros (c & Hc & _ & Hu). injection Hc as <-. discriminate Hu. }
  split; [reflexivity|]. split; [exact Hnot|].
  destruct (@manage_commands_guarded presetPatterns
              (fromBob "/schedule_delete a") st "a" []
              (sample "a" (Some ann)) (mkChat 123 Group) (mkUser 88 None "Bob")
              eq_refl eq_refl eq_refl eq_refl) as [_ Hdenied].
  destruct Hdenied as (Hd & Hp & _); [reflexivity|discriminate|exact Hnot|].
  split; [exact Hd|exact Hp].
Defined.

Lemma delete_command_removes_witness :
  let st := (oneRecord,
             @SchedulerService.run presetPatterns annsTimer SchedulerService.new) in
  getSchedule "a" st.1 = Some (sample "a" (Some ann))
  ∧ isCreator Telegram "77" (sample "a" (Some ann))
  ∧ (handleDeleteSchedule (fromAnn "/schedule_delete a") st).1
    = Deleted "Daily Artist"
  ∧ getSchedule "a"
      (handleDeleteSchedule (fromAnn "/schedule_delete a") st).2.1
    = None
  ∧ SchedulerService.scheduledTasks
      (handleDeleteSchedule (fromAnn "/schedule_delete a") st).2.2
    !! "a" = None.
Proof.
  intros st.
  assert (isCreator Telegram "77" (sample "a" (Some ann))) as Hann.
  { exists ann. split_and!; reflexivity. }
  split; [reflexivity|]. split; [exact Hann|].
  pose proof (delete_command_removes
                (fromAnn "/schedule_delete a") st "a" []
                (sample "a" (Some ann)) (mkChat 123 Group) (mkUser 77 None "Ann")
                eq_refl eq_refl eq_refl eq_refl eq_refl (or_intror Hann)) as Hs.
  cbv zeta in Hs. destruct Hs as (Hr & Hg & Ht & _).
  split_and!; [exact Hr|exact Hg|exact Ht].
Defined.

Lemma pause_then_resume_witness :
  let e := @SchedulerService.run presetPatterns annsTimer SchedulerService.new in
  let ctx := fromAnn "/schedule_pause a" in
  let paused := handlePauseSchedule ctx (oneRecord, e) in
  let resumed := @handleResumeSchedule presetPatterns ctx paused.2 in
  authorize ctx oneRecord = inr ("a", sample "a" (Some ann))
  ∧ SchedulerService.liveTimers "a" paused.2.2 = []
  ∧ ScheduleManager.schedules resumed.2.1 = ScheduleManager.schedules oneRecord
  ∧ length (SchedulerService.liveTimers "a" resumed.2.2) = 1%nat.
Proof.
  intros e ctx paused resumed.
  pose proof (@pause_then_resume presetPatterns annsTimer ctx oneRecord "a"
                (sample "a" (Some ann))) as Hs.
  cbv zeta in Hs.
  destruct (Hs eq_refl eq_refl) as (_ & _ & Hl & _ & _ & Hm & _ & Hn).
  split; [reflexivity|]. split_and!; [exact Hl|exact Hm|exact Hn].
Defined.


Lemma create_command_creates_witness :
  let ctx := fromAnn "/schedule_create nft hourly" in
  let res := @handleCreateSchedule presetPatterns reads0 ctx
               (ScheduleManager.new, ready) in
  tail (parseCommandArguments (default "" (message_text ctx))) = ["nft"; "hourly"]
  ∧ (createdId reads0 ∉ ids ScheduleManager.new)
  ∧ ∃ s, res.1 = Created s (cronDescription (cronExpression s))
         ∧ id s = createdId reads0
         ∧ cronExpression s = "0 * * * *"
         ∧ getSchedule (id s) res.2.1 = Some s
         ∧ length (SchedulerService.liveTimers (id s) res.2.2)
           = (if @accepts presetPatterns s ready then 1 else 0)%nat.
Proof.
  intros ctx res.
  assert (@inSync presetPatterns (ScheduleManager.new, ready)) as Hsync.
  { split_and!.
    - apply (@run_consistent presetPatterns
               [SchedulerService.SetTelegramSender 1%nat]), new_consistent.
    - intros i h Hl. discriminate Hl.
    - intros i s Hget. discriminate Hget. }
  assert (createdId reads0 ∉ ids ScheduleManager.new) as Hfresh
    by apply not_elem_of_nil.
  split; [reflexivity|]. split; [exact Hfresh|].
  pose proof (@create_command_creates presetPatterns reads0 ctx
                (ScheduleManager.new, ready) "nft" ["hourly"]
                (mkChat 123 Group) (mkUser 77 None "Ann")
                eq_refl (or_intror eq_refl) eq_refl eq_refl Hsync Hfresh) as Hs.
  cbv zeta in Hs. destruct Hs as (s & Hr & Hid & _ & Hcron & Hget & _ & _ & Hn).
  exists s. split_and!; [exact Hr|exact Hid|exact Hcron|exact Hget|exact Hn].
Defined.


End MoreExamples.
